(** * BayesOpt: kernels, kernel factory and the non-parametric surrogate

    A shallow embedding of
      - include/kernel_functors.hpp   (kernel functors),
      - src/kernel_functors.cpp       (KernelFactory, KernelModel),
      - src/nonparametricprocess.cpp  (NonParametricProcess),
    and of the save/restore driver.

    [double] is read as a real number of [R]: arithmetic is exact, [exp]
    and [sqrt] are the real functions.  A [vectord] is a list of reals, a
    [vecOfvec] a list of vectors and a [matrixd] a sized table of reals.
    Logging, [exit], [throw] and [new] are effects of a small monad over an
    explicit world. *)

From Stdlib Require Import Reals Lra Lia String ZArith Bool Arith List.
From Stdlib Require Import Ranalysis.
Import ListNotations.

Local Open Scope R_scope.

(* ------------------------------------------------------------------ *)
(** ** uBlas values *)

Definition vectord := list R.
Definition vecOfvec := list vectord.

Record matrixd := mk_matrixd {
  size1 : nat;
  size2 : nat;
  coef : nat -> nat -> R
}.

Module ublas.

(** [v(i)]; reading past the end is undefined in uBlas, [0] here. *)
Definition at_ (v : vectord) (i : nat) : R := nth i v 0.

(** [zvectord(n)] and [svectord(n, c)]. *)
Definition zvectord (n : nat) : vectord := repeat 0 n.
Definition svectord (n : nat) (c : R) : vectord := repeat c n.

(** [x1 - x2], component by component; the callers assert that the two
    sizes agree, and the common prefix is used here when they do not. *)
Fixpoint minus (x1 x2 : vectord) : vectord :=
  match x1, x2 with
  | a :: x1', b :: x2' => (a - b) :: minus x1' x2'
  | _, _ => []
  end.

Fixpoint sum_squares (v : vectord) : R :=
  match v with
  | [] => 0
  | a :: v' => a * a + sum_squares v'
  end.

(** [norm_2(v)], the Euclidean norm. *)
Definition norm_2 (v : vectord) : R := sqrt (sum_squares v).

(** [v.resize(n)]: the first [n] entries are kept, fresh ones are
    unspecified in uBlas and [0] here. *)
Definition resize (n : nat) (v : vectord) : vectord :=
  firstn n v ++ repeat 0 (n - length v).

(** [v(i) = c]. *)
Fixpoint assign (i : nat) (c : R) (v : vectord) : vectord :=
  match v, i with
  | [], _ => []
  | _ :: v', O => c :: v'
  | a :: v', S i' => a :: assign i' c v'
  end.

(** [M.resize(n, m)]: entries in range are kept. *)
Definition mresize (n m : nat) (M : matrixd) : matrixd :=
  mk_matrixd n m (coef M).

(** [M(i, j) = c]. *)
Definition massign (i j : nat) (c : R) (M : matrixd) : matrixd :=
  mk_matrixd (size1 M) (size2 M)
    (fun a b => if (a =? i)%nat && (b =? j)%nat then c else coef M a b).

(** [column(M, j) = v]. *)
Definition set_column (j : nat) (v : vectord) (M : matrixd) : matrixd :=
  mk_matrixd (size1 M) (size2 M)
    (fun a b => if (b =? j)%nat && (a <? length v)%nat then at_ v a
                else coef M a b).

(** A fresh [matrixd(n, m)]; its entries are unspecified, [0] here. *)
Definition fresh (n m : nat) : matrixd := mk_matrixd n m (fun _ _ => 0).

End ublas.

(** Modelled from the spec: [ublas_elementwise_div] (elementwise_ublas.hpp
    is not among the sources); the ARD kernels "take one length-scale per
    input dimension", so the difference is divided component by component. *)
Fixpoint ublas_elementwise_div (xd theta : vectord) : vectord :=
  match xd, theta with
  | a :: xd', t :: theta' => (a / t) :: ublas_elementwise_div xd' theta'
  | _, _ => []
  end.

(** Modelled from the spec: [utils::append] (ublas_extra.hpp is not among
    the sources); the new row is the cross-correlation vector followed by
    the self-correlation, so [append] grows the vector by one slot and
    stores [c] there. *)
Definition append (v : vectord) (c : R) : vectord :=
  ublas.assign (length v) c (ublas.resize (S (length v)) v).

(** Modelled from the spec: [utils::array2vector] (ublas_extra.hpp is not
    among the sources); the first [n] entries of a configuration array
    as a vector. *)
Definition array2vector (a : list R) (n : nat) : vectord := firstn n a.

(* ------------------------------------------------------------------ *)
(** ** Kernel functors (kernel_functors.hpp) *)

(** [class ISOkernel]: one length-scale [mTheta]. *)
Module ISOkernel.

Definition setScale (theta : vectord) : R := ublas.at_ theta 0.
Definition getScale (mTheta : R) (index : nat) : R := mTheta.
Definition getScale_all (mTheta : R) : vectord := ublas.svectord 1 mTheta.

(** What [computeScaledNorm2] returns once its assertion
    [x1.size() == x2.size()] has passed; the assertion itself is
    [asserted] below. *)
Definition computeScaledNorm2 (mTheta : R) (x1 x2 : vectord) : R :=
  ublas.norm_2 (ublas.minus x1 x2) / mTheta.

End ISOkernel.

(** [class ARDkernel]: one length-scale per input dimension. *)
Module ARDkernel.

Definition setScale (theta : vectord) : vectord := theta.
Definition getScale (mTheta : vectord) (index : nat) : R :=
  ublas.at_ mTheta index.
Definition getScale_all (mTheta : vectord) : vectord := mTheta.

(** What [computeScaledDiff] returns once its assertions
    [x1.size() == x2.size()] and [x1.size() == mTheta.size()] have
    passed; the assertions themselves are [asserted] below. *)
Definition computeScaledDiff (mTheta : vectord) (x1 x2 : vectord) : vectord :=
  let xd := ublas.minus x1 x2 in
  ublas_elementwise_div xd mTheta.

End ARDkernel.

Module MaternIso1.

Definition operator_call (mTheta : R) (x1 x2 : vectord) : R :=
  let r := ISOkernel.computeScaledNorm2 mTheta x1 x2 in
  exp (- r).

Definition getGradient (mTheta : R) (x1 x2 : vectord) (grad_index : nat) : R :=
  let r := ISOkernel.computeScaledNorm2 mTheta x1 x2 in
  r * exp (- r).

End MaternIso1.

Module MaternIso3.

Definition operator_call (mTheta : R) (x1 x2 : vectord) : R :=
  let r := sqrt 3 * ISOkernel.computeScaledNorm2 mTheta x1 x2 in
  let er := exp (- r) in
  (1 + r) * er.

Definition getGradient (mTheta : R) (x1 x2 : vectord) (grad_index : nat) : R :=
  let r := sqrt 3 * ISOkernel.computeScaledNorm2 mTheta x1 x2 in
  let er := exp (- r) in
  r * r * er.

End MaternIso3.

Module MaternIso5.

Definition operator_call (mTheta : R) (x1 x2 : vectord) : R :=
  let r := sqrt 5 * ISOkernel.computeScaledNorm2 mTheta x1 x2 in
  let er := exp (- r) in
  (1 + r * (1 + r / 3)) * er.

Definition getGradient (mTheta : R) (x1 x2 : vectord) (grad_index : nat) : R :=
  let r := sqrt 5 * ISOkernel.computeScaledNorm2 mTheta x1 x2 in
  let er := exp (- r) in
  r * (1 + r) / 3 * r * er.

End MaternIso5.

Module SEIso.

Definition operator_call (mTheta : R) (x1 x2 : vectord) : R :=
  let rl := ISOkernel.computeScaledNorm2 mTheta x1 x2 in
  let k := rl * rl in
  exp (- k / 2).

Definition getGradient (mTheta : R) (x1 x2 : vectord) (grad_index : nat) : R :=
  let rl := ISOkernel.computeScaledNorm2 mTheta x1 x2 in
  let k := rl * rl in
  exp (- k / 2) * k.

End SEIso.

Module SEArd.

Definition operator_call (mTheta : vectord) (x1 x2 : vectord) : R :=
  let ri := ARDkernel.computeScaledDiff mTheta x1 x2 in
  let rl := ublas.norm_2 ri in
  let k := rl * rl in
  exp (- k / 2).

(** The C [sqrt] of a negative number is NaN; [sqrt] on [R] agrees with
    it on the non-negative reals only. *)
Definition getGradient (mTheta : vectord) (x1 x2 : vectord) (grad_index : nat) : R :=
  let ri := ARDkernel.computeScaledDiff mTheta x1 x2 in
  let rl := ublas.norm_2 ri in
  let k := rl * rl in
  exp (- k / 2) * sqrt (ublas.at_ ri grad_index).

End SEArd.

(** The kernel classes of the header as one tagged type; [class Kernel]'s
    virtual calls dispatch on the tag. *)
Inductive Kernel : Type :=
| KMaternIso1 (mTheta : R)
| KMaternIso3 (mTheta : R)
| KMaternIso5 (mTheta : R)
| KSEIso (mTheta : R)
| KSEArd (mTheta : vectord).

Definition operator_call (k : Kernel) (x1 x2 : vectord) : R :=
  match k with
  | KMaternIso1 th => MaternIso1.operator_call th x1 x2
  | KMaternIso3 th => MaternIso3.operator_call th x1 x2
  | KMaternIso5 th => MaternIso5.operator_call th x1 x2
  | KSEIso th => SEIso.operator_call th x1 x2
  | KSEArd th => SEArd.operator_call th x1 x2
  end.

Definition getGradient (k : Kernel) (x1 x2 : vectord) (grad_index : nat) : R :=
  match k with
  | KMaternIso1 th => MaternIso1.getGradient th x1 x2 grad_index
  | KMaternIso3 th => MaternIso3.getGradient th x1 x2 grad_index
  | KMaternIso5 th => MaternIso5.getGradient th x1 x2 grad_index
  | KSEIso th => SEIso.getGradient th x1 x2 grad_index
  | KSEArd th => SEArd.getGradient th x1 x2 grad_index
  end.

Definition getScale (k : Kernel) : vectord :=
  match k with
  | KMaternIso1 th | KMaternIso3 th | KMaternIso5 th | KSEIso th =>
      ISOkernel.getScale_all th
  | KSEArd th => ARDkernel.getScale_all th
  end.

(** The assertions a kernel call makes before it computes:
    [computeScaledNorm2] asserts [x1.size() == x2.size()], and
    [computeScaledDiff] asserts in addition [x1.size() == mTheta.size()].
    [operator_call] and [getGradient] are what the call returns when they
    hold; when one fails, the call stops there. *)
Definition asserted (k : Kernel) (x1 x2 : vectord) : bool :=
  match k with
  | KMaternIso1 _ | KMaternIso3 _ | KMaternIso5 _ | KSEIso _ =>
      (length x1 =? length x2)%nat
  | KSEArd th =>
      (length x1 =? length x2)%nat && (length x1 =? length th)%nat
  end.

(** A kernel configured for inputs of dimension [dim]: an ARD kernel has
    exactly [dim] length-scales. *)
Definition scales_fit (k : Kernel) (dim : nat) : Prop :=
  match k with
  | KSEArd th => length th = dim
  | _ => True
  end.

(** A configuration of strictly positive length-scales for inputs of
    dimension [dim]: an ARD kernel has exactly [dim] of them. *)
Definition positive_scales (k : Kernel) (dim : nat) : Prop :=
  Forall (fun t => 0 < t) (getScale k) /\
  match k with
  | KSEArd th => length th = dim
  | _ => True
  end.

(* ------------------------------------------------------------------ *)
(** ** Effects

    What a call can do besides returning: write a line to the log
    ([FILE_LOG]), allocate an object ([new]), throw, end the process
    ([exit]), or break an [assert] / run into undefined behaviour. *)

Record World := mk_World {
  log_lines : list string;      (* lines written through FILE_LOG *)
  live_objects : list string    (* classes of the objects allocated by new *)
}.

Inductive Outcome (A : Type) : Type :=
| Returned (a : A)
| Thrown (what : string)        (* std::invalid_argument *)
| Exited                        (* exit(EXIT_FAILURE) *)
| Aborted.                      (* failed assert, null or out-of-range access *)

Arguments Returned {A} a.
Arguments Thrown {A} what.
Arguments Exited {A}.
Arguments Aborted {A}.

Definition Proc (St A : Type) : Type := St -> Outcome A * St.

Definition ret {St A} (a : A) : Proc St A := fun s => (Returned a, s).

Definition bind {St A B} (m : Proc St A) (f : A -> Proc St B) : Proc St B :=
  fun s =>
    match m s with
    | (Returned a, s') => f a s'
    | (Thrown what, s') => (Thrown what, s')
    | (Exited, s') => (Exited, s')
    | (Aborted, s') => (Aborted, s')
    end.

Declare Scope proc_scope.
Delimit Scope proc_scope with proc.
Notation "x <- m ;; k" := (bind m (fun x => k))
  (at level 61, m at next level, right associativity) : proc_scope.
Notation "m ;; k" := (bind m (fun _ => k))
  (at level 61, right associativity) : proc_scope.

Definition get {St} : Proc St St := fun s => (Returned s, s).
Definition put {St} (s : St) : Proc St unit := fun _ => (Returned tt, s).
Definition modify {St} (f : St -> St) : Proc St unit :=
  fun s => (Returned tt, f s).
Definition throw {St A} (what : string) : Proc St A :=
  fun s => (Thrown what, s).
Definition exit_ {St A} : Proc St A := fun s => (Exited, s).
Definition abort {St A} : Proc St A := fun s => (Aborted, s).

(** [assert(b)]. *)
Definition assert_ {St} (b : bool) : Proc St unit :=
  if b then ret tt else abort.

(** [FILE_LOG(logERROR) << msg]. *)
Definition FILE_LOG (msg : string) : Proc World unit :=
  modify (fun w => mk_World (log_lines w ++ [msg]) (live_objects w)).

(** [new T]. *)
Definition new_ (cls : string) : Proc World unit :=
  modify (fun w => mk_World (log_lines w) (cls :: live_objects w)).


(** [wp m Q s]: running [m] from [s] ends in an outcome and a state that
    satisfy [Q]. *)
Definition wp {St A} (m : Proc St A) (Q : Outcome A -> St -> Prop) (s : St)
  : Prop :=
  Q (fst (m s)) (snd (m s)).

(** What [Q] must say of the outcome [o] of a first step for the rest [f]
    of a sequence to establish [Q']. *)
Definition wp_then {St A B} (f : A -> Proc St B)
    (Q : Outcome B -> St -> Prop) (o : Outcome A) (s : St) : Prop :=
  match o with
  | Returned a => wp (f a) Q s
  | Thrown what => Q (Thrown what) s
  | Exited => Q Exited s
  | Aborted => Q Aborted s
  end.

(** [for (size_t i = 0; i < n; ++i) body(i)] on a value threaded through
    the iterations. *)
Fixpoint for_loop {A : Type} (n : nat) (body : nat -> A -> A) (a : A) : A :=
  match n with
  | O => a
  | S n' => body n' (for_loop n' body a)
  end.

(** The same loop with effects. *)
Fixpoint for_each {St : Type} (l : list nat) (body : nat -> Proc St unit)
  : Proc St unit :=
  match l with
  | [] => ret tt
  | i :: l' => (body i ;; for_each l' body)%proc
  end.

(* ------------------------------------------------------------------ *)
(** ** Configuration *)

(** Modelled from the spec: [kernel_parameters], [mean_parameters] and
    [bopt_params] (parameters.h is not among the sources); the fields are
    the recognised options of the configuration, under the names the
    sources read them by. *)
Module kernel_parameters.
Record t := mk {
  name : string;
  hp_mean : list R;
  hp_std : list R;
  n_hp : nat
}.
End kernel_parameters.

Module mean_parameters.
Record t := mk {
  name : string;
  coef_mean : list R;
  coef_std : list R;
  n_coef : nat
}.
End mean_parameters.

Record bopt_params := mk_bopt_params {
  n_iterations : nat;
  n_init_samples : nat;
  n_iter_relearn : nat;
  random_seed : Z;
  verbose_level : nat;
  noise : R;
  surr_name : string;
  l_type : nat;
  kernel : kernel_parameters.t;
  mean : mean_parameters.t;
  crit_name : string;
  alpha : R;
  beta : R;
  delta : R
}.

Definition set_surr_name (name : string) (p : bopt_params) : bopt_params :=
  mk_bopt_params (n_iterations p) (n_init_samples p) (n_iter_relearn p)
    (random_seed p) (verbose_level p) (noise p) name (l_type p) (kernel p)
    (mean p) (crit_name p) (alpha p) (beta p) (delta p).

(* ------------------------------------------------------------------ *)
(** ** Kernel objects behind [Kernel*] (kernel_functors.cpp)

    kernel_functors.cpp is written against the kernel classes of
    kernel_atomic.hpp and kernel_combined.hpp, which are not among the
    sources: the operations it calls on them are the fields of an
    interface. *)
Class KernelOps (KernelObj : Type) : Type := mk_KernelOps {
  (* create_func<T>(), as the registry names it: a new object of class T *)
  create_func : string -> KernelObj;
  (* kFunc->init(input_dim) *)
  init : KernelObj -> nat -> KernelObj;
  (* kFunc->init(input_dim, left, right) *)
  init_combined : KernelObj -> nat -> KernelObj -> KernelObj -> KernelObj;
  (* mKernel->setHyperParameters(theta) *)
  setHyperParameters : KernelObj -> vectord -> KernelObj;
  (* operator() of the kernel held by mKernel *)
  evaluate : KernelObj -> vectord -> vectord -> R;
  (* mKernel->gradient(x1, x2, index) *)
  gradient : KernelObj -> vectord -> vectord -> nat -> R
}.

Module KernelFactory.

(** The registry filled by the constructor: kernel name, class created. *)
Definition registry : list (string * string) :=
  [ ("kConst", "ConstKernel");
    ("kLinear", "LinKernel");
    ("kLinearARD", "LinKernelARD");
    ("kHamming", "HammingKernel");
    ("kMaternISO1", "MaternIso1");
    ("kMaternISO3", "MaternIso3");
    ("kMaternISO5", "MaternIso5");
    ("kMaternARD1", "MaternARD1");
    ("kMaternARD3", "MaternARD3");
    ("kMaternARD5", "MaternARD5");
    ("kPoly1", "Polynomial");
    ("kPoly2", "Polynomial2");
    ("kPoly3", "Polynomial3");
    ("kPoly4", "Polynomial4");
    ("kPoly5", "Polynomial5");
    ("kPoly6", "Polynomial6");
    ("kSEARD", "SEArd");
    ("kSEISO", "SEIso");
    ("kRQISO", "RQIso");
    ("kSum", "KernelSum");
    ("kProd", "KernelProd") ]%string.

(** [registry.find(os)]. *)
Fixpoint find (os : string) (reg : list (string * string)) : option string :=
  match reg with
  | [] => None
  | (key, cls) :: reg' => if String.eqb key os then Some cls else find os reg'
  end.

(** The message of the exception for an unregistered name. *)
Definition not_found (os : string) : string :=
  ("Error while parsing kernel function: Kernel not found " ++ os)%string.

Section Create.

Context {KernelObj : Type} {ops : KernelOps KernelObj}.

(** [utils::parseExpresion(name, os, os1, os2)] of parser.hpp, which is
    not among the sources: the head of the expression and its two
    arguments (empty for an atomic kernel). *)
Variable parseExpresion : string -> string * string * string.

(** [KernelFactory::create].  The recursion follows the parsed
    expression, so it is bounded by [fuel]: a nesting deeper than that
    ends as the stack overflow would.  C++ leaves the order of the two
    recursive calls open; they run left to right here. *)
Fixpoint create (fuel : nat) (name : string) (input_dim : nat)
  : Proc World KernelObj :=
  match fuel with
  | O => abort
  | S fuel' =>
      let '(os, os1, os2) := parseExpresion name in
      match find os registry with
      | None => throw (not_found os)
      | Some cls =>
          (new_ cls ;;
           let kFunc := create_func cls in
           if (String.length os1 =? 0)%nat && (String.length os2 =? 0)%nat
           then ret (init kFunc input_dim)
           else
             k1 <- create fuel' os1 input_dim ;;
             k2 <- create fuel' os2 input_dim ;;
             ret (init_combined kFunc input_dim k1 k2))%proc
      end
  end.

End Create.

End KernelFactory.

(* ------------------------------------------------------------------ *)
(** ** KernelModel (kernel_functors.cpp) *)

Module KernelModel.

Record t (KernelObj : Type) : Type := mk {
  mKernel : option KernelObj;        (* scoped_ptr<Kernel>, None when null *)
  priorKernel : list (R * R)         (* mean and deviation per hyperparameter *)
}.

Arguments mk {KernelObj} mKernel priorKernel.
Arguments mKernel {KernelObj} t.
Arguments priorKernel {KernelObj} t.

(** [XX[i]]. *)
Definition sample (XX : vecOfvec) (i : nat) : vectord := nth i XX [].

(** The loop over [jj] of row [ii] in [computeCorrMatrix], run for [m]
    iterations. *)
Definition row_loop (k : vectord -> vectord -> R) (XX : vecOfvec)
    (ii m : nat) (M : matrixd) : matrixd :=
  for_loop m
    (fun jj M =>
       let M1 := ublas.massign ii jj (k (sample XX ii) (sample XX jj)) M in
       ublas.massign jj ii (coef M1 ii jj) M1)
    M.

(** The loop over [ii] in [computeCorrMatrix], run for [n] iterations. *)
Definition rows_loop (k : vectord -> vectord -> R) (XX : vecOfvec)
    (nugget : R) (n : nat) (M : matrixd) : matrixd :=
  for_loop n
    (fun ii M =>
       let M' := row_loop k XX ii ii M in
       ublas.massign ii ii (k (sample XX ii) (sample XX ii) + nugget) M')
    M.

(** [KernelModel::computeCorrMatrix], on the function [k] that the held
    kernel's [operator()] computes. *)
Definition computeCorrMatrix {St : Type} (k : vectord -> vectord -> R)
    (XX : vecOfvec) (corrMatrix : matrixd) (nugget : R) : Proc St matrixd :=
  (assert_ (size1 corrMatrix =? length XX)%nat ;;
   assert_ (size2 corrMatrix =? length XX)%nat ;;
   let nSamples := length XX in
   ret (rows_loop k XX nugget nSamples corrMatrix))%proc.

(** [KernelModel::computeDerivativeCorrMatrix], on the function [g] that
    the held kernel's [gradient] computes. *)
Definition computeDerivativeCorrMatrix {St : Type}
    (g : vectord -> vectord -> nat -> R)
    (XX : vecOfvec) (corrMatrix : matrixd) (dth_index : nat)
  : Proc St matrixd :=
  (assert_ (size1 corrMatrix =? length XX)%nat ;;
   assert_ (size2 corrMatrix =? length XX)%nat ;;
   let nSamples := length XX in
   ret (for_loop nSamples
          (fun ii M =>
             let M' :=
               for_loop ii
                 (fun jj M =>
                    let M1 := ublas.massign ii jj
                                (g (sample XX ii) (sample XX jj) dth_index) M in
                    ublas.massign jj ii (coef M1 ii jj) M1)
                 M in
             ublas.massign ii ii (g (sample XX ii) (sample XX ii) dth_index) M')
          corrMatrix))%proc.

(** Modelled from the spec: [computeCrossCorrelation] and
    [computeSelfCorrelation] (declared in a header that is not among the
    sources); "new row-vector k_* = [k(x_i, x_new)] and self-correlation
    k(x_new, x_new)". *)
Definition computeCrossCorrelation (k : vectord -> vectord -> R)
    (XX : vecOfvec) (query : vectord) : vectord :=
  map (fun x => k x query) XX.

Definition computeSelfCorrelation (k : vectord -> vectord -> R)
    (query : vectord) : R :=
  k query query.

(** Modelled from the spec: [setKernelPrior] (declared in a header that is
    not among the sources); "per-hyperparameter log-normal prior with
    mean/std". *)
Definition setKernelPrior {KernelObj : Type} (thetav stheta : vectord)
    (km : t KernelObj) : t KernelObj :=
  mk (mKernel km) (combine thetav stheta).

Section SetKernel.

Context {KernelObj : Type} {ops : KernelOps KernelObj}.
Variable parseExpresion : string -> string * string * string.
Variable fuel : nat.

(** [KernelModel::setKernel(thetav, stheta, k_name, dim)]. *)
Definition setKernel (thetav stheta : vectord) (k_name : string) (dim : nat)
    (km : t KernelObj) : Proc World (t KernelObj) :=
  (kFunc <- KernelFactory.create parseExpresion fuel k_name dim ;;
   let km1 := mk (Some kFunc) (priorKernel km) in
   let km2 := setKernelPrior thetav stheta km1 in
   match mKernel km2 with
   | None => abort
   | Some kobj =>
       ret (mk (Some (setHyperParameters kobj thetav)) (priorKernel km2))
   end)%proc.

(** [KernelModel::setKernel(kernel_parameters, dim)]. *)
Definition setKernel_params (kernel : kernel_parameters.t) (dim : nat)
    (km : t KernelObj) : Proc World (t KernelObj) :=
  let n := kernel_parameters.n_hp kernel in
  let th := array2vector (kernel_parameters.hp_mean kernel) n in
  let sth := array2vector (kernel_parameters.hp_std kernel) n in
  setKernel th sth (kernel_parameters.name kernel) dim km.

(** [KernelModel::KernelModel(dim, parameters)]. *)
Definition construct (dim : nat) (parameters : bopt_params)
  : Proc World (t KernelObj) :=
  setKernel_params (kernel parameters) dim (mk None []).

End SetKernel.

End KernelModel.

(* ------------------------------------------------------------------ *)
(** ** Mean functions behind [ParametricFunction*]

    The mean classes and their factory are not among the sources: the
    operations nonparametricprocess.cpp calls on them are the fields of an
    interface. *)
Class MeanOps (MeanObj : Type) : Type := mk_MeanOps {
  (* mPFactory.create(m_name, dim); None for a null pointer *)
  mean_create : string -> nat -> Proc World (option MeanObj);
  (* mMean->getMean(x) *)
  getMean : MeanObj -> vectord -> R;
  (* mMean->getFeatures(x) *)
  getFeatures : MeanObj -> vectord -> vectord;
  (* the mean at every sample point *)
  getAllMeans : MeanObj -> vecOfvec -> vectord;
  (* mMean->getAllFeatures(XX) *)
  getAllFeatures : MeanObj -> vecOfvec -> matrixd;
  (* mMean->setParameters(mu): the error code and the object afterwards *)
  setParameters : MeanObj -> vectord -> Z * MeanObj
}.

(* ------------------------------------------------------------------ *)
(** ** NonParametricProcess (nonparametricprocess.cpp) *)

Module NonParametricProcess.

Section Members.

Variables KernelObj MeanObj Cache : Type.

(** The data members the source file reads and writes; [mCache] stands
    for the members a derived class adds. *)
Record State : Type := mk_State {
  dim_ : nat;                           (* input dimension *)
  mRegularizer : R;                     (* the nugget *)
  mMinIndex : nat;                      (* index of the smallest observation *)
  mMaxIndex : nat;                      (* index of the largest observation *)
  mKernel : KernelModel.t KernelObj;    (* kernel and its prior *)
  mLearnType : nat;                     (* learning type *)
  mGPXX : vecOfvec;                     (* sample points *)
  mGPY : vectord;                       (* observations *)
  mMeanV : vectord;                     (* mean at the sample points *)
  mFeatM : matrixd;                     (* features at the sample points *)
  mL : matrixd;                         (* Cholesky factor *)
  mMu : vectord;                        (* mean coefficients *)
  mS_Mu : vectord;                      (* their prior deviation *)
  mMean : option MeanObj;               (* scoped_ptr to the mean function, None when null *)
  mCache : Cache                        (* members of the derived class *)
}.

Definition set_mMinIndex (v : nat) (s : State) : State :=
  mk_State (dim_ s) (mRegularizer s) v (mMaxIndex s) (mKernel s) (mLearnType s) (mGPXX s) (mGPY s) (mMeanV s) (mFeatM s) (mL s) (mMu s) (mS_Mu s) (mMean s) (mCache s).

Definition set_mMaxIndex (v : nat) (s : State) : State :=
  mk_State (dim_ s) (mRegularizer s) (mMinIndex s) v (mKernel s) (mLearnType s) (mGPXX s) (mGPY s) (mMeanV s) (mFeatM s) (mL s) (mMu s) (mS_Mu s) (mMean s) (mCache s).

Definition set_mKernel (v : KernelModel.t KernelObj) (s : State) : State :=
  mk_State (dim_ s) (mRegularizer s) (mMinIndex s) (mMaxIndex s) v (mLearnType s) (mGPXX s) (mGPY s) (mMeanV s) (mFeatM s) (mL s) (mMu s) (mS_Mu s) (mMean s) (mCache s).

Definition set_mLearnType (v : nat) (s : State) : State :=
  mk_State (dim_ s) (mRegularizer s) (mMinIndex s) (mMaxIndex s) (mKernel s) v (mGPXX s) (mGPY s) (mMeanV s) (mFeatM s) (mL s) (mMu s) (mS_Mu s) (mMean s) (mCache s).

Definition set_mGPXX (v : vecOfvec) (s : State) : State :=
  mk_State (dim_ s) (mRegularizer s) (mMinIndex s) (mMaxIndex s) (mKernel s) (mLearnType s) v (mGPY s) (mMeanV s) (mFeatM s) (mL s) (mMu s) (mS_Mu s) (mMean s) (mCache s).

Definition set_mGPY (v : vectord) (s : State) : State :=
  mk_State (dim_ s) (mRegularizer s) (mMinIndex s) (mMaxIndex s) (mKernel s) (mLearnType s) (mGPXX s) v (mMeanV s) (mFeatM s) (mL s) (mMu s) (mS_Mu s) (mMean s) (mCache s).

Definition set_mMeanV (v : vectord) (s : State) : State :=
  mk_State (dim_ s) (mRegularizer s) (mMinIndex s) (mMaxIndex s) (mKernel s) (mLearnType s) (mGPXX s) (mGPY s) v (mFeatM s) (mL s) (mMu s) (mS_Mu s) (mMean s) (mCache s).

Definition set_mFeatM (v : matrixd) (s : State) : State :=
  mk_State (dim_ s) (mRegularizer s) (mMinIndex s) (mMaxIndex s) (mKernel s) (mLearnType s) (mGPXX s) (mGPY s) (mMeanV s) v (mL s) (mMu s) (mS_Mu s) (mMean s) (mCache s).

Definition set_mL (v : matrixd) (s : State) : State :=
  mk_State (dim_ s) (mRegularizer s) (mMinIndex s) (mMaxIndex s) (mKernel s) (mLearnType s) (mGPXX s) (mGPY s) (mMeanV s) (mFeatM s) v (mMu s) (mS_Mu s) (mMean s) (mCache s).

Definition set_mMu (v : vectord) (s : State) : State :=
  mk_State (dim_ s) (mRegularizer s) (mMinIndex s) (mMaxIndex s) (mKernel s) (mLearnType s) (mGPXX s) (mGPY s) (mMeanV s) (mFeatM s) (mL s) v (mS_Mu s) (mMean s) (mCache s).

Definition set_mS_Mu (v : vectord) (s : State) : State :=
  mk_State (dim_ s) (mRegularizer s) (mMinIndex s) (mMaxIndex s) (mKernel s) (mLearnType s) (mGPXX s) (mGPY s) (mMeanV s) (mFeatM s) (mL s) (mMu s) v (mMean s) (mCache s).

Definition set_mMean (v : option MeanObj) (s : State) : State :=
  mk_State (dim_ s) (mRegularizer s) (mMinIndex s) (mMaxIndex s) (mKernel s) (mLearnType s) (mGPXX s) (mGPY s) (mMeanV s) (mFeatM s) (mL s) (mMu s) (mS_Mu s) v (mCache s).

Definition set_mCache (v : Cache) (s : State) : State :=
  mk_State (dim_ s) (mRegularizer s) (mMinIndex s) (mMaxIndex s) (mKernel s) (mLearnType s) (mGPXX s) (mGPY s) (mMeanV s) (mFeatM s) (mL s) (mMu s) (mS_Mu s) (mMean s) v.

End Members.

Arguments mk_State {KernelObj MeanObj Cache}.
Arguments dim_ {KernelObj MeanObj Cache} s.
Arguments mRegularizer {KernelObj MeanObj Cache} s.
Arguments mMinIndex {KernelObj MeanObj Cache} s.
Arguments mMaxIndex {KernelObj MeanObj Cache} s.
Arguments mKernel {KernelObj MeanObj Cache} s.
Arguments mLearnType {KernelObj MeanObj Cache} s.
Arguments mGPXX {KernelObj MeanObj Cache} s.
Arguments mGPY {KernelObj MeanObj Cache} s.
Arguments mMeanV {KernelObj MeanObj Cache} s.
Arguments mFeatM {KernelObj MeanObj Cache} s.
Arguments mL {KernelObj MeanObj Cache} s.
Arguments mMu {KernelObj MeanObj Cache} s.
Arguments mS_Mu {KernelObj MeanObj Cache} s.
Arguments mMean {KernelObj MeanObj Cache} s.
Arguments mCache {KernelObj MeanObj Cache} s.
Arguments set_mMinIndex {KernelObj MeanObj Cache} v s.
Arguments set_mMaxIndex {KernelObj MeanObj Cache} v s.
Arguments set_mKernel {KernelObj MeanObj Cache} v s.
Arguments set_mLearnType {KernelObj MeanObj Cache} v s.
Arguments set_mGPXX {KernelObj MeanObj Cache} v s.
Arguments set_mGPY {KernelObj MeanObj Cache} v s.
Arguments set_mMeanV {KernelObj MeanObj Cache} v s.
Arguments set_mFeatM {KernelObj MeanObj Cache} v s.
Arguments set_mL {KernelObj MeanObj Cache} v s.
Arguments set_mMu {KernelObj MeanObj Cache} v s.
Arguments set_mS_Mu {KernelObj MeanObj Cache} v s.
Arguments set_mMean {KernelObj MeanObj Cache} v s.
Arguments set_mCache {KernelObj MeanObj Cache} v s.

(** A surrogate object: the class [create] instantiated and its members. *)
Record Surrogate (KernelObj MeanObj Cache : Type) : Type := mk_Surrogate {
  cls : string;
  members : State KernelObj MeanObj Cache
}.

Arguments mk_Surrogate {KernelObj MeanObj Cache}.
Arguments cls {KernelObj MeanObj Cache} s.
Arguments members {KernelObj MeanObj Cache} s.

Section Methods.

Context {KernelObj MeanObj Cache : Type}.
Context {kops : KernelOps KernelObj} {mops : MeanOps MeanObj}.

Local Abbreviation State := (State KernelObj MeanObj Cache).

(** [utils::parseExpresion] and the bound on the nesting of a kernel
    expression, for the kernel factory. *)
Variable parseExpresion : string -> string * string * string.
Variable fuel : nat.

(** [utils::cholesky_decompose(K, L)] and [utils::cholesky_add_row(L, v)]
    of cholesky.hpp, which is not among the sources: the status returned
    and the factor [L] afterwards. *)
Variable cholesky_decompose : matrixd -> matrixd -> Z * matrixd.
Variable cholesky_add_row : matrixd -> vectord -> Z * matrixd.

(** Modelled from the spec: the virtual [precomputePrediction] and
    [updateKernelParameters], defined by the derived classes, which are
    not among the sources.  The first "recomputes the predictive cache",
    the second learns the kernel hyperparameters; each returns an error
    code. *)
Variable precomputePrediction_impl : State -> Z * Cache.
Variable updateKernelParameters_impl : State -> Z * KernelModel.t KernelObj.

(** The members a derived-class constructor sets up, and their content
    while only the base class is constructed. *)
Variable derived_init : string -> nat -> bopt_params -> Cache.
Variable cache0 : Cache.

(** A member function runs on the process's world and on [this]. *)
Record Sys : Type := mk_Sys { world : World; this : State }.

Definition Meth (A : Type) : Type := Proc Sys A.

Definition in_world {A} (m : Proc World A) : Meth A :=
  fun sy => let (o, w) := m (world sy) in (o, mk_Sys w (this sy)).

Definition self : Meth State := fun sy => (Returned (this sy), sy).

Definition mutate (f : State -> State) : Meth unit :=
  fun sy => (Returned tt, mk_Sys (world sy) (f (this sy))).

(** A member function called on the object [s]. *)
Definition on_object {A} (s : State) (m : Meth A) : Proc World (A * State) :=
  fun w =>
    match m (mk_Sys w s) with
    | (Returned a, sy) => (Returned (a, this sy), world sy)
    | (Thrown what, sy) => (Thrown what, world sy)
    | (Exited, sy) => (Exited, world sy)
    | (Aborted, sy) => (Aborted, world sy)
    end.

(** Whatever its outcome, [m] leaves a state related by [Rel] to the one
    it started in. *)
Definition keeps (Rel : State -> State -> Prop) {A} (m : Meth A) : Prop :=
  forall sy, wp m (fun _ sy' => Rel (this sy) (this sy')) sy.

(** Dereferencing [mKernel]'s kernel and [mMean]. *)
Definition the_kernel : Meth (vectord -> vectord -> R) :=
  (s <- self ;;
   match KernelModel.mKernel (mKernel s) with
   | None => abort
   | Some k => ret (evaluate k)
   end)%proc.

Definition the_mean : Meth MeanObj :=
  (s <- self ;;
   match mMean s with
   | None => abort
   | Some m => ret m
   end)%proc.

(** Modelled from the spec: [checkBoundsY] (declared in
    nonparametricprocess.hpp, which is not among the sources); "observed
    bounds y_min, y_max and their indices; maintained under append".
    [check_bounds] is the comparison of observation [i] with the two
    bounds and the update of their indices. *)
Definition check_bounds (i : nat) (s : State) : State :=
  if Rlt_dec (ublas.at_ (mGPY s) i) (ublas.at_ (mGPY s) (mMinIndex s))
  then set_mMinIndex i s
  else if Rlt_dec (ublas.at_ (mGPY s) (mMaxIndex s)) (ublas.at_ (mGPY s) i)
  then set_mMaxIndex i s
  else s.

(** [v(i)] is a read inside the vector. *)
Definition readable (v : vectord) (i : nat) : bool := (i <? length v)%nat.

(** The reads of [mGPY] that the comparison makes: [mGPY(mMinIndex)] and
    [mGPY(i)] always, [mGPY(mMaxIndex)] when the first test fails. *)
Definition bounds_readable (i : nat) (s : State) : bool :=
  readable (mGPY s) (mMinIndex s) && readable (mGPY s) i
  && (if Rlt_dec (ublas.at_ (mGPY s) i) (ublas.at_ (mGPY s) (mMinIndex s))
      then true
      else readable (mGPY s) (mMaxIndex s)).

(** A read of [mGPY] past its end is out of range and stops the call. *)
Definition checkBoundsY (i : nat) : Meth unit :=
  (s <- self ;;
   assert_ (bounds_readable i s) ;;
   mutate (check_bounds i))%proc.

(** The sample points, resp. the observations, of [s] are still there in
    [s'], at their indices. *)
Definition points_kept (s s' : State) : Prop :=
  exists t, mGPXX s' = mGPXX s ++ t.

Definition observations_kept (s s' : State) : Prop :=
  exists t, mGPY s' = mGPY s ++ t.

Definition samples_kept (s s' : State) : Prop :=
  points_kept s s' /\ observations_kept s s'.

(** Modelled from the spec: [setLearnType] (declared in
    nonparametricprocess.hpp, which is not among the sources); it records
    the learning type of the configuration. *)
Definition setLearnType (l_type : nat) : Meth unit :=
  mutate (set_mLearnType l_type).

(** [row(x, i)]. *)
Definition row (x : matrixd) (i : nat) : vectord :=
  map (coef x i) (seq 0 (size2 x)).

(** [NonParametricProcess::setSamples]. *)
Definition setSamples (x : matrixd) (y : vectord) : Meth unit :=
  (mutate (set_mGPY y) ;;
   for_each (seq 0 (size1 x))
     (fun i =>
        mutate (fun s => set_mGPXX (mGPXX s ++ [row x i]) s) ;;
        checkBoundsY i) ;;
   m <- the_mean ;;
   mutate (fun s => set_mMeanV (getAllMeans m (mGPXX s)) s) ;;
   mutate (fun s => set_mFeatM (getAllFeatures m (mGPXX s)) s))%proc.

(** [NonParametricProcess::addSample]. *)
Definition addSample (x : vectord) (y : R) : Meth unit :=
  (mutate (fun s => set_mGPXX (mGPXX s ++ [x]) s) ;;
   mutate (fun s =>
             let s1 := set_mGPY (ublas.resize (length (mGPY s) + 1) (mGPY s)) s in
             set_mGPY (ublas.assign (length (mGPY s1) - 1) y (mGPY s1)) s1) ;;
   s <- self ;;
   checkBoundsY (length (mGPY s) - 1) ;;
   mutate (fun s =>
             set_mMeanV (ublas.resize (length (mMeanV s) + 1) (mMeanV s)) s) ;;
   m <- the_mean ;;
   mutate (fun s =>
             set_mMeanV (ublas.assign (length (mMeanV s) - 1) (getMean m x)
                           (mMeanV s)) s) ;;
   let feat := getFeatures m x in
   mutate (fun s =>
             set_mFeatM (ublas.mresize (length feat) (size2 (mFeatM s) + 1)
                           (mFeatM s)) s) ;;
   mutate (fun s =>
             set_mFeatM (ublas.set_column (size2 (mFeatM s) - 1) feat
                           (mFeatM s)) s))%proc.

(** [NonParametricProcess::getSample]: the point, through the reference
    argument, and the observation. *)
Definition getSample (index : nat) : Meth (vectord * R) :=
  (s <- self ;;
   match nth_error (mGPXX s) index, nth_error (mGPY s) index with
   | Some x, Some y => ret (x, y)
   | _, _ => abort
   end)%proc.

(** [NonParametricProcess::getLastSample]. *)
Definition getLastSample : Meth (vectord * R) :=
  (s <- self ;;
   let last := (length (mGPY s) - 1)%nat in
   match nth_error (mGPXX s) last, nth_error (mGPY s) last with
   | Some x, Some y => ret (x, y)
   | _, _ => abort
   end)%proc.

(** [NonParametricProcess::setMean(muv, smu, m_name, dim)]. *)
Definition setMean (muv smu : vectord) (m_name : string) (dim : nat)
  : Meth Z :=
  (m <- in_world (mean_create m_name dim) ;;
   mutate (set_mMean m) ;;
   (if String.eqb "mZero" m_name then
      mutate (set_mMu (ublas.zvectord 1)) ;;
      mutate (set_mS_Mu (ublas.svectord 1 1e-10))
    else if String.eqb "mOne" m_name then
      mutate (set_mMu (ublas.svectord 1 1)) ;;
      mutate (set_mS_Mu (ublas.svectord 1 1e-10))
    else
      mutate (set_mMu muv) ;;
      mutate (set_mS_Mu smu)) ;;
   s <- self ;;
   match mMean s with
   | None => ret (-1)%Z
   | Some mo =>
       let (e, mo') := setParameters mo (mMu s) in
       mutate (set_mMean (Some mo')) ;;
       ret e
   end)%proc.

(** [NonParametricProcess::setMean(mean_parameters, dim)]. *)
Definition setMean_params (mean : mean_parameters.t) (dim : nat) : Meth Z :=
  let n_mu := mean_parameters.n_coef mean in
  let vmu := array2vector (mean_parameters.coef_mean mean) n_mu in
  let smu := array2vector (mean_parameters.coef_std mean) n_mu in
  setMean vmu smu (mean_parameters.name mean) dim.

(** [NonParametricProcess::addNewPointToCholesky]. *)
Definition addNewPointToCholesky (correlation : vectord)
    (selfcorrelation : R) : Meth Z :=
  (let newK := append correlation selfcorrelation in
   mutate (fun s => set_mL (snd (cholesky_add_row (mL s) newK)) s) ;;
   ret 0%Z)%proc.

(** [NonParametricProcess::computeCorrMatrix(corrMatrix)]: the matrix
    as filled in. *)
Definition computeCorrMatrix (corrMatrix : matrixd) : Meth matrixd :=
  (k <- the_kernel ;;
   s <- self ;;
   KernelModel.computeCorrMatrix k (mGPXX s) corrMatrix (mRegularizer s))%proc.

(** [NonParametricProcess::computeCorrMatrix()], the overload that
    returns the matrix. *)
Definition computeCorrMatrix_new : Meth matrixd :=
  (s <- self ;;
   let nSamples := length (mGPXX s) in
   computeCorrMatrix (ublas.fresh nSamples nSamples))%proc.

(** [NonParametricProcess::computeDerivativeCorrMatrix]. *)
Definition computeDerivativeCorrMatrix (dth_index : nat) : Meth matrixd :=
  (s <- self ;;
   let nSamples := length (mGPXX s) in
   match KernelModel.mKernel (mKernel s) with
   | None => abort
   | Some k =>
       KernelModel.computeDerivativeCorrMatrix (gradient k) (mGPXX s)
         (ublas.fresh nSamples nSamples) dth_index
   end)%proc.

(** [NonParametricProcess::computeCrossCorrelation] and
    [NonParametricProcess::computeSelfCorrelation]. *)
Definition computeCrossCorrelation (query : vectord) : Meth vectord :=
  (k <- the_kernel ;;
   s <- self ;;
   ret (KernelModel.computeCrossCorrelation k (mGPXX s) query))%proc.

Definition computeSelfCorrelation (query : vectord) : Meth R :=
  (k <- the_kernel ;;
   ret (KernelModel.computeSelfCorrelation k query))%proc.

(** [NonParametricProcess::computeCholeskyCorrelation]. *)
Definition computeCholeskyCorrelation : Meth Z :=
  (s <- self ;;
   let nSamples := length (mGPXX s) in
   mutate (fun s => set_mL (ublas.mresize nSamples nSamples (mL s)) s) ;;
   K <- computeCorrMatrix (ublas.fresh nSamples nSamples) ;;
   s <- self ;;
   let (error, L) := cholesky_decompose K (mL s) in
   mutate (set_mL L) ;;
   ret error)%proc.

Definition precomputePrediction : Meth Z :=
  (s <- self ;;
   let (error, c) := precomputePrediction_impl s in
   mutate (set_mCache c) ;;
   ret error)%proc.

Definition updateKernelParameters : Meth Z :=
  (s <- self ;;
   let (error, km) := updateKernelParameters_impl s in
   mutate (set_mKernel km) ;;
   ret error)%proc.

(** The matrix [computeCholeskyCorrelation] hands to
    [cholesky_decompose]: the correlation matrix of the samples with the
    nugget on its diagonal. *)
Definition regularised_corr_matrix (k : vectord -> vectord -> R) (s : State)
  : matrixd :=
  let nSamples := length (mGPXX s) in
  KernelModel.rows_loop k (mGPXX s) (mRegularizer s) nSamples
    (ublas.fresh nSamples nSamples).

(** The status [cholesky_decompose] reports for that matrix; [None] when
    there is no kernel. *)
Definition decomposition_status (s : State) : option Z :=
  match KernelModel.mKernel (mKernel s) with
  | None => None
  | Some k =>
      let nSamples := length (mGPXX s) in
      Some (fst (cholesky_decompose
                   (regularised_corr_matrix (evaluate k) s)
                   (ublas.mresize nSamples nSamples (mL s))))
  end.

(** The state [updateKernelParameters] leaves for [precomputeSurrogate]. *)
Definition after_kernel_update (s : State) : State :=
  set_mKernel (snd (updateKernelParameters_impl s)) s.

(** [NonParametricProcess::precomputeSurrogate]. *)
Definition precomputeSurrogate : Meth Z :=
  (error <- computeCholeskyCorrelation ;;
   (if (error =? 0)%Z then ret tt
    else
      in_world (FILE_LOG "Error computing the correlation matrix") ;;
      exit_) ;;
   error <- precomputePrediction ;;
   (if (error =? 0)%Z then ret tt
    else
      in_world (FILE_LOG "Error pre-computing the prediction distribution") ;;
      exit_) ;;
   ret error)%proc.

(** [NonParametricProcess::fitSurrogateModel()]. *)
Definition fitSurrogateModel : Meth Z :=
  (error <- updateKernelParameters ;;
   error' <- precomputeSurrogate ;;
   ret (error + error')%Z)%proc.

(** [assert( mGPXX[1].size() == Xnew.size() )]. *)
Definition assert_dimension (Xnew : vectord) : Meth unit :=
  (s <- self ;;
   match nth_error (mGPXX s) 1 with
   | None => abort
   | Some x1 => assert_ (length x1 =? length Xnew)%nat
   end)%proc.

(** The row [updateSurrogateModel] hands to [cholesky_add_row] for the
    new point: its correlation with every sample, then its regularised
    self-correlation. *)
Definition new_row (k : KernelObj) (s : State) (Xnew : vectord) : vectord :=
  append (KernelModel.computeCrossCorrelation (evaluate k) (mGPXX s) Xnew)
    (KernelModel.computeSelfCorrelation (evaluate k) Xnew + mRegularizer s).

(** [NonParametricProcess::updateSurrogateModel]. *)
Definition updateSurrogateModel (Xnew : vectord) (Ynew : R) : Meth Z :=
  (assert_dimension Xnew ;;
   newK <- computeCrossCorrelation Xnew ;;
   selfCorr <- computeSelfCorrelation Xnew ;;
   s <- self ;;
   let selfCorrelation := selfCorr + mRegularizer s in
   addSample Xnew Ynew ;;
   addNewPointToCholesky newK selfCorrelation ;;
   error <- precomputePrediction ;;
   (if (error <? 0)%Z then
      in_world (FILE_LOG "Error pre-computing the prediction distribution") ;;
      exit_
    else ret tt) ;;
   ret 0%Z)%proc.

(** [NonParametricProcess::fitSurrogateModel(Xnew, Ynew)]. *)
Definition fitSurrogateModel_sample (Xnew : vectord) (Ynew : R) : Meth Z :=
  (assert_dimension Xnew ;;
   addSample Xnew Ynew ;;
   fitSurrogateModel)%proc.

(** The member functions of the source file as operations on a
    surrogate; [exec] runs one and drops what it returns. *)
Inductive Op : Type :=
| OpSetSamples (x : matrixd) (y : vectord)
| OpAddSample (x : vectord) (y : R)
| OpGetSample (index : nat)
| OpGetLastSample
| OpSetMean (muv smu : vectord) (m_name : string) (dim : nat)
| OpSetMeanParams (mean : mean_parameters.t) (dim : nat)
| OpAddNewPointToCholesky (correlation : vectord) (selfcorrelation : R)
| OpComputeCholeskyCorrelation
| OpComputeCorrMatrix (corrMatrix : matrixd)
| OpComputeCorrMatrixNew
| OpComputeDerivativeCorrMatrix (dth_index : nat)
| OpComputeCrossCorrelation (query : vectord)
| OpComputeSelfCorrelation (query : vectord)
| OpPrecomputeSurrogate
| OpFitSurrogateModel
| OpUpdateSurrogateModel (Xnew : vectord) (Ynew : R)
| OpFitSurrogateModelSample (Xnew : vectord) (Ynew : R).

Definition is_setSamples (op : Op) : bool :=
  match op with
  | OpSetSamples _ _ => true
  | _ => false
  end.

Definition exec (op : Op) : Meth unit :=
  match op with
  | OpSetSamples x y => setSamples x y
  | OpAddSample x y => addSample x y
  | OpGetSample index => (getSample index ;; ret tt)%proc
  | OpGetLastSample => (getLastSample ;; ret tt)%proc
  | OpSetMean muv smu m_name dim => (setMean muv smu m_name dim ;; ret tt)%proc
  | OpSetMeanParams mean dim => (setMean_params mean dim ;; ret tt)%proc
  | OpAddNewPointToCholesky c sc =>
      (addNewPointToCholesky c sc ;; ret tt)%proc
  | OpComputeCholeskyCorrelation => (computeCholeskyCorrelation ;; ret tt)%proc
  | OpComputeCorrMatrix M => (computeCorrMatrix M ;; ret tt)%proc
  | OpComputeCorrMatrixNew => (computeCorrMatrix_new ;; ret tt)%proc
  | OpComputeDerivativeCorrMatrix dth_index =>
      (computeDerivativeCorrMatrix dth_index ;; ret tt)%proc
  | OpComputeCrossCorrelation query =>
      (computeCrossCorrelation query ;; ret tt)%proc
  | OpComputeSelfCorrelation query =>
      (computeSelfCorrelation query ;; ret tt)%proc
  | OpPrecomputeSurrogate => (precomputeSurrogate ;; ret tt)%proc
  | OpFitSurrogateModel => (fitSurrogateModel ;; ret tt)%proc
  | OpUpdateSurrogateModel Xnew Ynew =>
      (updateSurrogateModel Xnew Ynew ;; ret tt)%proc
  | OpFitSurrogateModelSample Xnew Ynew =>
      (fitSurrogateModel_sample Xnew Ynew ;; ret tt)%proc
  end.

(** [NonParametricProcess::NonParametricProcess(dim, parameters)]: the
    member initialisers, then the body. *)
Definition construct (dim : nat) (parameters : bopt_params)
  : Proc World State :=
  (km <- KernelModel.construct parseExpresion fuel dim parameters ;;
   let s0 := mk_State dim (noise parameters) 0 0 km 0 [] [] []
               (ublas.fresh 0 0) (ublas.fresh 0 0) [] [] None cache0 in
   r <- on_object s0
          (setLearnType (l_type parameters) ;;
           errorM <- setMean_params (mean parameters) dim ;;
           if (errorM =? 0)%Z then ret tt
           else
             in_world (FILE_LOG "Error initializing nonparametric process.") ;;
             exit_) ;;
   ret (snd r))%proc.

(** The surrogate names [create] knows. *)
Definition surrogate_names : list string :=
  [ "sGaussianProcess"; "sGaussianProcessML"; "sGaussianProcessNormal";
    "sStudentTProcessJef"; "sStudentTProcessNIG" ]%string.

Definition known_surrogate (name : string) : bool :=
  existsb (String.eqb name) surrogate_names.

(** [new C(dim, parameters)] for a derived class [C]: the base-class
    constructor, the derived members, and the object on the heap.
    [live_objects] says which objects are allocated, not in which order:
    the memory of [C] is obtained before its constructor runs and is
    released again when the constructor throws, so [C] is among the live
    objects exactly when the constructor has returned. *)
Definition new_surrogate (C : string) (dim : nat) (parameters : bopt_params)
  : Proc World (option (Surrogate KernelObj MeanObj Cache)) :=
  (s <- construct dim parameters ;;
   new_ C ;;
   ret (Some (mk_Surrogate C
                (set_mCache (derived_init C dim parameters) s))))%proc.

(** [NonParametricProcess::create]; [None] is the null pointer. *)
Definition create (dim : nat) (parameters : bopt_params)
  : Proc World (option (Surrogate KernelObj MeanObj Cache)) :=
  let name := surr_name parameters in
  if String.eqb name "sGaussianProcess" then
    new_surrogate "GaussianProcess" dim parameters
  else if String.eqb name "sGaussianProcessML" then
    new_surrogate "GaussianProcessML" dim parameters
  else if String.eqb name "sGaussianProcessNormal" then
    new_surrogate "GaussianProcessNormal" dim parameters
  else if String.eqb name "sStudentTProcessJef" then
    new_surrogate "StudentTProcessNIG" dim parameters
  else if String.eqb name "sStudentTProcessNIG" then
    new_surrogate "StudentTProcessNIG" dim parameters
  else
    (FILE_LOG "Error: surrogate function not supported." ;;
     ret None)%proc.

End Methods.

End NonParametricProcess.

(* ------------------------------------------------------------------ *)
(** ** The optimization loop and its persisted state

    The driver of the save/restore example calls [initializeOptimization],
    [stepOptimization], [saveOptimization], [restoreOptimization],
    [getCurrentIter] and [getFinalResult]; their class and [BOptState] are
    not among the sources. *)

Module BOpt.

Section Loop.

(** The state of the random number generator, the Cholesky factor
    together with the predictive cache, and the state of the criterion. *)
Context {Rng Factor Crit : Type}.

(** The collaborators of the loop: the seeding of the generator, the
    objective, the initial design, the surrogate's [fit] and [update],
    and the hyperparameter learner.  Each is deterministic in its
    arguments. *)
Variable seed_rng : Z -> Rng.
Variable evaluateSample : vectord -> R.
Variable initial_design : bopt_params -> nat -> Rng -> vecOfvec * Rng.
Variable fit : bopt_params -> vectord -> vecOfvec -> vectord -> Factor.
Variable update : bopt_params -> vectord -> Factor -> vectord -> R -> Factor.
Variable relearn :
  bopt_params -> vectord -> vecOfvec -> vectord -> Rng -> vectord * Rng.

(** Modelled from the spec: the criterion, which the loop owns;
    "Criterion state: for Hedge: per-arm cumulative gains g_j, last-chosen
    arm, random draws.  For annealed criteria: iteration counter".
    [crit_init] is the state of a criterion just constructed from the
    configuration; [nextPoint] is the candidate the criterion proposes
    through the inner optimizer, with its state and the generator
    afterwards; [crit_update] is what the criterion records once the
    surrogate has been updated with the new sample. *)
Variable crit_init : bopt_params -> Crit.
Variable nextPoint :
  bopt_params -> nat -> vectord -> vecOfvec -> vectord -> Factor -> nat ->
  Crit -> Rng -> vectord * Crit * Rng.
Variable crit_update :
  bopt_params -> vectord -> vecOfvec -> vectord -> Factor -> Crit -> Crit.
Variable updateStuck : bopt_params -> nat -> R -> R -> nat.

Definition format_version : nat := 1.

(** Modelled from the spec: [BOptState] (bopt_state.hpp is not among the
    sources); "mCurrentIter, mCounterStuck, mYPrev, configuration struct,
    kernel hyperparameters (flat vector), mean prior state, sample matrix
    X and vector y, RNG state, a format version integer".  Neither the
    Cholesky factor nor the state of the criterion is among them. *)
Record BOptState : Type := mk_BOptState {
  mCurrentIter : nat;
  mCounterStuck : nat;
  mYPrev : R;
  mParameters : bopt_params;
  mKernelHP : vectord;
  mMeanPrior : vectord * vectord;
  mX : vecOfvec;
  mY : vectord;
  mRngState : Rng;
  mVersion : nat
}.

(** Modelled from the spec: the optimizer object; "iteration index,
    current best, RNG state, initial-design points, and the full surrogate
    snapshot", and "the BO loop exclusively owns the surrogate and
    criterion".  The surrogate owns the samples, the hyperparameters and
    the factor; the best point is read off the samples. *)
Record Optimizer : Type := mk_Optimizer {
  dim : nat;
  params : bopt_params;
  iter : nat;
  counterStuck : nat;
  yPrev : R;
  theta : vectord;
  meanPrior : vectord * vectord;
  XX : vecOfvec;
  YY : vectord;
  rng : Rng;
  factor : option Factor;         (* None until the surrogate is fitted *)
  crit : Crit                     (* the state of the criterion *)
}.

(** The optimizer [o] with the criterion in the state [c]. *)
Definition with_criterion (c : Crit) (o : Optimizer) : Optimizer :=
  mk_Optimizer (dim o) (params o) (iter o) (counterStuck o) (yPrev o)
    (theta o) (meanPrior o) (XX o) (YY o) (rng o) (factor o) c.

(** Modelled from the spec: construction from a configuration; the
    generator is seeded with [random_seed], the hyperparameters and the
    mean prior are those of the configuration, the criterion is the one
    the configuration names, just constructed. *)
Definition construct (d : nat) (p : bopt_params) : Optimizer :=
  mk_Optimizer d p 0 0 0
    (array2vector (kernel_parameters.hp_mean (kernel p))
       (kernel_parameters.n_hp (kernel p)))
    (array2vector (mean_parameters.coef_mean (mean p))
       (mean_parameters.n_coef (mean p)),
     array2vector (mean_parameters.coef_std (mean p))
       (mean_parameters.n_coef (mean p)))
    [] [] (seed_rng (random_seed p)) None (crit_init p).

(** Modelled from the spec: "initialize_optimization() generates initial
    design, evaluates f on it, fits surrogate". *)
Definition initializeOptimization (o : Optimizer) : Optimizer :=
  let (X0, r) := initial_design (params o) (dim o) (rng o) in
  let Y0 := map evaluateSample X0 in
  mk_Optimizer (dim o) (params o) 0 0 0 (theta o) (meanPrior o) X0 Y0 r
    (Some (fit (params o) (theta o) X0 Y0)) (crit o).

(** Relearning is due "every n_iter_relearn iterations; 0 = never". *)
Definition relearn_due (p : bopt_params) (i : nat) : bool :=
  negb (n_iter_relearn p =? 0)%nat
  && (Nat.modulo (S i) (n_iter_relearn p) =? 0)%nat.

(** Modelled from the spec: one iteration; "(optionally) relearn
    hyperparameters and refactor; criterion proposes candidate; evaluate
    y = f(x); surrogate update(x, y); update best, iteration counter";
    a portfolio then updates its gains. *)
Definition stepOptimization (o : Optimizer) : Optimizer :=
  match factor o with
  | None => o
  | Some L =>
      let p := params o in
      let '(th, r1, L1) :=
        if relearn_due p (iter o) then
          let (th', r') := relearn p (theta o) (XX o) (YY o) (rng o) in
          (th', r', fit p th' (XX o) (YY o))
        else (theta o, rng o, L) in
      let '(x, c1, r2) :=
        nextPoint p (dim o) th (XX o) (YY o) L1 (iter o) (crit o) r1 in
      let y := evaluateSample x in
      let L2 := update p th L1 x y in
      mk_Optimizer (dim o) p (S (iter o))
        (updateStuck p (counterStuck o) (yPrev o) y) y
        th (meanPrior o) (XX o ++ [x]) (YY o ++ [y]) r2
        (Some L2)
        (crit_update p th (XX o ++ [x]) (YY o ++ [y]) L2 c1)
  end.

Definition getCurrentIter (o : Optimizer) : nat := iter o.

(** [for (size_t i = o.getCurrentIter(); i < stopAt; i++)
    o.stepOptimization();] of the driver. *)
Definition run_until (stopAt : nat) (o : Optimizer) : Optimizer :=
  for_loop (stopAt - getCurrentIter o) (fun _ => stepOptimization) o.

(** Modelled from the spec: [saveOptimization]; a value snapshot of the
    persisted fields. *)
Definition saveOptimization (o : Optimizer) : BOptState :=
  mk_BOptState (iter o) (counterStuck o) (yPrev o) (params o) (theta o)
    (meanPrior o) (XX o) (YY o) (rng o) format_version.

(** Modelled from the spec: [restoreOptimization]; "restore requested on
    an incompatible state (version or dimension mismatch); surfaced before
    any mutation", otherwise the persisted fields are installed and the
    surrogate is fitted to the restored samples.  The persisted state
    holds nothing of the criterion, which stays as the optimizer restored
    into has it. *)
Definition restoreOptimization (st : BOptState) (o : Optimizer)
  : option Optimizer :=
  if (mVersion st =? format_version)%nat
     && forallb (fun x => (length x =? dim o)%nat) (mX st)
     && (length (mX st) =? length (mY st))%nat
  then
    Some (mk_Optimizer (dim o) (mParameters st) (mCurrentIter st)
            (mCounterStuck st) (mYPrev st) (mKernelHP st) (mMeanPrior st)
            (mX st) (mY st) (mRngState st)
            (Some (fit (mParameters st) (mKernelHP st) (mX st) (mY st)))
            (crit o))
  else None.

(** A valid optimizer state for dimension [d] and configuration [par]:
    the surrogate is fitted, its factor is the factor of its samples under
    its hyperparameters, and the samples are [d]-dimensional points with
    one observation each. *)
Definition valid_state (d : nat) (par : bopt_params) (o : Optimizer) : Prop :=
  dim o = d
  /\ params o = par
  /\ factor o = Some (fit (params o) (theta o) (XX o) (YY o))
  /\ Forall (fun x => length x = d) (XX o)
  /\ length (XX o) = length (YY o).

(** Exact arithmetic: the rank-one append yields the factor a refit
    computes, the factor of a sample set being unique. *)
Definition update_agrees_with_fit : Prop :=
  forall p th X Y x y,
    update p th (fit p th X Y) x y = fit p th (X ++ [x]) (Y ++ [y]).

(** The initial design and the inner optimizer propose points of the
    dimension they are asked for. *)
Definition proposals_have_dimension : Prop :=
  (forall p d r, Forall (fun x => length x = d) (fst (initial_design p d r)))
  /\ (forall p d th X Y L i c r,
        length (fst (fst (nextPoint p d th X Y L i c r))) = d).

(** A criterion without state of its own: the candidate it proposes and
    the draws it makes do not depend on what it has recorded. *)
Definition criterion_stateless : Prop :=
  forall p d th X Y L i c c' r,
    fst (fst (nextPoint p d th X Y L i c r))
    = fst (fst (nextPoint p d th X Y L i c' r))
    /\ snd (nextPoint p d th X Y L i c r)
       = snd (nextPoint p d th X Y L i c' r).

(** The best observation so far and where it was made. *)
Fixpoint best_sample (X : vecOfvec) (Y : vectord) : option (vectord * R) :=
  match X, Y with
  | x :: X', y :: Y' =>
      match best_sample X' Y' with
      | Some (x', y') => if Rlt_dec y' y then Some (x', y') else Some (x, y)
      | None => Some (x, y)
      end
  | _, _ => None
  end.

(** Modelled from the spec: [getFinalResult], "the best observed input and
    value". *)
Definition getFinalResult (o : Optimizer) : option (vectord * R) :=
  best_sample (XX o) (YY o).

(** The driver of the save/restore example, for a stop at iteration
    [stopAt] of [n] and a configuration [par] used for both optimizers:
    the result of the restored optimizer, if the restore succeeds. *)
Definition resumed_run (d : nat) (par : bopt_params) (stopAt n : nat)
  : option (option (vectord * R)) :=
  let o1 := initializeOptimization (construct d par) in
  let o1 := run_until stopAt o1 in
  let state := saveOptimization o1 in
  match restoreOptimization state (construct d par) with
  | Some o2 => Some (getFinalResult (run_until n o2))
  | None => None
  end.

(** A single run of [n] iterations. *)
Definition straight_run (d : nat) (par : bopt_params) (n : nat)
  : option (vectord * R) :=
  getFinalResult (run_until n (initializeOptimization (construct d par))).

End Loop.

Section Hedge.

Context {Rng Factor : Type}.

(** Modelled from the spec: the Hedge portfolio (criteria are not among
    the sources); "holds an arm set {c_j}.  At iteration t: 1. Each arm
    proposes x_j = argmax c_j(x) via the inner optimizer.  2. Choose arm
    j* with probability exp(eta g_j)/Z.  3. Evaluate f at x_j*; update
    surrogate.  4. For every arm j, g_j <- g_j + r(x_j) where r is a
    normalised reward".  The arms, the rate [eta], the uniform draw and
    the reward are those of the portfolio at hand. *)
Variable arms :
  list (bopt_params -> nat -> vectord -> vecOfvec -> vectord -> Factor ->
        nat -> vectord).
Variable eta : R.
Variable draw : Rng -> R * Rng.
Variable reward :
  bopt_params -> vectord -> vecOfvec -> vectord -> Factor -> vectord -> R.

(** "per-arm cumulative gains g_j, last-chosen arm", and the proposals of
    the arms, which the rewards are computed for. *)
Record HedgeState : Type := mk_HedgeState {
  gains : list R;
  chosen : nat;
  proposed : vecOfvec
}.

(** The first arm whose weight, added to those before it, exceeds [t]. *)
Fixpoint pick (weights : list R) (t : R) : nat :=
  match weights with
  | [] => O
  | wj :: weights' =>
      if Rlt_dec t wj then O else S (pick weights' (t - wj))
  end.

Definition total (weights : list R) : R := fold_right Rplus 0 weights.

(** The arm chosen for the uniform draw [u]: arm [j] with probability
    [exp (eta g_j) / Z]. *)
Definition choose_arm (g : list R) (u : R) : nat :=
  let weights := map (fun gj => exp (eta * gj)) g in
  pick weights (u * total weights).

Definition hedge_init (p : bopt_params) : HedgeState :=
  mk_HedgeState (map (fun _ => 0) arms) 0 [].

Definition hedge_nextPoint (p : bopt_params) (d : nat) (th : vectord)
    (X : vecOfvec) (Y : vectord) (L : Factor) (i : nat) (c : HedgeState)
    (r : Rng) : vectord * HedgeState * Rng :=
  let xs := map (fun arm => arm p d th X Y L i) arms in
  let (u, r') := draw r in
  let j := choose_arm (gains c) u in
  (nth j xs [], mk_HedgeState (gains c) j xs, r').

Fixpoint add_rewards (g : list R) (rs : list R) : list R :=
  match g, rs with
  | gj :: g', rj :: rs' => (gj + rj) :: add_rewards g' rs'
  | _, _ => g
  end.

Definition hedge_update (p : bopt_params) (th : vectord) (X : vecOfvec)
    (Y : vectord) (L : Factor) (c : HedgeState) : HedgeState :=
  mk_HedgeState
    (add_rewards (gains c) (map (reward p th X Y L) (proposed c)))
    (chosen c) (proposed c).

End Hedge.

End BOpt.

(* ------------------------------------------------------------------ *)
(** ** The Cholesky primitives *)

Module cholesky.

Fixpoint sum_upto (n : nat) (f : nat -> R) : R :=
  match n with
  | O => 0
  | S n' => sum_upto n' f + f n'
  end.

(** The off-diagonal entries of the appended row, left to right. *)
Definition append_entries (L : matrixd) (v : vectord) : matrixd :=
  let n := size1 L in
  for_loop n
    (fun j M =>
       ublas.massign n j
         ((ublas.at_ v j - sum_upto j (fun k => coef M j k * coef M n k))
          / coef M j j) M)
    (ublas.mresize (S n) (S n) L).

(** The pivot of the appended row: its diagonal entry squared. *)
Definition pivot (L : matrixd) (v : vectord) : R :=
  let n := size1 L in
  let M := append_entries L v in
  ublas.at_ v n - sum_upto n (fun k => coef M n k * coef M n k).

(** Modelled from the spec: [cholesky_add_row] (cholesky.hpp is not among
    the sources); "append one row/column to L in O(n^2) without
    refactoring, maintaining positive-diagonal invariant; on loss of
    positive-definiteness (diagonal <= 0 after append), report failure". *)
Definition cholesky_add_row (L : matrixd) (v : vectord) : Z * matrixd :=
  let n := size1 L in
  let M := append_entries L v in
  let d := pivot L v in
  if Rle_dec d 0 then (1%Z, M)
  else (0%Z, ublas.massign n n (sqrt d) M).

(** The factor of the leading [n] rows of [K], row after row, and the
    status: the number of the first row whose pivot is not positive. *)
Fixpoint decompose_rows (K : matrixd) (n : nat) : Z * matrixd :=
  match n with
  | O => (0%Z, ublas.fresh 0 0)
  | S i =>
      let (e, L) := decompose_rows K i in
      if (e =? 0)%Z then
        let (e', L') := cholesky_add_row L (map (coef K i) (seq 0 (S i))) in
        if (e' =? 0)%Z then (0%Z, L') else (Z.of_nat (S i), L')
      else (e, L)
  end.

(** Modelled from the spec: [cholesky_decompose] (cholesky.hpp is not among
    the sources); the lower-triangular factor with strictly positive
    diagonal, "returns failure on non-positive-definite" input. *)
Definition cholesky_decompose (K L : matrixd) : Z * matrixd :=
  let (e, L') := decompose_rows K (size1 K) in
  (e, ublas.mresize (size1 L) (size2 L) L').

End cholesky.

(** The quadratic form [v' M v] and positive definiteness. *)
Definition quadratic_form (M : matrixd) (v : vectord) : R :=
  cholesky.sum_upto (size1 M)
    (fun i => cholesky.sum_upto (size2 M)
                (fun j => ublas.at_ v i * coef M i j * ublas.at_ v j)).

Definition positive_definite (M : matrixd) : Prop :=
  forall v, length v = size1 M -> (exists i, ublas.at_ v i <> 0) ->
            0 < quadratic_form M v.

(* ------------------------------------------------------------------ *)
(** ** A concrete surrogate: the header's kernels with a constant mean *)

Module Concrete.

(** The kernel classes of kernel_functors.hpp behind the factory's
    interface; a fresh object has unit length-scales. *)
Definition kernel_of_class (C : string) (dim : nat) : Kernel :=
  if String.eqb C "MaternIso1" then KMaternIso1 1
  else if String.eqb C "MaternIso3" then KMaternIso3 1
  else if String.eqb C "MaternIso5" then KMaternIso5 1
  else if String.eqb C "SEArd" then KSEArd (repeat 1 dim)
  else KSEIso 1.

Definition setScale (k : Kernel) (theta : vectord) : Kernel :=
  match k with
  | KMaternIso1 _ => KMaternIso1 (ISOkernel.setScale theta)
  | KMaternIso3 _ => KMaternIso3 (ISOkernel.setScale theta)
  | KMaternIso5 _ => KMaternIso5 (ISOkernel.setScale theta)
  | KSEIso _ => KSEIso (ISOkernel.setScale theta)
  | KSEArd _ => KSEArd (ARDkernel.setScale theta)
  end.

#[local] Instance kernel_ops : KernelOps Kernel :=
  {| create_func := fun C => kernel_of_class C 1;
     init := fun k _ => k;
     init_combined := fun k _ _ _ => k;
     setHyperParameters := setScale;
     evaluate := operator_call;
     gradient := getGradient |}.

(** A mean function with one constant feature; the factory knows
    "mZero", "mOne" and "mConst" and answers null otherwise. *)
Definition mean_factory (m_name : string) (dim : nat)
  : Proc World (option R) :=
  if String.eqb m_name "mZero" then ret (Some 0)
  else if String.eqb m_name "mOne" then ret (Some 1)
  else if String.eqb m_name "mConst" then ret (Some 0)
  else ret None.

#[local] Instance mean_ops : MeanOps R :=
  {| mean_create := mean_factory;
     getMean := fun c _ => c;
     getFeatures := fun _ _ => [1];
     getAllMeans := fun c XX => map (fun _ => c) XX;
     getAllFeatures := fun _ XX => mk_matrixd 1 (length XX) (fun _ _ => 1);
     setParameters := fun c mu => (0%Z, ublas.at_ mu 0) |}.

(** An atomic kernel name is its own head, with no arguments. *)
Definition parse_atomic (name : string) : string * string * string :=
  (name, EmptyString, EmptyString).

(** Modelled from the spec: [utils::parseExpresion] (parser.hpp is not
    among the sources) on the one combined expression used below, the sum
    of a registered kernel and an unregistered name; every other name is
    taken as atomic. *)
Definition parse_sum (name : string) : string * string * string :=
  if String.eqb name "kSum(kSEISO,kFoo)"
  then ("kSum", "kSEISO", "kFoo")%string
  else (name, EmptyString, EmptyString).

(** A derived class without members of its own whose prediction step
    always succeeds. *)
Definition precompute_ok (s : NonParametricProcess.State Kernel R unit)
  : Z * unit := (0%Z, tt).

Definition keep_kernel (s : NonParametricProcess.State Kernel R unit)
  : Z * KernelModel.t Kernel := (0%Z, NonParametricProcess.mKernel s).

(** Two samples at 0 and 1 (dimension one), observed as 0 and 1, under
    the isotropic squared-exponential kernel with unit length-scale and a
    zero nugget; [mL] is lower triangular with a positive diagonal. *)
Definition two_samples_factor : matrixd :=
  mk_matrixd 2 2
    (fun a b =>
       match a, b with
       | O, O => 1
       | S O, O => exp (- (1 / 2))
       | S O, S O => sqrt (1 - exp (- (1 / 2)) * exp (- (1 / 2)))
       | _, _ => 0
       end).

Definition two_samples : NonParametricProcess.State Kernel R unit :=
  NonParametricProcess.mk_State 1 0 0%nat 1%nat
    (KernelModel.mk (Some (KSEIso 1)) [(1, 1)]) 0%nat
    [[0]; [1]] [0; 1] [0; 0]
    (mk_matrixd 1 2 (fun _ _ => 1))
    two_samples_factor
    [0] [1e-10] (Some 0) tt.

(** The same point sampled twice, with a zero nugget. *)
Definition duplicate_samples : NonParametricProcess.State Kernel R unit :=
  NonParametricProcess.mk_State 1 0 0%nat 0%nat
    (KernelModel.mk (Some (KSEIso 1)) [(1, 1)]) 0%nat
    [[0]; [0]] [0; 0] [0; 0]
    (mk_matrixd 1 2 (fun _ _ => 1))
    (ublas.fresh 0 0)
    [0] [1e-10] (Some 0) tt.

Definition empty_world : World := mk_World [] [].

(** A configuration: 190 iterations after 10 initial samples, seed 0,
    nugget 1e-10, a Gaussian process with the isotropic SE kernel. *)
Definition example_params : bopt_params :=
  mk_bopt_params 190 10 0 0%Z 1 1e-10 "sGaussianProcess" 0
    (kernel_parameters.mk "kSEISO" [1] [100] 1)
    (mean_parameters.mk "mOne" [1] [1] 1)
    "cEI" 1 1 1000.

(** The same configuration with a kernel, resp. a surrogate, that does
    not exist. *)
Definition unknown_kernel_params : bopt_params :=
  mk_bopt_params 190 10 0 0%Z 1 1e-10 "sGaussianProcess" 0
    (kernel_parameters.mk "kFoo" [1] [100] 1)
    (mean_parameters.mk "mOne" [1] [1] 1)
    "cEI" 1 1 1000.

Definition unknown_surrogate_params : bopt_params :=
  set_surr_name "sFoo" example_params.

(** A derived class that keeps the three prior hyperparameters of the
    configuration. *)
Definition prior_of (C : string) (dim : nat) (p : bopt_params) : R * R * R :=
  (alpha p, beta p, delta p).

(** Collaborators for the optimization loop: a counter as random
    generator, the samples themselves as factor (so that appending and
    refitting agree), a two-point initial design, and an inner optimizer
    that proposes the point with all coordinates equal to the counter. *)
Definition counter_seed (seed : Z) : nat := Z.to_nat seed.

Definition sphere (x : vectord) : R := ublas.sum_squares x.

Definition two_point_design (p : bopt_params) (d : nat) (r : nat)
  : vecOfvec * nat :=
  ([repeat 0 d; repeat 1 d], r).

Definition samples_fit (p : bopt_params) (th : vectord) (X : vecOfvec)
    (Y : vectord) : vecOfvec * vectord := (X, Y).

Definition samples_update (p : bopt_params) (th : vectord)
    (L : vecOfvec * vectord) (x : vectord) (y : R) : vecOfvec * vectord :=
  (fst L ++ [x], snd L ++ [y]).

Definition keep_hyperparameters (p : bopt_params) (th : vectord)
    (X : vecOfvec) (Y : vectord) (r : nat) : vectord * nat := (th, r).

Definition counter_point (p : bopt_params) (d : nat) (th : vectord)
    (X : vecOfvec) (Y : vectord) (L : vecOfvec * vectord) (i : nat)
    (c : unit) (r : nat)
  : vectord * unit * nat :=
  (repeat (INR r) d, tt, S r).

(** A criterion that records nothing. *)
Definition no_criterion_state (p : bopt_params) : unit := tt.

Definition keep_criterion (p : bopt_params) (th : vectord) (X : vecOfvec)
    (Y : vectord) (L : vecOfvec * vectord) (c : unit) : unit := c.

(** A portfolio of two arms: the first always proposes the origin, the
    second the point with all coordinates 1.  The rate is 1, every
    uniform draw is 6/10, and the reward of a proposal is 1 minus its
    squared distance from the origin.  The initial design lies away from
    the origin. *)
Definition arm_origin (p : bopt_params) (d : nat) (th : vectord)
    (X : vecOfvec) (Y : vectord) (L : vecOfvec * vectord) (i : nat)
  : vectord := repeat 0 d.

Definition arm_ones (p : bopt_params) (d : nat) (th : vectord)
    (X : vecOfvec) (Y : vectord) (L : vecOfvec * vectord) (i : nat)
  : vectord := repeat 1 d.

Definition hedge_arms := [arm_origin; arm_ones].

Definition constant_draw (r : nat) : R * nat := (6 / 10, S r).

Definition closeness_reward (p : bopt_params) (th : vectord) (X : vecOfvec)
    (Y : vectord) (L : vecOfvec * vectord) (x : vectord) : R :=
  1 - sphere x.

Definition far_design (p : bopt_params) (d : nat) (r : nat)
  : vecOfvec * nat :=
  ([repeat 2 d; repeat 1 d], r).

Definition never_stuck (p : bopt_params) (c : nat) (yPrev y : R) : nat := 0.


End Concrete.

(* ------------------------------------------------------------------ *)
(** ** Vocabulary for further properties *)

(** The four isotropic kernel classes of the header, by name, and the
    object of a class with a given length-scale. *)
Inductive IsoClass : Type :=
| CMaternIso1 | CMaternIso3 | CMaternIso5 | CSEIso.

Definition iso_kernel (C : IsoClass) (mTheta : R) : Kernel :=
  match C with
  | CMaternIso1 => KMaternIso1 mTheta
  | CMaternIso3 => KMaternIso3 mTheta
  | CMaternIso5 => KMaternIso5 mTheta
  | CSEIso => KSEIso mTheta
  end.

(** [KernelModel::kernelLogPrior].  [boost::math::pdf] and the kernel's
    [getHyperParameters] are not among the sources: the density [pdf] of
    a prior and the vector [th] the kernel returns are arguments.  A
    prior is held as its mean and its standard deviation; reading
    [priorKernel[i]] past the end is undefined in C++, a prior of
    deviation [0] here. *)
Definition kernelLogPrior {KernelObj : Type}
    (pdf : R * R -> R -> R) (th : vectord) (km : KernelModel.t KernelObj) : R :=
  for_loop (length th)
    (fun i prior =>
       let p := nth i (KernelModel.priorKernel km) (0, 0) in
       if Rlt_dec 0 (snd p) then prior + ln (pdf p (ublas.at_ th i))
       else prior)
    0.

(** The loop over [ii] in [KernelModel::computeDerivativeCorrMatrix], run
    for [n] iterations; its inner loop is the one of [computeCorrMatrix]
    on the gradient. *)
Definition derivative_rows_loop (g : vectord -> vectord -> nat -> R)
    (XX : vecOfvec) (dth_index : nat) (n : nat) (M : matrixd) : matrixd :=
  for_loop n
    (fun ii M =>
       let M' :=
         KernelModel.row_loop (fun a b => g a b dth_index) XX ii ii M in
       ublas.massign ii ii
         (g (KernelModel.sample XX ii) (KernelModel.sample XX ii) dth_index) M')
    M.

(** What a call of the kernel factory started in the world [w] may have
    done when it ends with the outcome [o] in the world [w']: nothing is
    logged, the process is not ended, the objects allocated are of
    registered classes and are still live, and an exception is "Kernel
    not found" for a name that is not in the registry. *)
Definition factory_frame {A : Type} (w : World) (o : Outcome A) (w' : World)
  : Prop :=
  log_lines w' = log_lines w
  /\ (exists l, live_objects w' = l ++ live_objects w
                /\ Forall (fun cls => In cls (map snd KernelFactory.registry)) l)
  /\ o <> Exited
  /\ (forall what, o = Thrown what ->
        exists os, KernelFactory.find os KernelFactory.registry = None
                   /\ what = KernelFactory.not_found os).

(** A call that leaves the state it ran in as it was, and either returns
    or stops at a failed assertion: it neither throws nor ends the
    process. *)
Definition reads_only {St A : Type} (m : Proc St A) (s : St) : Prop :=
  snd (m s) = s
  /\ ((exists a, fst (m s) = Returned a) \/ fst (m s) = Aborted).

(** The member functions that learn the kernel, and those that install
    the mean function. *)
Definition is_fit (op : NonParametricProcess.Op) : bool :=
  match op with
  | NonParametricProcess.OpFitSurrogateModel
  | NonParametricProcess.OpFitSurrogateModelSample _ _ => true
  | _ => false
  end.

Definition is_setMean (op : NonParametricProcess.Op) : bool :=
  match op with
  | NonParametricProcess.OpSetMean _ _ _ _
  | NonParametricProcess.OpSetMeanParams _ _ => true
  | _ => false
  end.

(** What the member function [op] leaves of the configuration of the
    surrogate [s] in [s']: the dimension, the nugget and the learning
    type; the kernel model unless [op] learns it; the mean function and
    its coefficients unless [op] installs them. *)
Definition configuration_kept {KernelObj MeanObj Cache : Type}
    (op : NonParametricProcess.Op)
    (s s' : NonParametricProcess.State KernelObj MeanObj Cache) : Prop :=
  NonParametricProcess.dim_ s' = NonParametricProcess.dim_ s
  /\ NonParametricProcess.mRegularizer s' = NonParametricProcess.mRegularizer s
  /\ NonParametricProcess.mLearnType s' = NonParametricProcess.mLearnType s
  /\ (is_fit op = false ->
      NonParametricProcess.mKernel s' = NonParametricProcess.mKernel s)
  /\ (is_setMean op = false ->
      NonParametricProcess.mMean s' = NonParametricProcess.mMean s
      /\ NonParametricProcess.mMu s' = NonParametricProcess.mMu s
      /\ NonParametricProcess.mS_Mu s' = NonParametricProcess.mS_Mu s).

(* ================================================================== *)
(** * Properties *)

(* ------------------------------------------------------------------ *)
(** ** Vectors *)

Lemma minus_self_sum_squares (x : vectord) :
  ublas.sum_squares (ublas.minus x x) = 0.
Proof.
  induction x as [|a x IH]; simpl; [reflexivity|].
  rewrite IH. ring.
Qed.

Lemma norm_2_minus_self (x : vectord) : ublas.norm_2 (ublas.minus x x) = 0.
Proof.
  unfold ublas.norm_2. rewrite minus_self_sum_squares. apply sqrt_0.
Qed.

Lemma sum_squares_nonneg (v : vectord) : 0 <= ublas.sum_squares v.
Proof.
  induction v as [|a v IH]; simpl; [lra|].
  pose proof (Rle_0_sqr a) as Ha. unfold Rsqr in Ha. lra.
Qed.

Lemma norm_2_squared (v : vectord) :
  ublas.norm_2 v * ublas.norm_2 v = ublas.sum_squares v.
Proof.
  unfold ublas.norm_2. apply sqrt_sqrt, sum_squares_nonneg.
Qed.

Lemma minus_swap_sum_squares (x1 x2 : vectord) :
  ublas.sum_squares (ublas.minus x1 x2) = ublas.sum_squares (ublas.minus x2 x1).
Proof.
  revert x2. induction x1 as [|a x1 IH]; intros [|b x2]; simpl; try reflexivity.
  rewrite (IH x2). ring.
Qed.

Lemma scaled_diff_self_sum_squares (theta x : vectord) :
  ublas.sum_squares (ARDkernel.computeScaledDiff theta x x) = 0.
Proof.
  unfold ARDkernel.computeScaledDiff.
  revert theta. induction x as [|a x IH]; intros [|t theta]; simpl;
    try reflexivity.
  rewrite IH. unfold Rdiv. ring.
Qed.

Lemma scaled_diff_swap_sum_squares (theta x1 x2 : vectord) :
  ublas.sum_squares (ARDkernel.computeScaledDiff theta x1 x2) =
  ublas.sum_squares (ARDkernel.computeScaledDiff theta x2 x1).
Proof.
  unfold ARDkernel.computeScaledDiff.
  revert x2 theta.
  induction x1 as [|a x1 IH]; intros [|b x2] [|t theta]; simpl;
    try reflexivity.
  rewrite (IH x2 theta). unfold Rdiv. ring.
Qed.

Lemma scaled_norm_self (theta : R) (x : vectord) :
  ISOkernel.computeScaledNorm2 theta x x = 0.
Proof.
  unfold ISOkernel.computeScaledNorm2. rewrite norm_2_minus_self.
  unfold Rdiv. ring.
Qed.

Lemma scaled_norm_swap (theta : R) (x1 x2 : vectord) :
  ISOkernel.computeScaledNorm2 theta x1 x2 =
  ISOkernel.computeScaledNorm2 theta x2 x1.
Proof.
  unfold ISOkernel.computeScaledNorm2, ublas.norm_2.
  now rewrite minus_swap_sum_squares.
Qed.

(* ------------------------------------------------------------------ *)
(** ** Kernels *)

(** Every kernel of the header is a symmetric function of its inputs. *)
Lemma operator_call_symmetric (k : Kernel) (x1 x2 : vectord) :
  operator_call k x1 x2 = operator_call k x2 x1.
Proof.
  destruct k as [th|th|th|th|th]; simpl;
    unfold MaternIso1.operator_call, MaternIso3.operator_call,
      MaternIso5.operator_call, SEIso.operator_call, SEArd.operator_call;
    try (now rewrite (scaled_norm_swap th x1 x2)).
  rewrite !norm_2_squared. now rewrite scaled_diff_swap_sum_squares.
Qed.

Lemma operator_call_self (k : Kernel) (x : vectord) : operator_call k x x = 1.
Proof.
  destruct k as [th|th|th|th|th]; simpl;
    unfold MaternIso1.operator_call, MaternIso3.operator_call,
      MaternIso5.operator_call, SEIso.operator_call, SEArd.operator_call.
  - rewrite scaled_norm_self, Ropp_0. apply exp_0.
  - rewrite scaled_norm_self, Rmult_0_r, Ropp_0, exp_0. ring.
  - rewrite scaled_norm_self, Rmult_0_r, Ropp_0, exp_0. unfold Rdiv. ring.
  - rewrite scaled_norm_self.
    replace (- (0 * 0) / 2) with 0 by (unfold Rdiv; ring). apply exp_0.
  - rewrite norm_2_squared, scaled_diff_self_sum_squares.
    replace (- 0 / 2) with 0 by (unfold Rdiv; ring). apply exp_0.
Qed.

(** C8. For each atomic kernel of kernel_functors.hpp (MaternIso1,
    MaternIso3, MaternIso5, SEIso, SEArd), every configuration of strictly
    positive length-scales and every input [x] of the matching dimension,
    the self-evaluation [k(x, x)] equals 1, hence is strictly positive. *)
Theorem kernel_self_evaluation_is_one (k : Kernel) (dim : nat) (x : vectord) :
  positive_scales k dim ->
  length x = dim ->
  operator_call k x x = 1 /\ 0 < operator_call k x x.
Proof.
  intros _ _. rewrite operator_call_self. split; [reflexivity | lra].
Qed.

Lemma kernel_self_evaluation_witness :
  positive_scales (KSEArd [2; 3]) 2 /\
  operator_call (KSEArd [2; 3]) [0; 1] [0; 1] = 1.
Proof.
  assert (Hpos : positive_scales (KSEArd [2; 3]) 2).
  { split; [|reflexivity]. simpl. repeat constructor; lra. }
  split; [exact Hpos|].
  exact (proj1 (kernel_self_evaluation_is_one (KSEArd [2; 3]) 2 [0; 1]
                  Hpos eq_refl)).
Defined.

(** *** The squared-exponential ARD kernel and its length-scales *)

Lemma exp_inverse_square_derivative (a C t : R) :
  t <> 0 ->
  derivable_pt_lim (fun z => exp (- ((a / z) * (a / z) + C) / 2)) t
    (exp (- ((a / t) * (a / t) + C) / 2) * (a * a / (t * t * t))).
Proof.
  intro Ht.
  assert (Hu : derivable_pt_lim (fun z => - ((a / z) * (a / z) + C) / 2) t
                 (a * a / (t * t * t))).
  { apply derivable_pt_lim_locally_ext with
      (f := ((fct_cte (- (a * a) / 2) / (id * id)) + fct_cte (- C / 2))%F)
      (a := t - Rabs t) (b := t + Rabs t).
    - assert (0 < Rabs t) by (apply Rabs_pos_lt; exact Ht). lra.
    - intros z Hz. unfold plus_fct, div_fct, mult_fct, fct_cte, id.
      assert (z <> 0).
      { intro; subst z. destruct Hz as [H1 H2].
        destruct (Rcase_abs t) as [Hn|Hp].
        - rewrite (Rabs_left _ Hn) in H2. lra.
        - rewrite (Rabs_right _ Hp) in H1. lra. }
      field. assumption.
    - replace (a * a / (t * t * t)) with
        ((0 * (id * id)%F t
          - (1 * id t + id t * 1) * fct_cte (- (a * a) / 2) t)
         / ((id * id)%F t)² + 0).
      + apply derivable_pt_lim_plus; [ | apply derivable_pt_lim_const ].
        apply derivable_pt_lim_div.
        * apply derivable_pt_lim_const.
        * apply derivable_pt_lim_mult; apply derivable_pt_lim_id.
        * unfold mult_fct, id. nra.
      + unfold mult_fct, fct_cte, id, Rsqr. field. exact Ht. }
  apply (derivable_pt_lim_comp
           (fun z => - ((a / z) * (a / z) + C) / 2) exp t _ _ Hu).
  apply derivable_pt_lim_exp.
Qed.

Lemma assign_same (i : nat) (v : vectord) : ublas.assign i (ublas.at_ v i) v = v.
Proof.
  revert i. induction v as [|a v IH]; intros [|i]; simpl; try reflexivity.
  unfold ublas.at_ in IH. now rewrite IH.
Qed.

(** The squared scaled distance splits into the term of the [i]-th
    length-scale and the terms of the others. *)
Lemma scaled_sum_squares_split (d theta : vectord) (i : nat) (t : R) :
  (i < length d)%nat -> (i < length theta)%nat ->
  ublas.sum_squares (ublas_elementwise_div d (ublas.assign i t theta)) =
  (ublas.at_ d i / t) * (ublas.at_ d i / t)
  + ublas.sum_squares (ublas_elementwise_div (ublas.assign i 0 d) theta).
Proof.
  revert theta i.
  induction d as [|a d IH]; intros [|b theta] [|i] Hd Ht; simpl in *;
    try lia.
  - unfold ublas.at_; simpl. unfold Rdiv. ring.
  - rewrite (IH theta i) by lia. unfold ublas.at_; simpl. ring.
Qed.

(** The partial derivative of the SE-ARD kernel value with respect to its
    [i]-th length-scale. *)
Lemma SEArd_partial_derivative (theta x1 x2 : vectord) (i : nat) :
  (i < length (ublas.minus x1 x2))%nat -> (i < length theta)%nat ->
  ublas.at_ theta i <> 0 ->
  derivable_pt_lim
    (fun t => SEArd.operator_call (ublas.assign i t theta) x1 x2)
    (ublas.at_ theta i)
    (SEArd.operator_call theta x1 x2
     * (ublas.at_ (ublas.minus x1 x2) i * ublas.at_ (ublas.minus x1 x2) i
        / (ublas.at_ theta i * ublas.at_ theta i * ublas.at_ theta i))).
Proof.
  intros Hd Ht Hnz.
  set (d := ublas.minus x1 x2) in *.
  set (C := ublas.sum_squares (ublas_elementwise_div (ublas.assign i 0 d) theta)).
  assert (Hval : forall t,
             SEArd.operator_call (ublas.assign i t theta) x1 x2 =
             exp (- ((ublas.at_ d i / t) * (ublas.at_ d i / t) + C) / 2)).
  { intro t. unfold SEArd.operator_call, ARDkernel.computeScaledDiff.
    rewrite norm_2_squared. fold d.
    now rewrite scaled_sum_squares_split. }
  apply derivable_pt_lim_ext with
    (f := fun t => exp (- ((ublas.at_ d i / t) * (ublas.at_ d i / t) + C) / 2)).
  - intro z. symmetry. apply Hval.
  - pose proof (Hval (ublas.at_ theta i)) as H0.
    rewrite assign_same in H0. rewrite H0.
    now apply exp_inverse_square_derivative.
Qed.

Lemma sqrt_2_lt_4 : sqrt 2 < 4.
Proof.
  apply Rlt_trans with 2; [|lra].
  rewrite <- (sqrt_square 2) at 2 by lra.
  apply sqrt_lt_1; lra.
Qed.

(** C4. At [theta = (1)], [x1 = (2)], [x2 = (0)] the partial derivative of
    the SE-ARD kernel value with respect to its length-scale is
    [4 exp(-2)], which is also what the isotropic kernel's [getGradient]
    returns there, while SE-ARD's [getGradient] returns [exp(-2) sqrt 2]:
    it takes the square root of the scaled difference where its square is
    due. *)
Theorem SEArd_getGradient_is_not_the_derivative :
  derivable_pt_lim (fun t => SEArd.operator_call [t] [2] [0]) 1 (4 * exp (- 2))
  /\ SEIso.getGradient 1 [2] [0] 0 = 4 * exp (- 2)
  /\ SEArd.getGradient [1] [2] [0] 0 = sqrt 2 * exp (- 2)
  /\ SEArd.getGradient [1] [2] [0] 0 <> 4 * exp (- 2).
Proof.
  assert (Hk : SEArd.operator_call [1] [2] [0] = exp (- 2)).
  { unfold SEArd.operator_call. rewrite norm_2_squared. simpl.
    f_equal. field. }
  assert (Hg : SEArd.getGradient [1] [2] [0] 0 = sqrt 2 * exp (- 2)).
  { unfold SEArd.getGradient. rewrite norm_2_squared. simpl.
    unfold ublas.at_; simpl.
    replace ((2 - 0) / 1) with 2 by field.
    replace (- (2 * 2 + 0) / 2) with (- 2) by field. ring. }
  split; [|split; [|split]].
  - pose proof (SEArd_partial_derivative [1] [2] [0] 0) as H.
    simpl in H. unfold ublas.at_ in H; simpl in H.
    rewrite Hk in H.
    replace (4 * exp (- 2)) with
      (exp (- 2) * ((2 - 0) * (2 - 0) / (1 * 1 * 1))) by field.
    apply H; [lia | lia | lra].
  - unfold SEIso.getGradient, ISOkernel.computeScaledNorm2.
    replace (ublas.norm_2 (ublas.minus [2] [0]) / 1
             * (ublas.norm_2 (ublas.minus [2] [0]) / 1))
      with (ublas.norm_2 (ublas.minus [2] [0])
            * ublas.norm_2 (ublas.minus [2] [0])) by field.
    rewrite norm_2_squared. simpl.
    replace (- ((2 - 0) * (2 - 0) + 0) / 2) with (- 2) by field.
    replace ((2 - 0) * (2 - 0) + 0) with 4 by ring. ring.
  - exact Hg.
  - rewrite Hg. intro H.
    pose proof (exp_pos (- 2)) as He. pose proof sqrt_2_lt_4 as Hs.
    assert (sqrt 2 = 4) by nra. lra.
Qed.

(* ------------------------------------------------------------------ *)
(** ** The correlation matrix *)

Section CorrMatrix.

Variable k : vectord -> vectord -> R.
Variable XX : vecOfvec.
Variable nugget : R.

Local Abbreviation x_ := (KernelModel.sample XX).

Local Abbreviation row_loop := (KernelModel.row_loop k XX).
Local Abbreviation rows_loop := (KernelModel.rows_loop k XX nugget).

Lemma row_loop_S (ii m : nat) (M : matrixd) :
  row_loop ii (S m) M =
  ublas.massign m ii (k (x_ ii) (x_ m))
    (ublas.massign ii m (k (x_ ii) (x_ m)) (row_loop ii m M)).
Proof.
  unfold KernelModel.row_loop. simpl. now rewrite !Nat.eqb_refl.
Qed.

Lemma rows_loop_S (n : nat) (M : matrixd) :
  rows_loop (S n) M =
  ublas.massign n n (k (x_ n) (x_ n) + nugget) (row_loop n n (rows_loop n M)).
Proof. reflexivity. Qed.

Lemma row_loop_sizes (ii m : nat) (M : matrixd) :
  size1 (row_loop ii m M) = size1 M /\ size2 (row_loop ii m M) = size2 M.
Proof.
  induction m as [|m IH]; [split; reflexivity|].
  rewrite row_loop_S. exact IH.
Qed.

Lemma rows_loop_sizes (n : nat) (M : matrixd) :
  size1 (rows_loop n M) = size1 M /\ size2 (rows_loop n M) = size2 M.
Proof.
  induction n as [|n IH]; [split; reflexivity|].
  destruct (row_loop_sizes n n (rows_loop n M)) as [H1 H2].
  rewrite rows_loop_S. simpl. rewrite H1, H2. exact IH.
Qed.

(** After [m <= ii] iterations the inner loop has written the first [m]
    entries of row [ii] and mirrored them into column [ii]. *)
Lemma row_loop_coef (ii m : nat) (M : matrixd) (a b : nat) :
  (m <= ii)%nat ->
  coef (row_loop ii m M) a b =
  if (a =? ii)%nat && (b <? m)%nat then k (x_ ii) (x_ b)
  else if (b =? ii)%nat && (a <? m)%nat then k (x_ ii) (x_ a)
  else coef M a b.
Proof.
  induction m as [|m IH]; intro Hm.
  - simpl. rewrite !andb_false_r. reflexivity.
  - rewrite row_loop_S. simpl coef. rewrite IH by lia.
    destruct (Nat.eqb_spec a ii) as [Ha|Ha];
      destruct (Nat.eqb_spec b ii) as [Hb|Hb];
      destruct (Nat.eqb_spec a m) as [Ham|Ham];
      destruct (Nat.eqb_spec b m) as [Hbm|Hbm];
      destruct (Nat.ltb_spec a m); destruct (Nat.ltb_spec b m);
      destruct (Nat.ltb_spec a (S m)); destruct (Nat.ltb_spec b (S m));
      subst; simpl; try reflexivity; try lia.
Qed.

(** After [n] iterations the outer loop has filled the leading [n] by
    [n] block: the lower triangle from [k] directly, the upper triangle
    as its mirror image, the diagonal with the nugget added. *)
Lemma rows_loop_coef (n : nat) (M : matrixd) (a b : nat) :
  coef (rows_loop n M) a b =
  if (a <? n)%nat && (b <? n)%nat then
    if (a =? b)%nat then k (x_ a) (x_ a) + nugget
    else if (b <? a)%nat then k (x_ a) (x_ b)
    else k (x_ b) (x_ a)
  else coef M a b.
Proof.
  induction n as [|n IH].
  - simpl. reflexivity.
  - rewrite rows_loop_S. simpl coef.
    rewrite row_loop_coef by lia. rewrite IH.
    destruct (Nat.eqb_spec a n) as [Ha|Ha];
      destruct (Nat.eqb_spec b n) as [Hb|Hb];
      destruct (Nat.eqb_spec a b) as [Hab|Hab];
      destruct (Nat.ltb_spec a n); destruct (Nat.ltb_spec b n);
      destruct (Nat.ltb_spec a (S n)); destruct (Nat.ltb_spec b (S n));
      destruct (Nat.ltb_spec b a);
      subst; simpl; try reflexivity; try lia.
Qed.

(** [computeCorrMatrix] returns once its two assertions hold, and leaves
    the state alone. *)
Lemma computeCorrMatrix_returns (St : Type) (corrMatrix : matrixd) (w : St) :
  size1 corrMatrix = length XX ->
  size2 corrMatrix = length XX ->
  KernelModel.computeCorrMatrix k XX corrMatrix nugget w =
  (Returned (rows_loop (length XX) corrMatrix), w).
Proof.
  intros H1 H2. unfold KernelModel.computeCorrMatrix, bind, assert_.
  rewrite H1, H2, Nat.eqb_refl. reflexivity.
Qed.

(** A failed assertion ends the call. *)
Lemma computeCorrMatrix_aborts (St : Type) (corrMatrix : matrixd) (w : St) :
  size1 corrMatrix <> length XX \/ size2 corrMatrix <> length XX ->
  KernelModel.computeCorrMatrix k XX corrMatrix nugget w = (Aborted, w).
Proof.
  intros H. unfold KernelModel.computeCorrMatrix, bind, assert_.
  destruct (Nat.eqb_spec (size1 corrMatrix) (length XX)) as [E1|E1];
    [|reflexivity].
  destruct (Nat.eqb_spec (size2 corrMatrix) (length XX)) as [E2|E2];
    [|reflexivity].
  destruct H; contradiction.
Qed.

(** Below the diagonal the entries are [k(XX[i], XX[j])]; above it they
    are the mirror image [k(XX[j], XX[i])]. *)
Lemma rows_loop_entries (M : matrixd) (i j : nat) :
  (i < length XX)%nat -> (j < length XX)%nat ->
  coef (rows_loop (length XX) M) i j =
  if (i =? j)%nat then k (x_ i) (x_ i) + nugget
  else if (j <? i)%nat then k (x_ i) (x_ j)
  else k (x_ j) (x_ i).
Proof.
  intros Hi Hj. rewrite rows_loop_coef.
  destruct (Nat.ltb_spec i (length XX)); [|lia].
  destruct (Nat.ltb_spec j (length XX)); [|lia].
  reflexivity.
Qed.

End CorrMatrix.

Lemma asserted_of_dimension (k : Kernel) (dim : nat) (x1 x2 : vectord) :
  scales_fit k dim -> length x1 = dim -> length x2 = dim ->
  asserted k x1 x2 = true.
Proof.
  intros Hk H1 H2. destruct k as [th|th|th|th|th]; simpl in *;
    rewrite ?H1, ?H2, ?Hk, ?Nat.eqb_refl; reflexivity.
Qed.

Lemma sample_dimension (XX : vecOfvec) (dim i : nat) :
  Forall (fun x => length x = dim) XX -> (i < length XX)%nat ->
  length (KernelModel.sample XX i) = dim.
Proof.
  intros Hall Hi. unfold KernelModel.sample.
  rewrite Forall_forall in Hall. apply Hall. now apply nth_In.
Qed.

(** C7. For every list [XX] of sample points of one dimension, every
    kernel [k] of the header configured for that dimension and every
    nugget, [computeCorrMatrix] on an [n] by [n] matrix ([n] the number of
    points) returns: every kernel call passes its assertions, and the
    matrix [M] is of that size and symmetric, with
    [M(i,j) = k(XX[i], XX[j])] for all [i <> j] and
    [M(i,i) = k(XX[i], XX[i]) + nugget] for all [i]. *)
Theorem computeCorrMatrix_correct
    (St : Type) (k : Kernel) (dim : nat) (XX : vecOfvec) (nugget : R)
    (corrMatrix : matrixd) (w : St) :
  scales_fit k dim ->
  Forall (fun x => length x = dim) XX ->
  size1 corrMatrix = length XX ->
  size2 corrMatrix = length XX ->
  (forall i j, (i < length XX)%nat -> (j < length XX)%nat ->
     asserted k (KernelModel.sample XX i) (KernelModel.sample XX j) = true)
  /\ exists M,
    KernelModel.computeCorrMatrix (operator_call k) XX corrMatrix nugget w
      = (Returned M, w)
    /\ size1 M = length XX /\ size2 M = length XX
    /\ (forall i j, (i < length XX)%nat -> (j < length XX)%nat ->
          coef M i j = coef M j i)
    /\ (forall i j, (i < length XX)%nat -> (j < length XX)%nat -> i <> j ->
          coef M i j =
          operator_call k (KernelModel.sample XX i) (KernelModel.sample XX j))
    /\ (forall i, (i < length XX)%nat ->
          coef M i i =
          operator_call k (KernelModel.sample XX i) (KernelModel.sample XX i)
          + nugget).
Proof.
  intros Hk Hdim H1 H2. split.
  { intros i j Hi Hj.
    apply asserted_of_dimension with dim;
      [exact Hk | now apply sample_dimension ..]. }
  exists (KernelModel.rows_loop (operator_call k) XX nugget (length XX)
            corrMatrix).
  split; [now apply computeCorrMatrix_returns|].
  destruct (rows_loop_sizes (operator_call k) XX nugget (length XX) corrMatrix)
    as [S1 S2].
  split; [congruence|]. split; [congruence|].
  split; [|split].
  - intros i j Hi Hj. rewrite !rows_loop_entries by assumption.
    rewrite (Nat.eqb_sym j i).
    destruct (Nat.eqb_spec i j) as [E|E]; [now subst|].
    destruct (Nat.ltb_spec j i); destruct (Nat.ltb_spec i j);
      try reflexivity; lia.
  - intros i j Hi Hj Hij. rewrite rows_loop_entries by assumption.
    destruct (Nat.eqb_spec i j) as [E|E]; [contradiction|].
    destruct (Nat.ltb_spec j i); [reflexivity|].
    apply operator_call_symmetric.
  - intros i Hi. rewrite rows_loop_entries by assumption.
    now rewrite Nat.eqb_refl.
Qed.

Lemma computeCorrMatrix_correct_witness :
  exists M,
    KernelModel.computeCorrMatrix (operator_call (KSEIso 1)) [[0]; [1]]
      (ublas.fresh 2 2) 1e-10 Concrete.empty_world
      = (Returned M, Concrete.empty_world)
    /\ coef M 0 1 = operator_call (KSEIso 1) [0] [1]
    /\ coef M 1 0 = coef M 0 1
    /\ coef M 1 1 = operator_call (KSEIso 1) [1] [1] + 1e-10.
Proof.
  destruct (computeCorrMatrix_correct World (KSEIso 1) 1 [[0]; [1]] 1e-10
              (ublas.fresh 2 2) Concrete.empty_world I
              ltac:(repeat constructor) eq_refl eq_refl)
    as [_ [M [Hr [_ [_ [Hs [Ho Hd]]]]]]].
  exists M. split; [exact Hr|]. split; [|split].
  - apply (Ho 0%nat 1%nat); simpl; lia.
  - apply (Hs 1%nat 0%nat); simpl; lia.
  - apply (Hd 1%nat); simpl; lia.
Defined.

(* ------------------------------------------------------------------ *)
(** ** Running a call *)

Section Running.

Context {St : Type}.

Lemma wp_ret {A} (a : A) (Q : Outcome A -> St -> Prop) (s : St) :
  Q (Returned a) s -> wp (ret a) Q s.
Proof. exact (fun H => H). Qed.

Lemma wp_bind {A B} (m : Proc St A) (f : A -> Proc St B)
    (Q : Outcome B -> St -> Prop) (s : St) :
  wp m (wp_then f Q) s -> wp (bind m f) Q s.
Proof.
  unfold wp, wp_then, bind.
  destruct (m s) as [[a|what| |] s']; simpl; auto.
Qed.

Lemma wp_get (Q : Outcome St -> St -> Prop) (s : St) :
  Q (Returned s) s -> wp get Q s.
Proof. exact (fun H => H). Qed.

Lemma wp_modify (f : St -> St) (Q : Outcome unit -> St -> Prop) (s : St) :
  Q (Returned tt) (f s) -> wp (modify f) Q s.
Proof. exact (fun H => H). Qed.

Lemma wp_throw {A} (what : string) (Q : Outcome A -> St -> Prop) (s : St) :
  Q (Thrown what) s -> wp (throw what) Q s.
Proof. exact (fun H => H). Qed.

Lemma wp_exit {A} (Q : Outcome A -> St -> Prop) (s : St) :
  Q Exited s -> wp exit_ Q s.
Proof. exact (fun H => H). Qed.

Lemma wp_abort {A} (Q : Outcome A -> St -> Prop) (s : St) :
  Q Aborted s -> wp abort Q s.
Proof. exact (fun H => H). Qed.

Lemma wp_assert (b : bool) (Q : Outcome unit -> St -> Prop) (s : St) :
  (if b then Q (Returned tt) s else Q Aborted s) -> wp (assert_ b) Q s.
Proof. destruct b; exact (fun H => H). Qed.

Lemma wp_consequence {A} (m : Proc St A) (Q Q' : Outcome A -> St -> Prop)
    (s : St) :
  wp m Q s -> (forall o s', Q o s' -> Q' o s') -> wp m Q' s.
Proof. unfold wp. auto. Qed.

Lemma wp_outcome {A} (m : Proc St A) (Q : Outcome A -> St -> Prop) (s : St) :
  wp m Q s -> exists o s', m s = (o, s') /\ Q o s'.
Proof.
  unfold wp. intro H. exists (fst (m s)), (snd (m s)).
  split; [apply surjective_pairing | exact H].
Qed.

Lemma wp_of_run {A} (m : Proc St A) (Q : Outcome A -> St -> Prop) (s : St)
    (o : Outcome A) (s' : St) :
  m s = (o, s') -> Q o s' -> wp m Q s.
Proof. unfold wp. intros -> H. exact H. Qed.

(** A property of the state that every step of a loop keeps is kept by
    the loop, whatever its outcome. *)
Lemma wp_for_each (l : list nat) (body : nat -> Proc St unit)
    (I : St -> Prop) (s : St) :
  (forall i s0, I s0 -> wp (body i) (fun _ s1 => I s1) s0) ->
  I s -> wp (for_each l body) (fun _ s1 => I s1) s.
Proof.
  intros Hbody. revert s.
  induction l as [|i l IH]; intros s Hs; simpl.
  - apply wp_ret. exact Hs.
  - apply wp_bind. eapply wp_consequence; [apply Hbody; exact Hs|].
    intros [[]|what| |] s1 H1; simpl; auto.
Qed.

End Running.

Lemma wp_equation {St A} (m : Proc St A) (s : St) (r : Outcome A * St) :
  wp m (fun o s' => (o, s') = r) s -> m s = r.
Proof. unfold wp. now rewrite <- surjective_pairing. Qed.

Lemma wp_FILE_LOG (msg : string) (Q : Outcome unit -> World -> Prop)
    (w : World) :
  Q (Returned tt) (mk_World (log_lines w ++ [msg]) (live_objects w)) ->
  wp (FILE_LOG msg) Q w.
Proof. exact (fun H => H). Qed.

Lemma wp_new (C : string) (Q : Outcome unit -> World -> Prop) (w : World) :
  Q (Returned tt) (mk_World (log_lines w) (C :: live_objects w)) ->
  wp (new_ C) Q w.
Proof. exact (fun H => H). Qed.

(* ------------------------------------------------------------------ *)
(** ** The sample set of the surrogate *)

Lemma resize_grow (v : vectord) :
  ublas.resize (length v + 1) v = v ++ [0].
Proof.
  unfold ublas.resize.
  rewrite firstn_all2 by lia.
  replace (length v + 1 - length v)%nat with 1%nat by lia. reflexivity.
Qed.

Lemma assign_last (v : vectord) (c0 c : R) :
  ublas.assign (length v) c (v ++ [c0]) = v ++ [c].
Proof.
  induction v as [|a v IH]; simpl; [reflexivity|]. now rewrite IH.
Qed.

(** [v.resize(v.size()+1); v(v.size()-1) = c] appends [c]. *)
Lemma resize_assign_appends (v : vectord) (c : R) :
  ublas.assign (length (ublas.resize (length v + 1) v) - 1) c
    (ublas.resize (length v + 1) v) = v ++ [c].
Proof.
  rewrite resize_grow, length_app. simpl.
  replace (length v + 1 - 1)%nat with (length v) by lia.
  apply assign_last.
Qed.

Lemma append_appends (v : vectord) (c : R) : append v c = v ++ [c].
Proof.
  unfold append. replace (S (length v)) with (length v + 1)%nat by lia.
  rewrite resize_grow. apply assign_last.
Qed.

Import NonParametricProcess.

Section SurrogateFrame.

Context {KernelObj MeanObj Cache : Type}.

Local Abbreviation State := (NonParametricProcess.State KernelObj MeanObj Cache).
Local Abbreviation Sys := (@NonParametricProcess.Sys KernelObj MeanObj Cache).

Lemma wp_self (Q : Outcome State -> Sys -> Prop) (sy : Sys) :
  Q (Returned (this sy)) sy -> wp self Q sy.
Proof. exact (fun H => H). Qed.

Lemma wp_mutate (f : State -> State) (Q : Outcome unit -> Sys -> Prop)
    (sy : Sys) :
  Q (Returned tt) (mk_Sys (world sy) (f (this sy))) -> wp (mutate f) Q sy.
Proof. exact (fun H => H). Qed.

Lemma wp_in_world {A} (m : Proc World A) (Q : Outcome A -> Sys -> Prop)
    (sy : Sys) :
  wp m (fun o w => Q o (mk_Sys w (this sy))) (world sy) ->
  wp (in_world m) Q sy.
Proof.
  unfold wp, in_world. destruct (m (world sy)) as [o w]. exact (fun H => H).
Qed.

(** A call that returns [a] in the world it started in. *)
Lemma wp_returned {A} (m : Meth A) (sy : Sys) (a : A) (P : State -> Prop) :
  wp m (fun o sy' => o = Returned a /\ world sy' = world sy /\ P (this sy')) sy ->
  exists s', m sy = (Returned a, mk_Sys (world sy) s') /\ P s'.
Proof.
  unfold wp. destruct (m sy) as [o [w' s']]. simpl.
  intros [-> [-> H]]. exists s'. split; [reflexivity | exact H].
Qed.

(** [checkBoundsY] touches the two indices only. *)
Lemma check_bounds_frame (i : nat) (s : State) :
  mGPXX (check_bounds i s) = mGPXX s
  /\ mGPY (check_bounds i s) = mGPY s
  /\ mMean (check_bounds i s) = mMean s
  /\ mMeanV (check_bounds i s) = mMeanV s
  /\ mFeatM (check_bounds i s) = mFeatM s
  /\ mL (check_bounds i s) = mL s
  /\ mKernel (check_bounds i s) = mKernel s
  /\ mRegularizer (check_bounds i s) = mRegularizer s
  /\ mMu (check_bounds i s) = mMu s
  /\ mS_Mu (check_bounds i s) = mS_Mu s
  /\ mCache (check_bounds i s) = mCache s.
Proof.
  unfold check_bounds.
  destruct (Rlt_dec _ _); [repeat split; reflexivity|].
  destruct (Rlt_dec _ _); repeat split; reflexivity.
Qed.

Lemma mGPXX_check_bounds i (s : State) : mGPXX (check_bounds i s) = mGPXX s.
Proof. apply check_bounds_frame. Qed.
Lemma mGPY_check_bounds i (s : State) : mGPY (check_bounds i s) = mGPY s.
Proof. apply check_bounds_frame. Qed.
Lemma mMean_check_bounds i (s : State) : mMean (check_bounds i s) = mMean s.
Proof. apply check_bounds_frame. Qed.
Lemma mMeanV_check_bounds i (s : State) : mMeanV (check_bounds i s) = mMeanV s.
Proof. apply check_bounds_frame. Qed.
Lemma mFeatM_check_bounds i (s : State) : mFeatM (check_bounds i s) = mFeatM s.
Proof. apply check_bounds_frame. Qed.
Lemma mL_check_bounds i (s : State) : mL (check_bounds i s) = mL s.
Proof. apply check_bounds_frame. Qed.
Lemma mKernel_check_bounds i (s : State) :
  mKernel (check_bounds i s) = mKernel s.
Proof. apply check_bounds_frame. Qed.
Lemma mRegularizer_check_bounds i (s : State) :
  mRegularizer (check_bounds i s) = mRegularizer s.
Proof. apply check_bounds_frame. Qed.
Lemma mCache_check_bounds i (s : State) : mCache (check_bounds i s) = mCache s.
Proof. apply check_bounds_frame. Qed.

(** One step of a call: the rule of the construct at its head, then
    the projections of the state it produced. *)
End SurrogateFrame.

Ltac wp_project :=
  cbn beta iota delta
    [wp_then this world fst snd
     dim_ mRegularizer mMinIndex mMaxIndex mKernel mLearnType mGPXX mGPY
     mMeanV mFeatM mL mMu mS_Mu mMean mCache
     set_mMinIndex set_mMaxIndex set_mKernel set_mLearnType set_mGPXX
     set_mGPY set_mMeanV set_mFeatM set_mL set_mMu set_mS_Mu set_mMean
     set_mCache].

Ltac wp_step :=
  lazymatch goal with
  | |- wp (bind _ _) _ _ => apply wp_bind
  | |- wp (mutate _) _ _ => apply wp_mutate
  | |- wp self _ _ => apply wp_self
  | |- wp (ret _) _ _ => apply wp_ret
  | |- wp abort _ _ => apply wp_abort
  | |- wp exit_ _ _ => apply wp_exit
  | |- wp (throw _) _ _ => apply wp_throw
  | |- wp (assert_ _) _ _ => apply wp_assert
  | |- wp (in_world _) _ _ => apply wp_in_world
  | |- wp (FILE_LOG _) _ _ => apply wp_FILE_LOG
  | |- wp (new_ _) _ _ => apply wp_new
  end;
  wp_project;
  repeat (progress
            rewrite ?mMean_check_bounds, ?mMeanV_check_bounds,
              ?mFeatM_check_bounds, ?mGPXX_check_bounds, ?mGPY_check_bounds,
              ?mL_check_bounds, ?mKernel_check_bounds,
              ?mRegularizer_check_bounds, ?mCache_check_bounds;
          wp_project).

Section Keeping.

Context {KernelObj MeanObj Cache : Type}.

Local Abbreviation State := (NonParametricProcess.State KernelObj MeanObj Cache).

Variable Rel : State -> State -> Prop.
Hypothesis Rel_refl : forall s, Rel s s.
Hypothesis Rel_trans : forall s1 s2 s3, Rel s1 s2 -> Rel s2 s3 -> Rel s1 s3.

Lemma keeps_ret {A} (a : A) : keeps Rel (ret a).
Proof. intro sy. apply wp_ret, Rel_refl. Qed.

Lemma keeps_self : keeps Rel self.
Proof. intro sy. apply wp_self, Rel_refl. Qed.

Lemma keeps_abort {A} : keeps Rel (@abort _ A).
Proof. intro sy. apply wp_abort, Rel_refl. Qed.

Lemma keeps_exit {A} : keeps Rel (@exit_ _ A).
Proof. intro sy. apply wp_exit, Rel_refl. Qed.

Lemma keeps_assert (b : bool) : keeps Rel (assert_ b).
Proof. intro sy. apply wp_assert. destruct b; apply Rel_refl. Qed.

Lemma keeps_in_world {A} (m : Proc World A) : keeps Rel (in_world m).
Proof. intro sy. apply wp_in_world. unfold wp. apply Rel_refl. Qed.

Lemma keeps_mutate (f : State -> State) :
  (forall s, Rel s (f s)) -> keeps Rel (mutate f).
Proof. intros H sy. apply wp_mutate. apply H. Qed.

Lemma keeps_bind {A B} (m : Meth A) (f : A -> Meth B) :
  keeps Rel m -> (forall a, keeps Rel (f a)) -> keeps Rel (bind m f).
Proof.
  intros Hm Hf sy. apply wp_bind.
  eapply wp_consequence; [apply Hm|].
  intros [a|what| |] sy1 H1; cbn [wp_then]; try exact H1.
  eapply wp_consequence; [apply Hf|].
  intros o sy2 H2. eapply Rel_trans; eassumption.
Qed.

Lemma keeps_for_each (l : list nat) (body : nat -> Meth unit) :
  (forall i, keeps Rel (body i)) -> keeps Rel (for_each l body).
Proof.
  intro Hbody. induction l as [|i l IH]; simpl.
  - apply keeps_ret.
  - apply keeps_bind; [apply Hbody | intros _; exact IH].
Qed.

End Keeping.

(** The shape of a member function decides which rule applies; the
    steps that change the state are left to [step]. *)
Ltac keeps_with Hrefl Htrans step :=
  repeat
    lazymatch goal with
    | |- keeps _ (bind _ _) => apply keeps_bind; [exact Htrans | | intros ?]
    | |- keeps _ (mutate _) => apply keeps_mutate; intros ?; step
    | |- keeps _ (ret _) => apply keeps_ret; exact Hrefl
    | |- keeps _ self => apply keeps_self; exact Hrefl
    | |- keeps _ abort => apply keeps_abort; exact Hrefl
    | |- keeps _ exit_ => apply keeps_exit; exact Hrefl
    | |- keeps _ (assert_ _) => apply keeps_assert; exact Hrefl
    | |- keeps _ (in_world _) => apply keeps_in_world; exact Hrefl
    | |- keeps _ (for_each _ _) =>
        apply keeps_for_each; [exact Hrefl | exact Htrans | intros ?]
    | |- keeps _ (match ?x with _ => _ end) => destruct x
    end.

Section SurrogateState.

Context {KernelObj MeanObj Cache : Type}.
Context {kops : KernelOps KernelObj} {mops : MeanOps MeanObj}.

Local Abbreviation State := (NonParametricProcess.State KernelObj MeanObj Cache).
Local Abbreviation Sys := (@NonParametricProcess.Sys KernelObj MeanObj Cache).

Variable cholesky_decompose : matrixd -> matrixd -> Z * matrixd.
Variable cholesky_add_row : matrixd -> vectord -> Z * matrixd.
Variable precomputePrediction_impl : State -> Z * Cache.
Variable updateKernelParameters_impl : State -> Z * KernelModel.t KernelObj.

Lemma bounds_readable_in_range (i : nat) (s : State) :
  (mMinIndex s < length (mGPY s))%nat ->
  (mMaxIndex s < length (mGPY s))%nat ->
  (i < length (mGPY s))%nat ->
  bounds_readable i s = true.
Proof.
  intros Hmin Hmax Hi. unfold bounds_readable, readable.
  apply Nat.ltb_lt in Hmin, Hmax, Hi. rewrite Hmin, Hmax, Hi.
  now destruct (Rlt_dec _ _).
Qed.

(** The comparison leaves each index where it was or moves it to [i]. *)
Lemma check_bounds_indices (i : nat) (s : State) :
  (mMinIndex (check_bounds i s) = mMinIndex s
   \/ mMinIndex (check_bounds i s) = i)
  /\ (mMaxIndex (check_bounds i s) = mMaxIndex s
      \/ mMaxIndex (check_bounds i s) = i).
Proof.
  unfold check_bounds.
  destruct (Rlt_dec _ _); [split; [right|left]; reflexivity|].
  destruct (Rlt_dec _ _); split; auto.
Qed.

(** What [addSample] leaves behind when the mean function is there and
    the two bound indices can be read once the observation is stored. *)
Lemma addSample_run (x : vectord) (y : R) (w : World) (s : State)
    (m : MeanObj) :
  mMean s = Some m ->
  (mMinIndex s <= length (mGPY s))%nat ->
  (mMaxIndex s <= length (mGPY s))%nat ->
  exists s',
    addSample x y (mk_Sys w s) = (Returned tt, mk_Sys w s')
    /\ mGPXX s' = mGPXX s ++ [x]
    /\ mGPY s' = mGPY s ++ [y]
    /\ mMean s' = mMean s
    /\ mL s' = mL s
    /\ mKernel s' = mKernel s
    /\ mRegularizer s' = mRegularizer s
    /\ mCache s' = mCache s.
Proof.
  intros Hm Hmin Hmax.
  apply (wp_returned (addSample x y) (mk_Sys w s) tt
           (fun s' => mGPXX s' = mGPXX s ++ [x]
                      /\ mGPY s' = mGPY s ++ [y]
                      /\ mMean s' = mMean s
                      /\ mL s' = mL s
                      /\ mKernel s' = mKernel s
                      /\ mRegularizer s' = mRegularizer s
                      /\ mCache s' = mCache s)).
  unfold addSample, checkBoundsY, the_mean.
  repeat wp_step.
  rewrite bounds_readable_in_range;
    [ | wp_project; rewrite resize_assign_appends, length_app; simpl; lia .. ].
  repeat wp_step. rewrite Hm. repeat wp_step.
  rewrite resize_assign_appends. repeat split; auto.
Qed.

(** The loop of [setSamples] pushes the rows it is given, in order, and
    touches neither the observations nor the mean function, as long as
    the observations it compares can be read. *)
Lemma setSamples_loop (x : matrixd) (l : list nat) (w : World) (s : State) :
  (forall i, In i l -> (i < length (mGPY s))%nat) ->
  (l <> [] ->
   (mMinIndex s < length (mGPY s))%nat /\ (mMaxIndex s < length (mGPY s))%nat) ->
  exists s',
    for_each l
      (fun i =>
         (mutate (fun s => set_mGPXX (mGPXX s ++ [row x i]) s) ;;
          checkBoundsY i)%proc) (mk_Sys w s)
    = (Returned tt, mk_Sys w s')
    /\ mGPXX s' = mGPXX s ++ map (row x) l
    /\ mGPY s' = mGPY s
    /\ mMean s' = mMean s.
Proof.
  revert s. induction l as [|i l IH]; intros s Hl Hidx.
  - exists s. cbn [for_each map]. rewrite app_nil_r. repeat split.
  - destruct Hidx as [Hmin Hmax]; [discriminate|].
    assert (Hi : (i < length (mGPY s))%nat) by (apply Hl; now left).
    set (s1 := check_bounds i (set_mGPXX (mGPXX s ++ [row x i]) s)).
    assert (HY1 : mGPY s1 = mGPY s)
      by (unfold s1; rewrite mGPY_check_bounds; reflexivity).
    destruct (check_bounds_indices i (set_mGPXX (mGPXX s ++ [row x i]) s))
      as [Hmin1 Hmax1].
    fold s1 in Hmin1, Hmax1. cbn [mMinIndex mMaxIndex set_mGPXX] in Hmin1, Hmax1.
    destruct (IH s1) as [s' [Hrun [HX [HY HM]]]].
    + intros j Hj. rewrite HY1. apply Hl. now right.
    + intros _. rewrite HY1. split.
      * destruct Hmin1 as [-> | ->]; assumption.
      * destruct Hmax1 as [-> | ->]; assumption.
    + exists s'. split; [|split; [|split]].
      * cbn [for_each]. apply wp_equation. unfold checkBoundsY.
        repeat wp_step.
        rewrite bounds_readable_in_range by (wp_project; assumption).
        repeat wp_step. fold s1. eapply wp_of_run; [exact Hrun|]. reflexivity.
      * rewrite HX. unfold s1. rewrite mGPXX_check_bounds.
        cbn [mGPXX set_mGPXX map]. now rewrite <- app_assoc.
      * now rewrite HY.
      * rewrite HM. unfold s1. now rewrite mMean_check_bounds.
Qed.

(** [setSamples] on a surrogate without samples, given as many
    observations as rows, leaves as many points as observations: the state
    [addSample] and [getLastSample] rely on. *)
Lemma setSamples_establishes_lengths (x : matrixd) (y : vectord) (w : World)
    (s : State) (m : MeanObj) :
  mMean s = Some m -> mGPXX s = [] -> size1 x = length y ->
  (size1 x <> 0%nat ->
   (mMinIndex s < length y)%nat /\ (mMaxIndex s < length y)%nat) ->
  exists s',
    setSamples x y (mk_Sys w s) = (Returned tt, mk_Sys w s')
    /\ mGPXX s' = map (row x) (seq 0 (size1 x))
    /\ mGPY s' = y
    /\ length (mGPXX s') = length (mGPY s')
    /\ mMean s' = Some m.
Proof.
  intros Hm HX0 Hsize Hidx.
  destruct (setSamples_loop x (seq 0 (size1 x)) w (set_mGPY y s))
    as [s1 [Hloop [HX [HY HM]]]].
  { intros i Hi. apply in_seq in Hi. cbn [mGPY set_mGPY]. lia. }
  { intro Hne. apply Hidx. intro H0. rewrite H0 in Hne. now apply Hne. }
  cbn [mGPXX mGPY mMean set_mGPY] in HX, HY, HM.
  rewrite HX0 in HX. cbn [app] in HX. rewrite Hm in HM.
  apply (wp_returned (setSamples x y) (mk_Sys w s) tt
           (fun s' => mGPXX s' = map (row x) (seq 0 (size1 x))
                      /\ mGPY s' = y
                      /\ length (mGPXX s') = length (mGPY s')
                      /\ mMean s' = Some m)).
  unfold setSamples, the_mean.
  repeat wp_step. eapply wp_of_run; [exact Hloop|]. wp_project.
  repeat wp_step. rewrite HM. repeat wp_step.
  rewrite HX, HY, length_map, length_seq. repeat split; assumption.
Qed.

(** [getLastSample] on a state whose two containers have one length and
    end in [x] and [y]. *)
Lemma getLastSample_run (w : World) (s : State) (X : vecOfvec) (Y : vectord)
    (x : vectord) (y : R) :
  mGPXX s = X ++ [x] -> mGPY s = Y ++ [y] -> length X = length Y ->
  getLastSample (mk_Sys w s) = (Returned (x, y), mk_Sys w s).
Proof.
  intros HX HY Hlen.
  cbv beta iota delta [getLastSample bind self ret abort this].
  rewrite HX, HY, length_app. cbv zeta. change (length [y]) with 1%nat.
  replace (length Y + 1 - 1)%nat with (length Y) by lia.
  rewrite (nth_error_app2 X [x]) by lia.
  rewrite (nth_error_app2 Y [y]) by lia.
  rewrite Hlen, Nat.sub_diag. reflexivity.
Qed.

(** [getSample] below the old size reads what it read before the
    containers grew. *)
Lemma getSample_after_growth (w : World) (s s' : State) (i : nat)
    (x : vectord) (y : R) (tx : vecOfvec) (ty : vectord) :
  mGPXX s' = mGPXX s ++ tx -> mGPY s' = mGPY s ++ ty ->
  getSample i (mk_Sys w s) = (Returned (x, y), mk_Sys w s) ->
  getSample i (mk_Sys w s') = (Returned (x, y), mk_Sys w s').
Proof.
  intros HX HY.
  cbv beta iota delta [getSample bind self ret abort this].
  rewrite HX, HY.
  destruct (nth_error (mGPXX s) i) as [xi|] eqn:Ex; [|discriminate].
  destruct (nth_error (mGPY s) i) as [yi|] eqn:Ey; [|discriminate].
  intro H. injection H as -> ->.
  assert (Hi : (i < length (mGPXX s))%nat)
    by (apply nth_error_Some; congruence).
  assert (Hj : (i < length (mGPY s))%nat)
    by (apply nth_error_Some; congruence).
  rewrite (nth_error_app1 _ _ Hi), (nth_error_app1 _ _ Hj), Ex, Ey.
  reflexivity.
Qed.

Lemma points_kept_refl (s : State) : points_kept s s.
Proof. exists []. now rewrite app_nil_r. Qed.

Lemma points_kept_trans (s1 s2 s3 : State) :
  points_kept s1 s2 -> points_kept s2 s3 -> points_kept s1 s3.
Proof.
  intros [t1 H1] [t2 H2]. exists (t1 ++ t2). now rewrite H2, H1, app_assoc.
Qed.

Lemma samples_kept_refl (s : State) : samples_kept s s.
Proof. split; exists []; now rewrite app_nil_r. Qed.

Lemma samples_kept_trans (s1 s2 s3 : State) :
  samples_kept s1 s2 -> samples_kept s2 s3 -> samples_kept s1 s3.
Proof.
  intros [[t1 H1] [u1 G1]] [[t2 H2] [u2 G2]]. split.
  - exists (t1 ++ t2). now rewrite H2, H1, app_assoc.
  - exists (u1 ++ u2). now rewrite G2, G1, app_assoc.
Qed.

Ltac kept_step :=
  unfold samples_kept, points_kept, observations_kept;
  wp_project;
  rewrite ?mGPXX_check_bounds, ?mGPY_check_bounds, ?resize_assign_appends;
  repeat split;
  first [ exists []; now rewrite app_nil_r | eexists; reflexivity ].

Local Abbreviation exec :=
  (NonParametricProcess.exec cholesky_decompose cholesky_add_row
     precomputePrediction_impl updateKernelParameters_impl).

Create HintDb methods discriminated.

#[local] Hint Unfold NonParametricProcess.exec setSamples addSample getSample
  getLastSample setMean_params setMean addNewPointToCholesky
  computeCholeskyCorrelation computeCorrMatrix precomputeSurrogate
  fitSurrogateModel fitSurrogateModel_sample updateSurrogateModel
  assert_dimension precomputePrediction updateKernelParameters
  checkBoundsY the_mean the_kernel KernelModel.computeCorrMatrix
  computeCorrMatrix_new computeDerivativeCorrMatrix
  NonParametricProcess.computeCrossCorrelation
  NonParametricProcess.computeSelfCorrelation
  KernelModel.computeDerivativeCorrMatrix : methods.

Ltac unfold_methods := repeat (progress autounfold with methods).

(** No member function removes or moves a sample point. *)
Lemma exec_keeps_points (op : Op) : keeps points_kept (exec op).
Proof.
  destruct op; unfold_methods;
    keeps_with points_kept_refl points_kept_trans kept_step.
Qed.

(** Apart from [setSamples], which installs the observation vector it is
    given, no member function removes or changes an observation. *)
Lemma exec_keeps_samples (op : Op) :
  is_setSamples op = false -> keeps samples_kept (exec op).
Proof.
  destruct op; intro Hop; try discriminate Hop; unfold_methods;
    keeps_with samples_kept_refl samples_kept_trans kept_step.
Qed.

(** C9 (as the code has it). On a surrogate whose two sample containers
    have one length, whose mean function is set and whose two bound
    indices do not exceed that length, [addSample(x, y)] returns,
    increases the number of stored samples by exactly one, leaves every
    stored pair where [getSample] found it, and makes [getLastSample]
    return [(x, y)].  Moreover no member function, whatever its outcome,
    removes or moves a sample point; none but [setSamples], which
    replaces the observation vector by the one it is given, removes or
    changes an observation. *)
Theorem addSample_appends_and_nothing_removes
    (x : vectord) (y : R) (w : World) (s : State) :
  length (mGPXX s) = length (mGPY s) ->
  mMean s <> None ->
  (mMinIndex s <= length (mGPY s))%nat ->
  (mMaxIndex s <= length (mGPY s))%nat ->
  (exists s',
     addSample x y (mk_Sys w s) = (Returned tt, mk_Sys w s')
     /\ mGPXX s' = mGPXX s ++ [x]
     /\ mGPY s' = mGPY s ++ [y]
     /\ length (mGPXX s') = S (length (mGPXX s))
     /\ length (mGPY s') = S (length (mGPY s))
     /\ (forall i xi yi,
           getSample i (mk_Sys w s) = (Returned (xi, yi), mk_Sys w s) ->
           getSample i (mk_Sys w s') = (Returned (xi, yi), mk_Sys w s'))
     /\ getLastSample (mk_Sys w s') = (Returned (x, y), mk_Sys w s'))
  /\ (forall op sy,
        points_kept (this sy) (this (snd (exec op sy)))
        /\ (is_setSamples op = false ->
            samples_kept (this sy) (this (snd (exec op sy))))).
Proof.
  intros Hlen Hmean Hmin Hmax. split.
  - destruct (mMean s) as [m|] eqn:Hm; [|contradiction].
    destruct (addSample_run x y w s m Hm Hmin Hmax)
      as [s' [Hrun [HX [HY _]]]].
    exists s'. split; [exact Hrun|]. split; [exact HX|]. split; [exact HY|].
    split; [rewrite HX, length_app; simpl; lia|].
    split; [rewrite HY, length_app; simpl; lia|].
    split.
    + intros i xi yi. now apply getSample_after_growth with [x] [y].
    + now apply getLastSample_run with (mGPXX s) (mGPY s).
  - intros op sy. split.
    + apply (exec_keeps_points op sy).
    + intro Hop. apply (exec_keeps_samples op Hop sy).
Qed.

End SurrogateState.

Lemma addSample_appends_witness :
  exists s',
    addSample (mops := Concrete.mean_ops) [2] 5
      (mk_Sys Concrete.empty_world Concrete.two_samples)
    = (Returned tt, mk_Sys Concrete.empty_world s')
    /\ mGPXX s' = [[0]; [1]; [2]]
    /\ mGPY s' = [0; 1; 5]
    /\ getLastSample (mk_Sys Concrete.empty_world s')
       = (Returned ([2], 5), mk_Sys Concrete.empty_world s').
Proof.
  destruct (addSample_appends_and_nothing_removes
              (kops := Concrete.kernel_ops) (mops := Concrete.mean_ops)
              cholesky.cholesky_decompose cholesky.cholesky_add_row
              Concrete.precompute_ok Concrete.keep_kernel
              [2] 5 Concrete.empty_world Concrete.two_samples)
    as [[s' [Hrun [HX [HY [_ [_ [_ Hlast]]]]]]] _].
  - reflexivity.
  - discriminate.
  - simpl. lia.
  - simpl. lia.
  - exists s'. repeat split; assumption.
Defined.

(** C9 refuted as stated: on the two-sample surrogate, [setSamples] with
    no rows and the observation vector [(7)] returns and leaves one
    observation for two sample points: the observation [getSample(1)]
    returned is gone.  [addSample((9), 4)] on that surrogate returns, and
    [getLastSample] then returns [((1), 4)], not [((9), 4)]. *)
Lemma setSamples_removes_an_observation :
  getSample (KernelObj := Kernel) (MeanObj := R) (Cache := unit) 1
    (mk_Sys Concrete.empty_world Concrete.two_samples)
  = (Returned ([1], 1), mk_Sys Concrete.empty_world Concrete.two_samples)
  /\ exists s1 s2,
       setSamples (mops := Concrete.mean_ops)
         (mk_matrixd 0 1 (fun _ _ => 0)) [7]
         (mk_Sys Concrete.empty_world Concrete.two_samples)
       = (Returned tt, mk_Sys Concrete.empty_world s1)
       /\ mGPXX s1 = [[0]; [1]] /\ mGPY s1 = [7]
       /\ fst (getSample 1 (mk_Sys Concrete.empty_world s1)) = Aborted
       /\ addSample (mops := Concrete.mean_ops) [9] 4
            (mk_Sys Concrete.empty_world s1)
          = (Returned tt, mk_Sys Concrete.empty_world s2)
       /\ getLastSample (mk_Sys Concrete.empty_world s2)
          = (Returned ([1], 4), mk_Sys Concrete.empty_world s2).
Proof.
  split; [reflexivity|].
  eexists. 
  assert (Hset :
    setSamples (mops := Concrete.mean_ops)
      (mk_matrixd 0 1 (fun _ _ => 0)) [7]
      (mk_Sys Concrete.empty_world Concrete.two_samples)
    = (Returned tt, mk_Sys Concrete.empty_world _)) by reflexivity.
  match type of Hset with
  | _ = (_, mk_Sys _ ?s1) =>
      destruct (addSample_run (mops := Concrete.mean_ops) [9] 4
                  Concrete.empty_world s1 0 eq_refl)
        as (s2 & Hadd & HX & HY & _)
  end.
  - simpl. lia.
  - simpl. lia.
  - exists s2. split; [exact Hset|]. split; [reflexivity|].
    split; [reflexivity|]. split; [reflexivity|]. split; [exact Hadd|].
    cbv beta iota delta [getLastSample bind self ret abort this].
    rewrite HX, HY. reflexivity.
Qed.

(* ------------------------------------------------------------------ *)
(** ** The mean function and its coefficients *)

Section SetMean.

Context {KernelObj MeanObj Cache : Type}.
Context {mops : MeanOps MeanObj}.

Local Abbreviation State := (NonParametricProcess.State KernelObj MeanObj Cache).

(** C10. Whenever the mean factory returns (an object or the null
    pointer), [setMean] returns and has installed: for "mZero" the
    coefficient vector (0) with deviation 1e-10, for "mOne" the vector (1)
    with deviation 1e-10, whatever [muv] and [smu] are; for every other
    name the vectors [muv] and [smu] it was given. *)
Theorem setMean_installs_coefficients
    (muv smu : vectord) (m_name : string) (dim : nat)
    (w w' : World) (s : State) (m : option MeanObj) :
  mean_create m_name dim w = (Returned m, w') ->
  exists e s',
    setMean muv smu m_name dim (mk_Sys w s) = (Returned e, mk_Sys w' s')
    /\ (m_name = "mZero"%string -> mMu s' = [0] /\ mS_Mu s' = [1e-10])
    /\ (m_name = "mOne"%string -> mMu s' = [1] /\ mS_Mu s' = [1e-10])
    /\ (m_name <> "mZero"%string -> m_name <> "mOne"%string ->
        mMu s' = muv /\ mS_Mu s' = smu).
Proof.
  intro Hcreate.
  unfold setMean.
  cbv beta iota delta [bind in_world world this]. rewrite Hcreate.
  destruct (String.eqb_spec "mZero" m_name) as [E0|E0];
    [|destruct (String.eqb_spec "mOne" m_name) as [E1|E1]];
    cbv beta iota delta [bind mutate self ret world this];
    wp_project;
    (destruct m as [mo|]; [destruct (setParameters mo _) as [e mo']|]);
    do 2 eexists; (split; [reflexivity|]); wp_project;
    repeat split; try reflexivity; intros; subst;
    try discriminate; try congruence.
Qed.

End SetMean.

Lemma setMean_installs_witness :
  exists e s',
    setMean (mops := Concrete.mean_ops) [7] [3] "mZero" 1
      (mk_Sys Concrete.empty_world Concrete.two_samples)
    = (Returned e, mk_Sys Concrete.empty_world s')
    /\ mMu s' = [0] /\ mS_Mu s' = [1e-10].
Proof.
  destruct (setMean_installs_coefficients (mops := Concrete.mean_ops)
              [7] [3] "mZero" 1 Concrete.empty_world Concrete.empty_world
              Concrete.two_samples (Some 0) eq_refl)
    as [e [s' [Hrun [Hzero _]]]].
  exists e, s'. split; [exact Hrun|]. exact (Hzero eq_refl).
Defined.

(* ------------------------------------------------------------------ *)
(** ** Fitting the surrogate *)

Section Fit.

Context {KernelObj MeanObj Cache : Type}.
Context {kops : KernelOps KernelObj} {mops : MeanOps MeanObj}.

Local Abbreviation State := (NonParametricProcess.State KernelObj MeanObj Cache).
Local Abbreviation Sys := (@NonParametricProcess.Sys KernelObj MeanObj Cache).

Variable cholesky_decompose : matrixd -> matrixd -> Z * matrixd.
Variable precomputePrediction_impl : State -> Z * Cache.
Variable updateKernelParameters_impl : State -> Z * KernelModel.t KernelObj.

Local Abbreviation status := (decomposition_status cholesky_decompose).

(** [computeCholeskyCorrelation] returns the status of the decomposition
    and touches the factor only. *)
Lemma computeCholeskyCorrelation_run (w : World) (s : State) (e : Z) :
  status s = Some e ->
  exists L,
    computeCholeskyCorrelation cholesky_decompose (mk_Sys w s)
    = (Returned e, mk_Sys w (set_mL L s)).
Proof.
  unfold decomposition_status, regularised_corr_matrix.
  destruct (KernelModel.mKernel (mKernel s)) as [k|] eqn:Hk; [|discriminate].
  intro He. injection He as He.
  unfold computeCholeskyCorrelation, computeCorrMatrix, the_kernel.
  cbv beta iota delta [bind mutate self ret world this]. wp_project.
  rewrite Hk. cbv beta iota.
  rewrite computeCorrMatrix_returns by reflexivity.
  cbv beta iota. wp_project.
  destruct (cholesky_decompose _ _) as [e0 L]. simpl in He. subst e0.
  exists L. reflexivity.
Qed.

(** A failed decomposition ends the process in [precomputeSurrogate],
    after one line of log. *)
Lemma precomputeSurrogate_exits (w : World) (s : State) (e : Z) :
  status s = Some e -> e <> 0%Z ->
  exists L,
    precomputeSurrogate cholesky_decompose precomputePrediction_impl
      (mk_Sys w s)
    = (Exited,
       mk_Sys (mk_World
                 (log_lines w ++ ["Error computing the correlation matrix"%string])
                 (live_objects w))
         (set_mL L s)).
Proof.
  intros Hs He.
  destruct (computeCholeskyCorrelation_run w s e Hs) as [L HL].
  exists L. unfold precomputeSurrogate.
  unfold bind at 1. rewrite HL.
  destruct (Z.eqb_spec e 0) as [E|E]; [contradiction|].
  reflexivity.
Qed.

End Fit.

(* ------------------------------------------------------------------ *)
(** ** The Cholesky factor of a duplicated sample *)

Lemma cholesky_add_row_fails (L : matrixd) (v : vectord) :
  cholesky.pivot L v <= 0 ->
  cholesky.cholesky_add_row L v = (1%Z, cholesky.append_entries L v).
Proof.
  intro H. unfold cholesky.cholesky_add_row.
  destruct (Rle_dec (cholesky.pivot L v) 0); [reflexivity | contradiction].
Qed.

Lemma cholesky_add_row_succeeds (L : matrixd) (v : vectord) :
  0 < cholesky.pivot L v ->
  cholesky.cholesky_add_row L v =
  (0%Z, ublas.massign (size1 L) (size1 L) (sqrt (cholesky.pivot L v))
          (cholesky.append_entries L v)).
Proof.
  intro H. unfold cholesky.cholesky_add_row.
  destruct (Rle_dec (cholesky.pivot L v) 0); [lra | reflexivity].
Qed.

(** A matrix whose leading two by two block is all ones is rejected at
    its second row. *)
Lemma decompose_rows_duplicate (K : matrixd) :
  coef K 0 0 = 1 -> coef K 1 0 = 1 -> coef K 1 1 = 1 ->
  fst (cholesky.decompose_rows K 2) = 2%Z.
Proof.
  intros H00 H10 H11.
  assert (P0 : cholesky.pivot (ublas.fresh 0 0) [coef K 0 0] = 1).
  { unfold cholesky.pivot, cholesky.append_entries, ublas.at_. simpl.
    rewrite H00. ring. }
  assert (R1 : cholesky.decompose_rows K 1 =
               (0%Z, ublas.massign 0 0 (sqrt 1)
                       (cholesky.append_entries (ublas.fresh 0 0)
                          [coef K 0 0]))).
  { change (cholesky.decompose_rows K 1) with
      (let (e', L') := cholesky.cholesky_add_row (ublas.fresh 0 0)
                         [coef K 0 0] in
       if (e' =? 0)%Z then (0%Z, L') else (Z.of_nat 1, L')).
    rewrite cholesky_add_row_succeeds by (rewrite P0; lra).
    rewrite P0. reflexivity. }
  change (cholesky.decompose_rows K 2) with
    (let (e, L) := cholesky.decompose_rows K 1 in
     if (e =? 0)%Z then
       let (e', L') := cholesky.cholesky_add_row L
                         [coef K 1 0; coef K 1 1] in
       if (e' =? 0)%Z then (0%Z, L') else (Z.of_nat 2, L')
     else (e, L)).
  rewrite R1. cbv beta iota. simpl Z.eqb. cbv iota.
  rewrite cholesky_add_row_fails; [reflexivity|].
  unfold cholesky.pivot, cholesky.append_entries, ublas.at_. simpl.
  rewrite H10, H11, sqrt_1. lra.
Qed.

Section FitOutcome.

Context {KernelObj MeanObj Cache : Type}.
Context {kops : KernelOps KernelObj}.

Local Abbreviation State := (NonParametricProcess.State KernelObj MeanObj Cache).

Variable cholesky_decompose : matrixd -> matrixd -> Z * matrixd.
Variable precomputePrediction_impl : State -> Z * Cache.
Variable updateKernelParameters_impl : State -> Z * KernelModel.t KernelObj.

Local Abbreviation status := (decomposition_status cholesky_decompose).
Local Abbreviation after_update :=
  (after_kernel_update updateKernelParameters_impl).

Lemma fitSurrogateModel_exits (w : World) (s : State) (e : Z) :
  status (after_update s) = Some e -> e <> 0%Z ->
  exists L,
    fitSurrogateModel cholesky_decompose precomputePrediction_impl
      updateKernelParameters_impl (mk_Sys w s)
    = (Exited,
       mk_Sys (mk_World
                 (log_lines w ++ ["Error computing the correlation matrix"%string])
                 (live_objects w))
         (set_mL L (after_update s))).
Proof.
  intros Hs He.
  destruct (precomputeSurrogate_exits cholesky_decompose
              precomputePrediction_impl w (after_update s) e Hs He)
    as [L HL].
  exists L. unfold fitSurrogateModel, updateKernelParameters.
  unfold after_kernel_update in *.
  cbv beta iota delta [bind mutate self ret world this] in *.
  destruct (updateKernelParameters_impl s) as [e0 km].
  cbv beta iota delta [bind mutate self ret world this snd] in *.
  rewrite HL. reflexivity.
Qed.

(** C2 (as the code has it). When [cholesky_decompose] reports a failure
    for the regularised correlation matrix of the samples, neither
    [precomputeSurrogate] nor [fitSurrogateModel] returns to its caller:
    each writes "Error computing the correlation matrix" to the log and
    ends the process with [exit]. *)
Theorem fit_failure_ends_the_process (w : World) (s : State) :
  (forall e, status s = Some e -> e <> 0%Z ->
     exists sy',
       precomputeSurrogate cholesky_decompose precomputePrediction_impl
         (mk_Sys w s) = (Exited, sy')
       /\ log_lines (world sy') =
          log_lines w ++ ["Error computing the correlation matrix"%string])
  /\ (forall e, status (after_update s) = Some e -> e <> 0%Z ->
        exists sy',
          fitSurrogateModel cholesky_decompose precomputePrediction_impl
            updateKernelParameters_impl (mk_Sys w s) = (Exited, sy')
          /\ log_lines (world sy') =
             log_lines w ++ ["Error computing the correlation matrix"%string]).
Proof.
  split; intros e Hs He.
  - destruct (precomputeSurrogate_exits cholesky_decompose
                precomputePrediction_impl w s e Hs He) as [L HL].
    eexists. split; [exact HL | reflexivity].
  - destruct (fitSurrogateModel_exits w s e Hs He) as [L HL].
    eexists. split; [exact HL | reflexivity].
Qed.

End FitOutcome.

(** The correlation matrix of the duplicated sample is all ones. *)
Lemma duplicate_samples_matrix (i j : nat) :
  (i < 2)%nat -> (j < 2)%nat ->
  coef (regularised_corr_matrix (operator_call (KSEIso 1))
          Concrete.duplicate_samples) i j = 1.
Proof.
  intros Hi Hj. unfold regularised_corr_matrix.
  change (mGPXX Concrete.duplicate_samples) with [[0]; [0]].
  change (mRegularizer Concrete.duplicate_samples) with 0.
  rewrite rows_loop_entries by (simpl; lia).
  assert (Hk : operator_call (KSEIso 1) [0] [0] = 1)
    by apply operator_call_self.
  destruct i as [|[|i]]; destruct j as [|[|j]]; try lia;
    cbn [KernelModel.sample nth Nat.eqb Nat.ltb Nat.leb];
    rewrite Hk; ring.
Qed.

Lemma duplicate_samples_status :
  decomposition_status (kops := Concrete.kernel_ops)
    cholesky.cholesky_decompose Concrete.duplicate_samples = Some 2%Z.
Proof.
  unfold decomposition_status. simpl KernelModel.mKernel. cbv iota.
  f_equal. unfold cholesky.cholesky_decompose.
  change (@evaluate _ Concrete.kernel_ops (KSEIso 1))
    with (operator_call (KSEIso 1)).
  set (K := regularised_corr_matrix _ _).
  assert (Hsize : size1 K = 2%nat).
  { unfold K, regularised_corr_matrix.
    rewrite (proj1 (rows_loop_sizes _ _ _ _ _)). reflexivity. }
  assert (HK : forall i j, (i < 2)%nat -> (j < 2)%nat -> coef K i j = 1)
    by (intros; apply duplicate_samples_matrix; assumption).
  clearbody K. rewrite Hsize.
  pose proof (decompose_rows_duplicate K
                (HK 0%nat 0%nat ltac:(lia) ltac:(lia))
                (HK 1%nat 0%nat ltac:(lia) ltac:(lia))
                (HK 1%nat 1%nat ltac:(lia) ltac:(lia))) as H.
  destruct (cholesky.decompose_rows K 2) as [e L]. exact H.
Qed.

Lemma fit_failure_witness :
  exists sy',
    precomputeSurrogate (kops := Concrete.kernel_ops)
      cholesky.cholesky_decompose Concrete.precompute_ok
      (mk_Sys Concrete.empty_world Concrete.duplicate_samples) = (Exited, sy')
    /\ log_lines (world sy') =
       ["Error computing the correlation matrix"%string].
Proof.
  exact (proj1 (fit_failure_ends_the_process (kops := Concrete.kernel_ops)
                  cholesky.cholesky_decompose Concrete.precompute_ok
                  Concrete.keep_kernel
                  Concrete.empty_world Concrete.duplicate_samples)
           2%Z duplicate_samples_status ltac:(discriminate)).
Defined.

(** C2 refuted as stated: for the sample set [(0), (0)] with a zero
    nugget the regularised correlation matrix is not positive definite,
    and the fit does not return a failure code: it ends the process. *)
Lemma fit_exits_on_duplicate_samples :
  ~ positive_definite
      (regularised_corr_matrix (operator_call (KSEIso 1))
         Concrete.duplicate_samples)
  /\ fst (precomputeSurrogate (kops := Concrete.kernel_ops)
            cholesky.cholesky_decompose Concrete.precompute_ok
            (mk_Sys Concrete.empty_world Concrete.duplicate_samples))
     = Exited
  /\ fst (fitSurrogateModel (kops := Concrete.kernel_ops)
            cholesky.cholesky_decompose Concrete.precompute_ok
            Concrete.keep_kernel
            (mk_Sys Concrete.empty_world Concrete.duplicate_samples))
     = Exited.
Proof.
  split; [|split].
  - intro Hpd.
    set (K := regularised_corr_matrix _ _) in *.
    assert (Hs1 : size1 K = 2%nat).
    { unfold K, regularised_corr_matrix.
      rewrite (proj1 (rows_loop_sizes _ _ _ _ _)). reflexivity. }
    assert (Hs2 : size2 K = 2%nat).
    { unfold K, regularised_corr_matrix.
      rewrite (proj2 (rows_loop_sizes _ _ _ _ _)). reflexivity. }
    assert (HK : forall i j, (i < 2)%nat -> (j < 2)%nat -> coef K i j = 1)
      by (intros; apply duplicate_samples_matrix; assumption).
    clearbody K.
    assert (Hq : quadratic_form K [1; -1] = 0).
    { unfold quadratic_form. rewrite Hs1, Hs2.
      cbn [cholesky.sum_upto]. unfold ublas.at_. cbn [nth].
      rewrite !HK by lia. ring. }
    assert (Hpos : 0 < quadratic_form K [1; -1]).
    { apply Hpd; [now rewrite Hs1|].
      exists 0%nat. unfold ublas.at_. cbn [nth]. lra. }
    lra.
  - destruct (precomputeSurrogate_exits (kops := Concrete.kernel_ops)
                cholesky.cholesky_decompose Concrete.precompute_ok
                Concrete.empty_world Concrete.duplicate_samples 2%Z
                duplicate_samples_status ltac:(discriminate)) as [L HL].
    now rewrite HL.
  - destruct (fitSurrogateModel_exits (kops := Concrete.kernel_ops)
                cholesky.cholesky_decompose Concrete.precompute_ok
                Concrete.keep_kernel
                Concrete.empty_world Concrete.duplicate_samples 2%Z
                duplicate_samples_status ltac:(discriminate)) as [L HL].
    now rewrite HL.
Qed.

(* ------------------------------------------------------------------ *)
(** ** Updating the surrogate with one sample *)

Section Update.

Context {KernelObj MeanObj Cache : Type}.
Context {kops : KernelOps KernelObj} {mops : MeanOps MeanObj}.

Local Abbreviation State := (NonParametricProcess.State KernelObj MeanObj Cache).

Variable cholesky_add_row : matrixd -> vectord -> Z * matrixd.
Variable precomputePrediction_impl : State -> Z * Cache.

(** [updateSurrogateModel] step by step, once its assertion holds and the
    kernel and the mean function are there: the sample is added, the
    factor becomes whatever [cholesky_add_row] left, the prediction is
    recomputed, and only a negative error of that last step is looked at. *)
Lemma updateSurrogateModel_run (w : World) (s : State)
    (Xnew : vectord) (Ynew : R) (x1 : vectord) (k : KernelObj) (m : MeanObj) :
  nth_error (mGPXX s) 1 = Some x1 ->
  length x1 = length Xnew ->
  KernelModel.mKernel (mKernel s) = Some k ->
  mMean s = Some m ->
  (mMinIndex s <= length (mGPY s))%nat ->
  (mMaxIndex s <= length (mGPY s))%nat ->
  exists s1,
    addSample Xnew Ynew (mk_Sys w s) = (Returned tt, mk_Sys w s1)
    /\ mGPXX s1 = mGPXX s ++ [Xnew]
    /\ mGPY s1 = mGPY s ++ [Ynew]
    /\ let s2 := set_mL (snd (cholesky_add_row (mL s) (new_row k s Xnew))) s1 in
       let s3 := set_mCache (snd (precomputePrediction_impl s2)) s2 in
       updateSurrogateModel cholesky_add_row precomputePrediction_impl
         Xnew Ynew (mk_Sys w s)
       = if (fst (precomputePrediction_impl s2) <? 0)%Z
         then (Exited,
               mk_Sys (mk_World
                         (log_lines w ++
                          ["Error pre-computing the prediction distribution"%string])
                         (live_objects w)) s3)
         else (Returned 0%Z, mk_Sys w s3).
Proof.
  intros Hx1 Hdim Hk Hm Hmin Hmax.
  destruct (addSample_run Xnew Ynew w s m Hm Hmin Hmax)
    as [s1 [Hadd [HX [HY [_ [HL _]]]]]].
  exists s1. split; [exact Hadd|]. split; [exact HX|]. split; [exact HY|].
  cbv zeta. apply wp_equation.
  unfold updateSurrogateModel, assert_dimension,
    NonParametricProcess.computeCrossCorrelation,
    NonParametricProcess.computeSelfCorrelation, the_kernel,
    addNewPointToCholesky, precomputePrediction.
  repeat wp_step. rewrite Hx1. repeat wp_step.
  rewrite Hdim, Nat.eqb_refl. repeat wp_step.
  rewrite Hk. repeat wp_step.
  rewrite Hk. repeat wp_step.
  eapply wp_of_run; [exact Hadd|]. wp_project. repeat wp_step.
  rewrite HL. fold (new_row k s Xnew).
  destruct (precomputePrediction_impl _) as [e c]. repeat wp_step.
  destruct (Z.ltb_spec e 0); repeat wp_step; reflexivity.
Qed.

(** Once its dimension assertion holds, the kernel and the mean function
    are there and the bound indices can be read, [updateSurrogateModel]
    adds the sample and keeps as factor whatever [cholesky_add_row] left:
    the status of the rank-one append is never looked at.  The call
    returns 0 with the log untouched, unless the prediction step reports a
    negative error; then it writes one line to the log and ends the
    process. *)
Lemma update_drops_append_status (w : World) (s : State)
    (Xnew : vectord) (Ynew : R) (x1 : vectord) (k : KernelObj) (m : MeanObj) :
  nth_error (mGPXX s) 1 = Some x1 ->
  length x1 = length Xnew ->
  KernelModel.mKernel (mKernel s) = Some k ->
  mMean s = Some m ->
  (mMinIndex s <= length (mGPY s))%nat ->
  (mMaxIndex s <= length (mGPY s))%nat ->
  exists s2,
    mL s2 = snd (cholesky_add_row (mL s) (new_row k s Xnew))
    /\ mGPXX s2 = mGPXX s ++ [Xnew]
    /\ mGPY s2 = mGPY s ++ [Ynew]
    /\ updateSurrogateModel cholesky_add_row precomputePrediction_impl
         Xnew Ynew (mk_Sys w s)
       = let s3 := set_mCache (snd (precomputePrediction_impl s2)) s2 in
         if (fst (precomputePrediction_impl s2) <? 0)%Z
         then (Exited,
               mk_Sys (mk_World
                         (log_lines w ++
                          ["Error pre-computing the prediction distribution"%string])
                         (live_objects w)) s3)
         else (Returned 0%Z, mk_Sys w s3).
Proof.
  intros Hx1 Hdim Hk Hm Hmin Hmax.
  destruct (updateSurrogateModel_run w s Xnew Ynew x1 k m Hx1 Hdim Hk Hm
              Hmin Hmax)
    as [s1 [_ [HX [HY Hrun]]]].
  exists (set_mL (snd (cholesky_add_row (mL s) (new_row k s Xnew))) s1).
  split; [reflexivity|]. split; [exact HX|]. split; [exact HY|].
  exact Hrun.
Qed.

End Update.

Lemma SEIso_unit_distance :
  operator_call (KSEIso 1) [1] [0] = exp (- (1 / 2)).
Proof.
  simpl. unfold SEIso.operator_call, ISOkernel.computeScaledNorm2.
  replace (ublas.norm_2 (ublas.minus [1] [0]) / 1
           * (ublas.norm_2 (ublas.minus [1] [0]) / 1))
    with (ublas.norm_2 (ublas.minus [1] [0])
          * ublas.norm_2 (ublas.minus [1] [0])) by field.
  rewrite norm_2_squared. simpl. f_equal. field.
Qed.

Lemma exp_minus_half_bounds : 0 < exp (- (1 / 2)) < 1.
Proof.
  split; [apply exp_pos|].
  apply Rlt_le_trans with (exp 0);
    [apply exp_increasing; lra | rewrite exp_0; lra].
Qed.

(** The factor stored in [two_samples] is the Cholesky factor of their
    regularised correlation matrix: lower triangular, with a positive
    diagonal, and [L L' = K]. *)
Lemma two_samples_factor_is_cholesky (i j : nat) :
  (i < 2)%nat -> (j < 2)%nat ->
  cholesky.sum_upto 2
    (fun c => coef Concrete.two_samples_factor i c
              * coef Concrete.two_samples_factor j c)
  = coef (regularised_corr_matrix (operator_call (KSEIso 1))
            Concrete.two_samples) i j
  /\ 0 < coef Concrete.two_samples_factor i i
  /\ ((i < j)%nat -> coef Concrete.two_samples_factor i j = 0).
Proof.
  intros Hi Hj.
  pose proof exp_minus_half_bounds as [He0 He1].
  assert (Hd : 0 < 1 - exp (- (1 / 2)) * exp (- (1 / 2))).
  { assert (exp (- (1 / 2)) * exp (- (1 / 2)) < 1 * 1)
      by (apply Rmult_le_0_lt_compat; lra).
    lra. }
  split; [|split].
  - unfold regularised_corr_matrix.
    change (mGPXX Concrete.two_samples) with [[0]; [1]].
    change (mRegularizer Concrete.two_samples) with 0.
    rewrite rows_loop_entries by (simpl; lia).
    destruct i as [|[|i]]; destruct j as [|[|j]]; try lia;
      cbn [KernelModel.sample nth Nat.eqb Nat.ltb Nat.leb cholesky.sum_upto
           coef Concrete.two_samples_factor];
      rewrite ?operator_call_self, ?SEIso_unit_distance; try ring.
    rewrite sqrt_sqrt by lra. ring.
  - destruct i as [|[|i]]; try lia; cbn [coef Concrete.two_samples_factor];
      [lra | now apply sqrt_lt_R0].
  - intro Hij. destruct i as [|[|i]]; destruct j as [|[|j]]; try lia.
    reflexivity.
Qed.

(** Appending the first sample once more to the factor of the two
    samples leaves no positive pivot. *)
Lemma duplicate_append_pivot :
  cholesky.pivot (mL Concrete.two_samples)
    (new_row (kops := Concrete.kernel_ops) (KSEIso 1)
       Concrete.two_samples [0]) <= 0.
Proof.
  unfold new_row. rewrite append_appends.
  change (@evaluate _ Concrete.kernel_ops (KSEIso 1))
    with (operator_call (KSEIso 1)).
  unfold KernelModel.computeCrossCorrelation,
    KernelModel.computeSelfCorrelation.
  change (mGPXX Concrete.two_samples) with [[0]; [1]].
  change (mRegularizer Concrete.two_samples) with 0.
  cbn [map app].
  rewrite (operator_call_self (KSEIso 1) [0]), SEIso_unit_distance.
  unfold cholesky.pivot, cholesky.append_entries, ublas.at_.
  change (size1 (mL Concrete.two_samples)) with 2%nat.
  cbn [for_loop cholesky.sum_upto nth].
  cbn [coef ublas.massign ublas.mresize Nat.eqb andb mL size1 size2
       Concrete.two_samples Concrete.two_samples_factor].
  set (e := exp (- (1 / 2))). set (d := sqrt (1 - e * e)).
  assert (H0 : e - (0 + e * ((1 - 0) / 1)) = 0) by field.
  rewrite H0. unfold Rdiv at 2 3. rewrite Rmult_0_l. lra.
Qed.

(** C3. On the surrogate with the samples 0 and 1 (zero nugget), whose
    factor is the Cholesky factor of their correlation matrix, adding the
    point 0 a second time makes the rank-one append lose positive
    definiteness, and [cholesky_add_row] reports it; yet
    [updateSurrogateModel] returns 0, the log stays empty, and the factor
    is the one the failed append left: the failure is neither reported
    nor followed by a refactorisation. *)
Theorem update_returns_success_on_failed_append :
  cholesky.pivot (mL Concrete.two_samples)
    (new_row (kops := Concrete.kernel_ops) (KSEIso 1)
       Concrete.two_samples [0]) <= 0
  /\ fst (cholesky.cholesky_add_row (mL Concrete.two_samples)
            (new_row (kops := Concrete.kernel_ops) (KSEIso 1)
               Concrete.two_samples [0])) = 1%Z
  /\ exists s',
       updateSurrogateModel (kops := Concrete.kernel_ops)
         (mops := Concrete.mean_ops)
         cholesky.cholesky_add_row Concrete.precompute_ok [0] 0
         (mk_Sys Concrete.empty_world Concrete.two_samples)
       = (Returned 0%Z, mk_Sys (mk_World [] []) s')
       /\ mL s' =
          snd (cholesky.cholesky_add_row (mL Concrete.two_samples)
                 (new_row (kops := Concrete.kernel_ops) (KSEIso 1)
                    Concrete.two_samples [0])).
Proof.
  split; [exact duplicate_append_pivot|].
  split; [now rewrite (cholesky_add_row_fails _ _ duplicate_append_pivot)|].
  destruct (updateSurrogateModel_run (kops := Concrete.kernel_ops)
              (mops := Concrete.mean_ops)
              cholesky.cholesky_add_row Concrete.precompute_ok
              Concrete.empty_world Concrete.two_samples [0] 0 [1]
              (KSEIso 1) 0 eq_refl eq_refl eq_refl eq_refl
              ltac:(simpl; lia) ltac:(simpl; lia))
    as [s1 [_ [_ [_ Hrun]]]].
  cbv zeta in Hrun. change (fst (Concrete.precompute_ok _) <? 0)%Z
    with false in Hrun.
  eexists. split; [exact Hrun | reflexivity].
Qed.

(* ------------------------------------------------------------------ *)
(** ** The factories *)

(** *** What the kernel factory can have done *)

Section FactoryInvariant.

Context {KernelObj : Type} {ops : KernelOps KernelObj}.
Variable parseExpresion : string -> string * string * string.

Lemma find_in_registry (os cls : string) (reg : list (string * string)) :
  KernelFactory.find os reg = Some cls -> In cls (map snd reg).
Proof.
  induction reg as [|[key c] reg IH]; simpl; [discriminate|].
  destruct (String.eqb key os); [intros [= ->]; now left | right; auto].
Qed.

Lemma factory_frame_returned {A} (a : A) (w : World) :
  factory_frame w (Returned a) w.
Proof.
  split; [reflexivity|]. split.
  - exists []. split; [reflexivity | constructor].
  - split; discriminate.
Qed.

(** The frame of a first call followed by the frame of the rest. *)
Lemma factory_frame_trans {A B} (w w1 w2 : World) (a : A) (o : Outcome B) :
  factory_frame w (Returned a) w1 -> factory_frame w1 o w2 ->
  factory_frame w o w2.
Proof.
  intros (Hlog1 & (l1 & Hl1 & Hall1) & _ & _)
         (Hlog2 & (l2 & Hl2 & Hall2) & Hex & Hth).
  split; [congruence|]. split; [|split; assumption].
  exists (l2 ++ l1). rewrite <- app_assoc, <- Hl1. split; [exact Hl2|].
  apply Forall_app. now split.
Qed.

Lemma factory_frame_bind {A B} (m : Proc World A) (f : A -> Proc World B)
    (w : World) :
  wp m (factory_frame w) w ->
  (forall a w1, wp (f a) (factory_frame w1) w1) ->
  wp (bind m f) (factory_frame w) w.
Proof.
  intros Hm Hf. apply wp_bind. eapply wp_consequence; [exact Hm|].
  intros [a|what| |] w1 H1; unfold wp_then.
  - eapply wp_consequence; [apply Hf|].
    intros o w2 H2. exact (factory_frame_trans w w1 w2 a o H1 H2).
  - destruct H1 as (Hlog & Hl & _ & Hth).
    split; [exact Hlog|]. split; [exact Hl|]. split; [discriminate|].
    intros what' [= <-]. now apply Hth.
  - now destruct H1 as (_ & _ & Hex & _).
  - destruct H1 as (Hlog & Hl & _ & _).
    split; [exact Hlog|]. split; [exact Hl|]. split; discriminate.
Qed.

Lemma factory_frame_new (cls : string) (w : World) :
  In cls (map snd KernelFactory.registry) ->
  wp (new_ cls) (factory_frame w) w.
Proof.
  intro Hin. apply wp_new. split; [reflexivity|]. split.
  - exists [cls]. split; [reflexivity|]. now constructor.
  - split; discriminate.
Qed.

Lemma kernel_create_frame (fuel : nat) (name : string) (input_dim : nat)
    (w : World) :
  wp (KernelFactory.create parseExpresion fuel name input_dim)
     (factory_frame w) w.
Proof.
  revert name w. induction fuel as [|fuel IH]; intros name w.
  - split; [reflexivity|]. split.
    + exists []. split; [reflexivity | constructor].
    + split; discriminate.
  - cbn [KernelFactory.create].
    destruct (parseExpresion name) as [[os os1] os2].
    destruct (KernelFactory.find os KernelFactory.registry) as [cls|] eqn:Hf.
    + apply factory_frame_bind;
        [apply factory_frame_new; eapply find_in_registry; exact Hf|].
      intros _ w1.
      destruct ((String.length os1 =? 0)%nat && (String.length os2 =? 0)%nat).
      * apply factory_frame_returned.
      * apply factory_frame_bind; [apply IH|]. intros k1 w2.
        apply factory_frame_bind; [apply IH|]. intros k2 w3.
        apply factory_frame_returned.
    + split; [reflexivity|]. split.
      * exists []. split; [reflexivity | constructor].
      * split; [discriminate|]. intros what [= <-]. now exists os.
Qed.

(** X8. Whatever the expression and however the call ends,
    [KernelFactory::create] writes nothing to the log and never ends the
    process; the objects it allocated are of registered classes and are
    still there, also after an exception; the only exception it throws is
    "Kernel not found" for a name that is not in the registry; and a call
    that returns has allocated at least one object. *)
Theorem kernel_create_never_logs
    (fuel : nat) (name : string) (input_dim : nat) (w : World) :
  wp (KernelFactory.create parseExpresion fuel name input_dim)
     (fun o w' =>
        factory_frame w o w'
        /\ forall kFunc, o = Returned kFunc ->
             (length (live_objects w) < length (live_objects w'))%nat)
     w.
Proof.
  destruct fuel as [|fuel].
  - split; [apply (kernel_create_frame 0)|]. discriminate.
  - pose proof (kernel_create_frame (S fuel) name input_dim w) as Hframe.
    split; [exact Hframe|]. clear Hframe.
    change (wp (KernelFactory.create parseExpresion (S fuel) name input_dim)
              (fun o w' => forall kFunc : KernelObj, o = Returned kFunc ->
                 (length (live_objects w) < length (live_objects w'))%nat) w).
    cbn [KernelFactory.create].
    destruct (parseExpresion name) as [[os os1] os2].
    destruct (KernelFactory.find os KernelFactory.registry) as [cls|];
      [|discriminate].
    apply wp_bind. apply wp_new. unfold wp_then.
    set (w1 := mk_World (log_lines w) (cls :: live_objects w)).
    assert (Hgrow : forall (m : Proc World KernelObj),
               wp m (factory_frame w1) w1 ->
               wp m (fun o w' => forall kFunc : KernelObj, o = Returned kFunc ->
                   (length (live_objects w) < length (live_objects w'))%nat) w1).
    { intros m Hm. eapply wp_consequence; [exact Hm|].
      intros o w' (_ & (l & Hl & _) & _) kFunc _.
      rewrite Hl, length_app. simpl. lia. }
    apply Hgrow.
    destruct ((String.length os1 =? 0)%nat && (String.length os2 =? 0)%nat).
    + apply factory_frame_returned.
    + apply factory_frame_bind; [apply kernel_create_frame|]. intros k1 w2.
      apply factory_frame_bind; [apply kernel_create_frame|]. intros k2 w3.
      apply factory_frame_returned.
Qed.

End FactoryInvariant.

Section Factories.

Context {KernelObj MeanObj Cache : Type}.
Context {kops : KernelOps KernelObj} {mops : MeanOps MeanObj}.

Variable parseExpresion : string -> string * string * string.
Variable fuel : nat.
Variable derived_init : string -> nat -> bopt_params -> Cache.
Variable cache0 : Cache.

Local Abbreviation kernel_create := (KernelFactory.create parseExpresion).
Local Abbreviation kernel_model := (KernelModel.construct parseExpresion).
Local Abbreviation construct :=
  (NonParametricProcess.construct (MeanObj := MeanObj) parseExpresion).
Local Abbreviation new_surrogate :=
  (NonParametricProcess.new_surrogate (MeanObj := MeanObj) parseExpresion).
Local Abbreviation create :=
  (NonParametricProcess.create (MeanObj := MeanObj) parseExpresion).

(** An unregistered head makes [KernelFactory::create] throw at once. *)
Lemma kernel_create_unknown (name : string) (dim : nat) (w : World)
    (os os1 os2 : string) :
  parseExpresion name = (os, os1, os2) ->
  KernelFactory.find os KernelFactory.registry = None ->
  kernel_create (S fuel) name dim w = (Thrown (KernelFactory.not_found os), w).
Proof.
  intros Hparse Hfind. cbn [KernelFactory.create].
  rewrite Hparse, Hfind. reflexivity.
Qed.

(** An unregistered first argument of a registered combinator makes the
    recursive call throw; the combinator object was allocated by then. *)
Lemma kernel_create_unknown_argument (name : string) (dim : nat) (w : World)
    (os os1 os2 C u u1 u2 : string) :
  parseExpresion name = (os, os1, os2) ->
  KernelFactory.find os KernelFactory.registry = Some C ->
  (String.length os1 =? 0)%nat && (String.length os2 =? 0)%nat = false ->
  parseExpresion os1 = (u, u1, u2) ->
  KernelFactory.find u KernelFactory.registry = None ->
  kernel_create (S (S fuel)) name dim w
  = (Thrown (KernelFactory.not_found u),
     mk_World (log_lines w) (C :: live_objects w)).
Proof.
  intros Hparse Hfind Hargs Hparse1 Hfind1.
  cbn [KernelFactory.create]. rewrite Hparse, Hfind, Hargs.
  unfold bind at 1. cbv beta iota delta [new_ modify].
  unfold bind at 1.
  rewrite (kernel_create_unknown os1 dim _ u u1 u2 Hparse1 Hfind1).
  reflexivity.
Qed.

(** The exception leaves the constructors as it was thrown. *)
Lemma construct_unknown_kernel (dim : nat) (p : bopt_params) (w : World)
    (os os1 os2 : string) :
  parseExpresion (kernel_parameters.name (kernel p)) = (os, os1, os2) ->
  KernelFactory.find os KernelFactory.registry = None ->
  kernel_model (S fuel) dim p w = (Thrown (KernelFactory.not_found os), w)
  /\ construct (S fuel) cache0 dim p w = (Thrown (KernelFactory.not_found os), w).
Proof.
  intros Hparse Hfind.
  assert (Hk : kernel_model (S fuel) dim p w = (Thrown (KernelFactory.not_found os), w)).
  { unfold KernelModel.construct, KernelModel.setKernel_params,
      KernelModel.setKernel.
    unfold bind. rewrite (kernel_create_unknown _ dim w os os1 os2 Hparse Hfind).
    reflexivity. }
  split; [exact Hk|].
  unfold NonParametricProcess.construct. unfold bind at 1. rewrite Hk.
  reflexivity.
Qed.

Lemma new_surrogate_unknown_kernel (C : string) (dim : nat) (p : bopt_params)
    (w : World) (os os1 os2 : string) :
  parseExpresion (kernel_parameters.name (kernel p)) = (os, os1, os2) ->
  KernelFactory.find os KernelFactory.registry = None ->
  new_surrogate (S fuel) derived_init cache0 C dim p w
  = (Thrown (KernelFactory.not_found os), w).
Proof.
  intros Hparse Hfind.
  unfold NonParametricProcess.new_surrogate. unfold bind at 1.
  rewrite (proj2 (construct_unknown_kernel dim p w os os1 os2 Hparse Hfind)).
  reflexivity.
Qed.

(** An unknown surrogate name makes [create] log and return null. *)
Lemma create_unknown_surrogate (dim : nat) (p : bopt_params) (w : World) :
  known_surrogate (surr_name p) = false ->
  create fuel derived_init cache0 dim p w
  = (Returned None,
     mk_World (log_lines w ++ ["Error: surrogate function not supported."%string])
       (live_objects w)).
Proof.
  unfold known_surrogate, surrogate_names. cbn [existsb].
  intro H. repeat (apply orb_false_elim in H; destruct H as [? H]).
  unfold NonParametricProcess.create.
  repeat match goal with
         | E : String.eqb _ _ = false |- _ => rewrite E; clear E
         end.
  reflexivity.
Qed.


(** The base-class constructor does not read the surrogate's name. *)
Lemma construct_ignores_surr_name (name : string) (dim : nat)
    (p : bopt_params) :
  construct fuel cache0 dim (set_surr_name name p)
  = construct fuel cache0 dim p.
Proof. reflexivity. Qed.

(** C5. If the constructor of the derived class does not read the
    surrogate's name, then [create] with the name "sStudentTProcessJef"
    and [create] with the name "sStudentTProcessNIG", on the same
    dimension and otherwise equal parameters, run the same construction
    and yield equal objects of class [StudentTProcessNIG]. *)
Theorem StudentTProcessJef_is_StudentTProcessNIG (dim : nat)
    (p : bopt_params) (w : World) :
  (forall C d q name,
     derived_init C d (set_surr_name name q) = derived_init C d q) ->
  create fuel derived_init cache0 dim (set_surr_name "sStudentTProcessJef" p) w
  = create fuel derived_init cache0 dim (set_surr_name "sStudentTProcessNIG" p) w
  /\ create fuel derived_init cache0 dim
       (set_surr_name "sStudentTProcessJef" p) w
     = new_surrogate fuel derived_init cache0 "StudentTProcessNIG" dim p w.
Proof.
  intro Hinit.
  assert (Hnew : forall name,
             new_surrogate fuel derived_init cache0 "StudentTProcessNIG" dim
               (set_surr_name name p) w
             = new_surrogate fuel derived_init cache0 "StudentTProcessNIG"
                 dim p w).
  { intro name. unfold NonParametricProcess.new_surrogate.
    rewrite construct_ignores_surr_name.
    unfold bind. destruct (construct fuel cache0 dim p w) as [[s| | |] w'];
      try reflexivity.
    cbv beta iota delta [new_ modify ret]. now rewrite Hinit. }
  unfold NonParametricProcess.create. cbn [surr_name set_surr_name].
  cbn [String.eqb Ascii.eqb Bool.eqb].
  rewrite !Hnew. split; reflexivity.
Qed.

End Factories.



Lemma StudentTProcessJef_witness :
  NonParametricProcess.create (kops := Concrete.kernel_ops)
    (mops := Concrete.mean_ops) Concrete.parse_atomic 1
    Concrete.prior_of (0, 0, 0) 1
    (set_surr_name "sStudentTProcessJef" Concrete.example_params)
    Concrete.empty_world
  = NonParametricProcess.create (kops := Concrete.kernel_ops)
      (mops := Concrete.mean_ops) Concrete.parse_atomic 1
      Concrete.prior_of (0, 0, 0) 1
      (set_surr_name "sStudentTProcessNIG" Concrete.example_params)
      Concrete.empty_world.
Proof.
  exact (proj1 (StudentTProcessJef_is_StudentTProcessNIG
                  (kops := Concrete.kernel_ops) (mops := Concrete.mean_ops)
                  Concrete.parse_atomic 1 Concrete.prior_of (0, 0, 0)
                  1 Concrete.example_params Concrete.empty_world
                  (fun _ _ _ _ => eq_refl))).
Defined.

(* ------------------------------------------------------------------ *)
(** ** Saving and resuming an optimization *)

Lemma for_loop_constant_add {A : Type} (f : A -> A) (n m : nat) (a : A) :
  for_loop (n + m) (fun _ => f) a = for_loop m (fun _ => f) (for_loop n (fun _ => f) a).
Proof.
  induction m as [|m IH]; [now rewrite Nat.add_0_r|].
  rewrite Nat.add_succ_r. simpl. now rewrite IH.
Qed.

Section Resume.

Context {Rng Factor Crit : Type}.
Variable seed_rng : Z -> Rng.
Variable evaluateSample : vectord -> R.
Variable initial_design : bopt_params -> nat -> Rng -> vecOfvec * Rng.
Variable fit : bopt_params -> vectord -> vecOfvec -> vectord -> Factor.
Variable update : bopt_params -> vectord -> Factor -> vectord -> R -> Factor.
Variable relearn :
  bopt_params -> vectord -> vecOfvec -> vectord -> Rng -> vectord * Rng.
Variable crit_init : bopt_params -> Crit.
Variable nextPoint :
  bopt_params -> nat -> vectord -> vecOfvec -> vectord -> Factor -> nat ->
  Crit -> Rng -> vectord * Crit * Rng.
Variable crit_update :
  bopt_params -> vectord -> vecOfvec -> vectord -> Factor -> Crit -> Crit.
Variable updateStuck : bopt_params -> nat -> R -> R -> nat.

Local Abbreviation Optimizer := (@BOpt.Optimizer Rng Factor Crit).
Local Abbreviation valid := (BOpt.valid_state (Crit := Crit) fit).
Local Abbreviation step :=
  (BOpt.stepOptimization evaluateSample fit update relearn nextPoint
     crit_update updateStuck).
Local Abbreviation run_until :=
  (BOpt.run_until evaluateSample fit update relearn nextPoint crit_update
     updateStuck).
Local Abbreviation initialize :=
  (BOpt.initializeOptimization (Crit := Crit) evaluateSample initial_design
     fit).
Local Abbreviation fresh :=
  (BOpt.construct (Factor := Factor) seed_rng crit_init).
Local Abbreviation restore := (BOpt.restoreOptimization (Crit := Crit) fit).

Hypothesis update_fit : BOpt.update_agrees_with_fit fit update.
Hypothesis proposals :
  BOpt.proposals_have_dimension initial_design nextPoint.
Hypothesis stateless : BOpt.criterion_stateless nextPoint.

Lemma initialize_valid (d : nat) (par : bopt_params) :
  valid d par (initialize (fresh d par))
  /\ BOpt.iter (initialize (fresh d par)) = 0%nat
  /\ BOpt.XX (initialize (fresh d par))
     = fst (initial_design par d (seed_rng (random_seed par))).
Proof.
  unfold BOpt.initializeOptimization, BOpt.valid_state. simpl.
  pose proof (proj1 proposals par d (seed_rng (random_seed par))) as Hd.
  destruct (initial_design par d (seed_rng (random_seed par))) as [X0 r].
  simpl in *. repeat split; try assumption. now rewrite length_map.
Qed.

Lemma step_valid (d : nat) (par : bopt_params) (o : Optimizer) :
  valid d par o ->
  valid d par (step o) /\ BOpt.iter (step o) = S (BOpt.iter o)
  /\ length (BOpt.XX (step o)) = S (length (BOpt.XX o)).
Proof.
  intros [Hd [Hp [Hf [HX Hlen]]]].
  unfold BOpt.stepOptimization. rewrite Hf.
  destruct (BOpt.relearn_due (BOpt.params o) (BOpt.iter o)).
  - destruct (relearn _ _ _ _ _) as [th' r'].
    pose proof (proj2 proposals (BOpt.params o) (BOpt.dim o) th' (BOpt.XX o)
                  (BOpt.YY o)
                  (fit (BOpt.params o) th' (BOpt.XX o) (BOpt.YY o))
                  (BOpt.iter o) (BOpt.crit o) r') as Hn.
    destruct (nextPoint _ _ _ _ _ _ _ _ _) as [[x c1] r2]. simpl in *.
    unfold BOpt.valid_state. simpl. rewrite update_fit.
    repeat split; try assumption.
    + apply Forall_app. split; [assumption|]. constructor; [congruence|constructor].
    + rewrite !length_app. simpl. lia.
    + rewrite length_app. simpl. lia.
  - pose proof (proj2 proposals (BOpt.params o) (BOpt.dim o) (BOpt.theta o)
                  (BOpt.XX o) (BOpt.YY o)
                  (fit (BOpt.params o) (BOpt.theta o) (BOpt.XX o) (BOpt.YY o))
                  (BOpt.iter o) (BOpt.crit o) (BOpt.rng o)) as Hn.
    destruct (nextPoint _ _ _ _ _ _ _ _ _) as [[x c1] r2]. simpl in *.
    unfold BOpt.valid_state. simpl. rewrite update_fit.
    repeat split; try assumption.
    + apply Forall_app. split; [assumption|]. constructor; [congruence|constructor].
    + rewrite !length_app. simpl. lia.
    + rewrite length_app. simpl. lia.
Qed.

Lemma steps_valid (d : nat) (par : bopt_params) (n : nat) (o : Optimizer) :
  valid d par o ->
  valid d par (for_loop n (fun _ => step) o)
  /\ BOpt.iter (for_loop n (fun _ => step) o) = (BOpt.iter o + n)%nat
  /\ length (BOpt.XX (for_loop n (fun _ => step) o))
     = (length (BOpt.XX o) + n)%nat.
Proof.
  intro Hv. induction n as [|n [IHv [IHi IHl]]]; simpl.
  - split; [exact Hv | lia].
  - destruct (step_valid _ _ _ IHv) as [Hv' [Hi' Hl']]. split; [exact Hv'|].
    rewrite Hi', IHi, Hl', IHl. lia.
Qed.

(** A step does not look at the state of a criterion without state. *)
Lemma step_with_criterion (c : Crit) (o : Optimizer) :
  exists c', step (BOpt.with_criterion c o) = BOpt.with_criterion c' (step o).
Proof.
  unfold BOpt.stepOptimization.
  cbn [BOpt.with_criterion BOpt.factor BOpt.params BOpt.iter BOpt.theta
       BOpt.XX BOpt.YY BOpt.rng BOpt.dim BOpt.crit BOpt.counterStuck
       BOpt.yPrev BOpt.meanPrior].
  destruct (BOpt.factor o) as [L|]; [|exists c; reflexivity].
  destruct (if BOpt.relearn_due (BOpt.params o) (BOpt.iter o)
            then _ else _) as [[th r1] L1].
  destruct (stateless (BOpt.params o) (BOpt.dim o) th (BOpt.XX o) (BOpt.YY o)
              L1 (BOpt.iter o) c (BOpt.crit o) r1) as [Hx Hr].
  destruct (nextPoint _ _ _ _ _ _ _ c r1) as [[x c1] r2].
  destruct (nextPoint _ _ _ _ _ _ _ (BOpt.crit o) r1) as [[x' c1'] r2'].
  cbn [fst snd] in Hx, Hr. subst x' r2'.
  eexists. reflexivity.
Qed.

Lemma steps_with_criterion (n : nat) (c : Crit) (o : Optimizer) :
  exists c',
    for_loop n (fun _ => step) (BOpt.with_criterion c o)
    = BOpt.with_criterion c' (for_loop n (fun _ => step) o).
Proof.
  induction n as [|n [c1 IH]]; [exists c; reflexivity|].
  cbn [for_loop]. rewrite IH. apply step_with_criterion.
Qed.

Lemma run_until_with_criterion (n : nat) (c : Crit) (o : Optimizer) :
  exists c',
    run_until n (BOpt.with_criterion c o)
    = BOpt.with_criterion c' (run_until n o).
Proof. apply steps_with_criterion. Qed.

(** Restoring a saved valid state into a fresh optimizer of the same
    dimension and configuration gives that state back, with the
    criterion as the fresh optimizer has it. *)
Lemma restore_save (d : nat) (par : bopt_params) (o : Optimizer) :
  valid d par o ->
  restore (BOpt.saveOptimization o) (fresh d par)
  = Some (BOpt.with_criterion (crit_init par) o).
Proof.
  intros [Hd [Hp [Hf [HX Hlen]]]].
  unfold BOpt.restoreOptimization, BOpt.saveOptimization.
  cbn [BOpt.mVersion BOpt.mX BOpt.mY BOpt.dim BOpt.construct
       BOpt.mParameters BOpt.mCurrentIter BOpt.mCounterStuck BOpt.mYPrev
       BOpt.mKernelHP BOpt.mMeanPrior BOpt.mRngState BOpt.crit].
  rewrite Nat.eqb_refl.
  assert (Hall : forallb (fun x => (length x =? d)%nat) (BOpt.XX o) = true).
  { apply forallb_forall. intros x Hx.
    rewrite Forall_forall in HX. apply Nat.eqb_eq. now apply HX. }
  rewrite Hall, Hlen, Nat.eqb_refl. cbn [andb].
  destruct o; simpl in *. subst. reflexivity.
Qed.

(** Stopping at [k], then running on to [n], is running to [n]. *)
Lemma run_until_twice (d : nat) (par : bopt_params) (k n : nat)
    (o : Optimizer) :
  valid d par o -> (k <= n)%nat ->
  run_until n (run_until k o) = run_until n o.
Proof.
  intros Hv Hkn. unfold BOpt.run_until, BOpt.getCurrentIter.
  destruct (steps_valid d par (k - BOpt.iter o) o Hv) as [_ [Hi _]].
  rewrite Hi, <- for_loop_constant_add. f_equal. lia.
Qed.


End Resume.


(** *** A portfolio loses its gains *)

Section HedgeRun.

Local Abbreviation Optimizer :=
  (@BOpt.Optimizer nat (vecOfvec * vectord) BOpt.HedgeState).
Local Abbreviation hedge_next :=
  (BOpt.hedge_nextPoint Concrete.hedge_arms 1 Concrete.constant_draw).
Local Abbreviation hedge_gain :=
  (BOpt.hedge_update Concrete.closeness_reward).
Local Abbreviation hedge_step :=
  (BOpt.stepOptimization Concrete.sphere Concrete.samples_fit
     Concrete.samples_update Concrete.keep_hyperparameters hedge_next
     hedge_gain Concrete.never_stuck).

Lemma choose_first_arm (g0 g1 u : R) :
  u * (exp g0 + exp g1) < exp g0 -> BOpt.choose_arm 1 [g0; g1] u = 0%nat.
Proof.
  intro H. unfold BOpt.choose_arm, BOpt.total. cbn [map fold_right BOpt.pick].
  rewrite !Rmult_1_l, Rplus_0_r.
  destruct (Rlt_dec _ _) as [_|Hn]; [reflexivity | contradiction].
Qed.

Lemma choose_second_arm (g0 g1 u : R) :
  exp g0 <= u * (exp g0 + exp g1) -> u < 1 ->
  BOpt.choose_arm 1 [g0; g1] u = 1%nat.
Proof.
  intros H Hu. unfold BOpt.choose_arm, BOpt.total.
  cbn [map fold_right BOpt.pick]. rewrite !Rmult_1_l, Rplus_0_r.
  destruct (Rlt_dec _ _) as [Hlt|_]; [lra|].
  destruct (Rlt_dec _ _) as [_|Hn]; [reflexivity|].
  exfalso. apply Hn. pose proof (exp_pos g0). pose proof (exp_pos g1). nra.
Qed.

(** One iteration of the loop under the two-arm portfolio. *)
Lemma hedge_step_run (o : Optimizer) (L : vecOfvec * vectord) (j : nat) :
  BOpt.factor o = Some L ->
  n_iter_relearn (BOpt.params o) = 0%nat ->
  BOpt.choose_arm 1 (BOpt.gains (BOpt.crit o)) (6 / 10) = j ->
  let xs := [repeat 0 (BOpt.dim o); repeat 1 (BOpt.dim o)] in
  let x := nth j xs [] in
  BOpt.XX (hedge_step o) = BOpt.XX o ++ [x]
  /\ BOpt.YY (hedge_step o) = BOpt.YY o ++ [Concrete.sphere x]
  /\ BOpt.gains (BOpt.crit (hedge_step o))
     = BOpt.add_rewards (BOpt.gains (BOpt.crit o))
         (map (fun x => 1 - Concrete.sphere x) xs)
  /\ BOpt.factor (hedge_step o) = Some (fst L ++ [x], snd L ++ [Concrete.sphere x])
  /\ BOpt.params (hedge_step o) = BOpt.params o
  /\ BOpt.dim (hedge_step o) = BOpt.dim o
  /\ BOpt.theta (hedge_step o) = BOpt.theta o
  /\ BOpt.iter (hedge_step o) = S (BOpt.iter o).
Proof.
  intros Hf Hr Hj. cbv zeta.
  unfold BOpt.stepOptimization. rewrite Hf.
  unfold BOpt.relearn_due. rewrite Hr. cbn [Nat.eqb negb andb].
  unfold BOpt.hedge_nextPoint, Concrete.constant_draw. rewrite Hj.
  repeat split.
Qed.

Local Abbreviation hedge_init :=
  (BOpt.hedge_init (Factor := vecOfvec * vectord) Concrete.hedge_arms).
Local Abbreviation fresh_portfolio :=
  (BOpt.construct (Factor := vecOfvec * vectord) Concrete.counter_seed
     hedge_init 1 Concrete.example_params).
Local Abbreviation start :=
  (BOpt.initializeOptimization Concrete.sphere Concrete.far_design
     Concrete.samples_fit fresh_portfolio).
Local Abbreviation hedge_run :=
  (BOpt.run_until Concrete.sphere Concrete.samples_fit
     Concrete.samples_update Concrete.keep_hyperparameters hedge_next
     hedge_gain Concrete.never_stuck).

Lemma sphere_values :
  Concrete.sphere [0] = 0 /\ Concrete.sphere [1] = 1 /\ Concrete.sphere [2] = 4.
Proof. unfold Concrete.sphere. simpl. repeat split; ring. Qed.

Lemma best_sample_keeps (x x' : vectord) (y y' : R) (X : vecOfvec)
    (Y : vectord) :
  BOpt.best_sample X Y = Some (x', y') -> y' < y ->
  BOpt.best_sample (x :: X) (y :: Y) = Some (x', y').
Proof.
  intros H Hlt. cbn [BOpt.best_sample]. rewrite H.
  destruct (Rlt_dec y' y); [reflexivity | contradiction].
Qed.

Lemma best_sample_takes (x x' : vectord) (y y' : R) (X : vecOfvec)
    (Y : vectord) :
  BOpt.best_sample X Y = Some (x', y') -> ~ y' < y ->
  BOpt.best_sample (x :: X) (y :: Y) = Some (x, y).
Proof.
  intros H Hlt. cbn [BOpt.best_sample]. rewrite H.
  destruct (Rlt_dec y' y); [contradiction | reflexivity].
Qed.

Lemma exp_1_gt_2 : 2 < exp 1.
Proof. pose proof (exp_ineq1 1). lra. Qed.

(** The first iteration: the gains are level, the draw falls on the
    second arm, and the first arm earns the larger reward. *)
Lemma portfolio_first_step :
  BOpt.XX (hedge_step start) = [[2]; [1]; [1]]
  /\ BOpt.YY (hedge_step start) = [4; 1; 1]
  /\ BOpt.gains (BOpt.crit (hedge_step start)) = [1; 0]
  /\ BOpt.factor (hedge_step start)
     = Some (BOpt.XX (hedge_step start), BOpt.YY (hedge_step start))
  /\ BOpt.params (hedge_step start) = Concrete.example_params
  /\ BOpt.dim (hedge_step start) = 1%nat
  /\ BOpt.iter (hedge_step start) = 1%nat.
Proof.
  destruct sphere_values as (S0 & S1 & S2).
  destruct (hedge_step_run start ([[2]; [1]], map Concrete.sphere [[2]; [1]])
              1 eq_refl eq_refl)
    as (HX & HY & Hg & Hf & Hp & Hd & _ & Hi).
  { apply choose_second_arm; [rewrite exp_0|]; lra. }
  cbn [nth BOpt.dim repeat] in HX, HY, Hg, Hf.
  rewrite HX, HY, Hg, Hf, Hp, Hd, Hi.
  change (BOpt.XX start) with [[2]; [1]].
  change (BOpt.YY start) with [Concrete.sphere [2]; Concrete.sphere [1]].
  change (BOpt.dim start) with 1%nat.
  change (BOpt.gains (BOpt.crit start)) with [0; 0].
  change (BOpt.iter start) with 0%nat.
  change (BOpt.params start) with Concrete.example_params.
  cbn [app map fst snd BOpt.add_rewards repeat].
  rewrite S0, S1, S2.
  repeat split; try reflexivity.
  f_equal; [ring | f_equal; ring].
Qed.

(** The second iteration of the uninterrupted run: the first arm now
    leads, and the draw falls on it. *)
Lemma portfolio_second_step :
  BOpt.XX (hedge_step (hedge_step start)) = [[2]; [1]; [1]; [0]]
  /\ BOpt.YY (hedge_step (hedge_step start)) = [4; 1; 1; 0].
Proof.
  destruct sphere_values as (S0 & S1 & S2).
  destruct portfolio_first_step as (HX & HY & Hg & Hf & Hp & Hd & Hi).
  destruct (hedge_step_run (hedge_step start) _ 0 Hf) as (HX2 & HY2 & _).
  { rewrite Hp. reflexivity. }
  { rewrite Hg. apply choose_first_arm.
    pose proof exp_1_gt_2. rewrite exp_0. lra. }
  rewrite Hd in HX2, HY2. cbn [nth repeat] in HX2, HY2.
  rewrite HX2, HY2, HX, HY, S0. split; reflexivity.
Qed.

(** The same iteration after a restore: the gains are level again, and
    the draw falls on the second arm as it did in the first iteration. *)
Lemma portfolio_resumed_step :
  BOpt.XX (hedge_step
             (BOpt.with_criterion (hedge_init Concrete.example_params)
                (hedge_step start)))
  = [[2]; [1]; [1]; [1]]
  /\ BOpt.YY (hedge_step
                (BOpt.with_criterion (hedge_init Concrete.example_params)
                   (hedge_step start)))
     = [4; 1; 1; 1].
Proof.
  destruct sphere_values as (S0 & S1 & S2).
  destruct portfolio_first_step as (HX & HY & Hg & Hf & Hp & Hd & Hi).
  destruct (hedge_step_run
              (BOpt.with_criterion (hedge_init Concrete.example_params)
                 (hedge_step start)) _ 1 Hf)
    as (HX2 & HY2 & _).
  { cbn [BOpt.with_criterion BOpt.params]. rewrite Hp. reflexivity. }
  { cbn [BOpt.with_criterion BOpt.crit BOpt.hedge_init BOpt.gains
         Concrete.hedge_arms map].
    apply choose_second_arm; [rewrite exp_0|]; lra. }
  cbn [BOpt.with_criterion BOpt.dim BOpt.XX BOpt.YY] in HX2, HY2.
  rewrite Hd in HX2, HY2. cbn [nth repeat] in HX2, HY2.
  rewrite HX2, HY2, HX, HY, S1. split; reflexivity.
Qed.

Lemma portfolio_stopped_state_valid :
  BOpt.valid_state Concrete.samples_fit 1 Concrete.example_params
    (hedge_step start).
Proof.
  destruct portfolio_first_step as (HX & HY & Hg & Hf & Hp & Hd & Hi).
  unfold BOpt.valid_state. rewrite Hf, HX, HY.
  repeat split; try assumption; try reflexivity.
  repeat constructor.
Qed.


End HedgeRun.

(* ================================================================== *)
(** * Further properties of the kernels *)

(** *** The gradients of the isotropic kernels *)

Lemma scaled_radius_derivative (c n t : R) :
  t <> 0 ->
  derivable_pt_lim (fun z => c * (n / z)) t (- (c * (n / t)) / t).
Proof.
  intro Ht.
  apply derivable_pt_lim_ext with (f := (fct_cte (c * n) / id)%F).
  - intro z. unfold div_fct, fct_cte, id, Rdiv. ring.
  - replace (- (c * (n / t)) / t)
      with ((0 * id t - 1 * fct_cte (c * n) t) / (id t)²).
    + apply derivable_pt_lim_div;
        [apply derivable_pt_lim_const | apply derivable_pt_lim_id | exact Ht].
    + unfold fct_cte, id, Rsqr. field. exact Ht.
Qed.

(** The chain rule for a function of the scaled distance [c * (n / theta)],
    differentiated in the length-scale [theta]. *)
Lemma radial_derivative (Phi : R -> R) (c n t l : R) :
  t <> 0 ->
  derivable_pt_lim Phi (c * (n / t)) l ->
  derivable_pt_lim (fun z => Phi (c * (n / z))) t (l * (- (c * (n / t)) / t)).
Proof.
  intros Ht HPhi.
  apply (derivable_pt_lim_comp (fun z => c * (n / z)) Phi t _ _
           (scaled_radius_derivative c n t Ht) HPhi).
Qed.

Lemma exp_neg_derivative (r : R) :
  derivable_pt_lim (fun z => exp (- z)) r (- exp (- r)).
Proof.
  replace (- exp (- r)) with (exp (- r) * - 1) by ring.
  apply (derivable_pt_lim_comp (fun z => - z) exp r (- 1) (exp (- r))).
  - apply (derivable_pt_lim_opp id r 1). apply derivable_pt_lim_id.
  - apply derivable_pt_lim_exp.
Qed.

Lemma matern3_profile_derivative (r : R) :
  derivable_pt_lim (fun z => (1 + z) * exp (- z)) r (- (r * exp (- r))).
Proof.
  replace (- (r * exp (- r)))
    with ((0 + 1) * exp (- r) + (1 + r) * - exp (- r)) by ring.
  apply (derivable_pt_lim_mult (fun z => 1 + z) (fun z => exp (- z))).
  - apply (derivable_pt_lim_plus (fct_cte 1) id);
      [apply derivable_pt_lim_const | apply derivable_pt_lim_id].
  - apply exp_neg_derivative.
Qed.

Lemma matern5_profile_derivative (r : R) :
  derivable_pt_lim (fun z => (1 + z * (1 + z / 3)) * exp (- z)) r
    (- (r * (1 + r) / 3 * exp (- r))).
Proof.
  replace (- (r * (1 + r) / 3 * exp (- r)))
    with ((0 + (1 * (1 + r / 3) + r * (0 + 1 * / 3))) * exp (- r)
          + (1 + r * (1 + r / 3)) * - exp (- r)) by field.
  apply (derivable_pt_lim_mult (fun z => 1 + z * (1 + z / 3))
           (fun z => exp (- z))); [|apply exp_neg_derivative].
  apply (derivable_pt_lim_plus (fct_cte 1) (fun z => z * (1 + z / 3)));
    [apply derivable_pt_lim_const|].
  apply (derivable_pt_lim_mult id (fun z => 1 + z / 3));
    [apply derivable_pt_lim_id|].
  apply (derivable_pt_lim_plus (fct_cte 1) (fun z => z / 3));
    [apply derivable_pt_lim_const|].
  apply (derivable_pt_lim_scal_right id r 1 (/ 3)). apply derivable_pt_lim_id.
Qed.

Lemma se_profile_derivative (r : R) :
  derivable_pt_lim (fun z => exp (- (z * z) / 2)) r
    (- (r * exp (- (r * r) / 2))).
Proof.
  replace (- (r * exp (- (r * r) / 2)))
    with (exp (- (r * r) / 2) * (- (1 * r + r * 1) * / 2)) by field.
  apply (derivable_pt_lim_comp (fun z => - (z * z) / 2) exp r).
  - apply (derivable_pt_lim_scal_right (fun z => - (z * z)) r _ (/ 2)).
    apply (derivable_pt_lim_opp (fun z => z * z) r).
    apply (derivable_pt_lim_mult id id); apply derivable_pt_lim_id.
  - apply derivable_pt_lim_exp.
Qed.

(** X1. For each isotropic kernel class of the header, [getGradient] is
    the derivative of the kernel value with respect to the logarithm of
    the length-scale: the value is differentiable in the length-scale at
    every non-zero [theta], with derivative [getGradient / theta]. *)
Theorem iso_getGradient_is_log_derivative
    (C : IsoClass) (theta : R) (x1 x2 : vectord) (grad_index : nat) :
  theta <> 0 ->
  derivable_pt_lim (fun t => operator_call (iso_kernel C t) x1 x2) theta
    (getGradient (iso_kernel C theta) x1 x2 grad_index / theta).
Proof.
  intro Ht.
  destruct C; simpl;
    unfold MaternIso1.operator_call, MaternIso1.getGradient,
      MaternIso3.operator_call, MaternIso3.getGradient,
      MaternIso5.operator_call, MaternIso5.getGradient,
      SEIso.operator_call, SEIso.getGradient,
      ISOkernel.computeScaledNorm2;
    cbv zeta; set (n := ublas.norm_2 (ublas.minus x1 x2)).
  - apply derivable_pt_lim_ext with (f := fun z => exp (- (1 * (n / z)))).
    + intro z. f_equal. ring.
    + replace (n / theta * exp (- (n / theta)) / theta)
        with (- exp (- (1 * (n / theta))) * (- (1 * (n / theta)) / theta)).
      * apply (radial_derivative (fun z => exp (- z)) 1 n theta _ Ht).
        apply exp_neg_derivative.
      * rewrite Rmult_1_l. field. exact Ht.
  - set (r := sqrt 3 * (n / theta)).
    replace (r * r * exp (- r) / theta)
      with (- (r * exp (- r)) * (- r / theta)) by (field; exact Ht).
    apply (radial_derivative (fun z => (1 + z) * exp (- z)) (sqrt 3) n theta _ Ht).
    apply matern3_profile_derivative.
  - set (r := sqrt 5 * (n / theta)).
    replace (r * (1 + r) / 3 * r * exp (- r) / theta)
      with (- (r * (1 + r) / 3 * exp (- r)) * (- r / theta))
      by (field; exact Ht).
    apply (radial_derivative (fun z => (1 + z * (1 + z / 3)) * exp (- z))
             (sqrt 5) n theta _ Ht).
    apply matern5_profile_derivative.
  - apply derivable_pt_lim_ext
      with (f := fun z => exp (- ((1 * (n / z)) * (1 * (n / z))) / 2)).
    + intro z. f_equal. unfold Rdiv. ring.
    + set (r := n / theta).
      replace (exp (- (r * r) / 2) * (r * r) / theta)
        with (- ((1 * r) * exp (- ((1 * r) * (1 * r)) / 2))
              * (- (1 * r) / theta)).
      * apply (radial_derivative (fun z => exp (- (z * z) / 2)) 1 n theta _ Ht).
        apply se_profile_derivative.
      * rewrite !Rmult_1_l. field. exact Ht.
Qed.

Lemma iso_getGradient_witness :
  derivable_pt_lim (fun t => operator_call (iso_kernel CMaternIso5 t) [0] [3]) 2
    (getGradient (iso_kernel CMaternIso5 2) [0] [3] 0 / 2).
Proof.
  apply (iso_getGradient_is_log_derivative CMaternIso5 2 [0] [3] 0). lra.
Defined.

(** *** Symmetry of the gradients *)

(** X3. The gradient of every isotropic kernel is, like the kernel value
    of every class, a symmetric function of the two points. *)
Theorem iso_getGradient_symmetric
    (C : IsoClass) (theta : R) (x1 x2 : vectord) (grad_index : nat) :
  getGradient (iso_kernel C theta) x1 x2 grad_index =
  getGradient (iso_kernel C theta) x2 x1 grad_index
  /\ operator_call (iso_kernel C theta) x1 x2 =
     operator_call (iso_kernel C theta) x2 x1.
Proof.
  split; [|apply operator_call_symmetric].
  destruct C; simpl;
    unfold MaternIso1.getGradient, MaternIso3.getGradient,
      MaternIso5.getGradient, SEIso.getGradient;
    now rewrite (scaled_norm_swap theta x1 x2).
Qed.

(* ================================================================== *)
(** * Further properties of the kernel model *)

(** X6. For any function [k] the held kernel computes, symmetric or not,
    [computeCorrMatrix] evaluates it only with the later sample first:
    on a matrix of the right size it returns a symmetric matrix whose
    entry [(i,j)] is [k(XX[max i j], XX[min i j])] off the diagonal; on a
    matrix of any other size it fails its assertion and changes
    nothing. *)
Theorem computeCorrMatrix_mirrors_lower_triangle
    (St : Type) (k : vectord -> vectord -> R) (XX : vecOfvec) (nugget : R)
    (corrMatrix : matrixd) (w : St) :
  (size1 corrMatrix = length XX /\ size2 corrMatrix = length XX /\
   exists M,
     KernelModel.computeCorrMatrix k XX corrMatrix nugget w = (Returned M, w)
     /\ (forall i j, (i < length XX)%nat -> (j < length XX)%nat ->
           coef M i j = coef M j i)
     /\ (forall i j, (j < i < length XX)%nat ->
           coef M i j = k (KernelModel.sample XX i) (KernelModel.sample XX j)
           /\ coef M j i = k (KernelModel.sample XX i) (KernelModel.sample XX j)))
  \/ ((size1 corrMatrix <> length XX \/ size2 corrMatrix <> length XX) /\
      KernelModel.computeCorrMatrix k XX corrMatrix nugget w = (Aborted, w)).
Proof.
  destruct (Nat.eq_dec (size1 corrMatrix) (length XX)) as [H1|H1];
    [destruct (Nat.eq_dec (size2 corrMatrix) (length XX)) as [H2|H2]|].
  - left. split; [exact H1|]. split; [exact H2|].
    eexists. split; [now apply computeCorrMatrix_returns|]. split.
    + intros i j Hi Hj. rewrite !rows_loop_entries by assumption.
      rewrite (Nat.eqb_sym j i).
      destruct (Nat.eqb_spec i j) as [E|E]; [now subst|].
      destruct (Nat.ltb_spec j i); destruct (Nat.ltb_spec i j);
        try reflexivity; lia.
    + intros i j Hij. rewrite !rows_loop_entries by lia.
      rewrite (Nat.eqb_sym j i).
      destruct (Nat.eqb_spec i j) as [E|E]; [lia|].
      destruct (Nat.ltb_spec j i); [|lia].
      destruct (Nat.ltb_spec i j); [lia|]. split; reflexivity.
  - right. split; [now right|]. apply computeCorrMatrix_aborts. now right.
  - right. split; [now left|]. apply computeCorrMatrix_aborts. now left.
Qed.

Section DerivativeCorrMatrix.

Variable g : vectord -> vectord -> nat -> R.
Variable XX : vecOfvec.
Variable dth_index : nat.

Local Abbreviation x_ := (KernelModel.sample XX).
Local Abbreviation g_ := (fun a b => g a b dth_index).

Local Abbreviation drows_loop := (derivative_rows_loop g XX dth_index).

Lemma drows_loop_S (n : nat) (M : matrixd) :
  drows_loop (S n) M =
  ublas.massign n n (g (x_ n) (x_ n) dth_index)
    (KernelModel.row_loop g_ XX n n (drows_loop n M)).
Proof. reflexivity. Qed.

Lemma drows_loop_sizes (n : nat) (M : matrixd) :
  size1 (drows_loop n M) = size1 M /\ size2 (drows_loop n M) = size2 M.
Proof.
  induction n as [|n IH]; [split; reflexivity|].
  destruct (row_loop_sizes g_ XX n n (drows_loop n M)) as [H1 H2].
  rewrite drows_loop_S. cbn [size1 size2 ublas.massign].
  rewrite H1, H2. exact IH.
Qed.

Lemma drows_loop_coef (n : nat) (M : matrixd) (a b : nat) :
  coef (drows_loop n M) a b =
  if (a <? n)%nat && (b <? n)%nat then
    if (b <=? a)%nat then g (x_ a) (x_ b) dth_index
    else g (x_ b) (x_ a) dth_index
  else coef M a b.
Proof.
  induction n as [|n IH].
  - reflexivity.
  - rewrite drows_loop_S. cbn [coef ublas.massign].
    rewrite (row_loop_coef g_ XX n n) by lia. rewrite IH.
    destruct (Nat.eqb_spec a n) as [Ha|Ha];
      destruct (Nat.eqb_spec b n) as [Hb|Hb];
      destruct (Nat.ltb_spec a n); destruct (Nat.ltb_spec b n);
      destruct (Nat.ltb_spec a (S n)); destruct (Nat.ltb_spec b (S n));
      destruct (Nat.leb_spec b a);
      subst; simpl; try reflexivity; try lia.
Qed.

End DerivativeCorrMatrix.

Lemma computeDerivativeCorrMatrix_returns
    (St : Type) (g : vectord -> vectord -> nat -> R) (XX : vecOfvec)
    (dth_index : nat) (corrMatrix : matrixd) (w : St) :
  size1 corrMatrix = length XX ->
  size2 corrMatrix = length XX ->
  KernelModel.computeDerivativeCorrMatrix g XX corrMatrix dth_index w =
  (Returned (derivative_rows_loop g XX dth_index (length XX) corrMatrix), w).
Proof.
  intros H1 H2. unfold KernelModel.computeDerivativeCorrMatrix, bind, assert_.
  rewrite H1, H2, Nat.eqb_refl. reflexivity.
Qed.

Section DerivativeOfSurrogate.

Context {KernelObj MeanObj Cache : Type}.
Context {kops : KernelOps KernelObj} {mops : MeanOps MeanObj}.

Local Abbreviation State := (NonParametricProcess.State KernelObj MeanObj Cache).


End DerivativeOfSurrogate.


Lemma for_loop_ext {A : Type} (n : nat) (f g : nat -> A -> A) (a : A) :
  (forall i x, (i < n)%nat -> f i x = g i x) ->
  for_loop n f a = for_loop n g a.
Proof.
  induction n as [|n IH]; intro H; [reflexivity|].
  cbn [for_loop]. rewrite IH by (intros; apply H; lia). apply H. lia.
Qed.

(** X9. [kernelLogPrior] reads a hyperparameter only when its prior has a
    strictly positive standard deviation: two hyperparameter vectors of
    one size that agree on those entries have the same log-prior, whatever
    the density of the priors. *)
Theorem kernelLogPrior_ignores_fixed_hyperparameters
    (KernelObj : Type) (pdf : R * R -> R -> R) (th th' : vectord)
    (km : KernelModel.t KernelObj) :
  length th = length th' ->
  (forall i, (i < length th)%nat ->
     0 < snd (nth i (KernelModel.priorKernel km) (0, 0)) ->
     ublas.at_ th i = ublas.at_ th' i) ->
  kernelLogPrior pdf th km = kernelLogPrior pdf th' km.
Proof.
  intros Hlen Hagree. unfold kernelLogPrior. rewrite <- Hlen.
  apply for_loop_ext. intros i prior Hi. cbv zeta.
  destruct (Rlt_dec 0 (snd (nth i (KernelModel.priorKernel km) (0, 0))))
    as [Hpos|Hneg]; [|reflexivity].
  now rewrite (Hagree i Hi Hpos).
Qed.

Lemma kernelLogPrior_witness :
  kernelLogPrior (fun p x => exp (- (x - fst p))) [1; 5]
    (KernelModel.mk (Some (KSEIso 1)) [(1, 2); (3, 0)]) =
  kernelLogPrior (fun p x => exp (- (x - fst p))) [1; 7]
    (KernelModel.mk (Some (KSEIso 1)) [(1, 2); (3, 0)]).
Proof.
  apply (kernelLogPrior_ignores_fixed_hyperparameters Kernel
           (fun p x => exp (- (x - fst p))) [1; 5] [1; 7]
           (KernelModel.mk (Some (KSEIso 1)) [(1, 2); (3, 0)])).
  - reflexivity.
  - intros [|[|i]] Hi Hpos; simpl in *; [reflexivity | lra | lia].
Defined.

(* ================================================================== *)
(** * Further properties of the surrogate *)

(** Every branch of a call: the rule of the construct at the head, a
    case analysis where the call branches. *)
Ltac wp_cases :=
  repeat first
    [ wp_step
    | lazymatch goal with
      | |- wp (match ?x with _ => _ end) _ _ => destruct x eqn:?
      | |- if ?b then _ else _ => destruct b eqn:?
      end ].

Section Reading.

Context {KernelObj MeanObj Cache : Type}.
Context {kops : KernelOps KernelObj} {mops : MeanOps MeanObj}.

Local Abbreviation State := (NonParametricProcess.State KernelObj MeanObj Cache).
Local Abbreviation Sys := (@NonParametricProcess.Sys KernelObj MeanObj Cache).

Lemma reads_only_wp {A} (m : Meth A) (sy : Sys) :
  wp m (fun o sy' => sy' = sy /\ ((exists a, o = Returned a) \/ o = Aborted)) sy ->
  reads_only m sy.
Proof. exact (fun H => H). Qed.

(** X10. The member functions that read the samples or evaluate the
    kernel ([getSample], [getLastSample], both [computeCorrMatrix],
    [computeDerivativeCorrMatrix], [computeCrossCorrelation],
    [computeSelfCorrelation]) change neither the surrogate nor the
    world, and never throw or end the process: each returns, or stops at
    a failed assertion, a missing kernel or an index out of range. *)
Theorem reading_member_functions_change_nothing
    (sy : Sys) (index dth_index : nat) (corrMatrix : matrixd)
    (query : vectord) :
  reads_only (getSample index) sy
  /\ reads_only getLastSample sy
  /\ reads_only (computeCorrMatrix corrMatrix) sy
  /\ reads_only computeCorrMatrix_new sy
  /\ reads_only (computeDerivativeCorrMatrix dth_index) sy
  /\ reads_only (computeCrossCorrelation query) sy
  /\ reads_only (computeSelfCorrelation query) sy.
Proof.
  repeat apply conj; apply reads_only_wp;
    unfold getSample, getLastSample, computeCorrMatrix_new, computeCorrMatrix,
      computeDerivativeCorrMatrix, computeCrossCorrelation,
      computeSelfCorrelation, the_kernel,
      KernelModel.computeCorrMatrix, KernelModel.computeDerivativeCorrMatrix;
    wp_cases;
    (split; [reflexivity | first [left; eexists; reflexivity | now right]]).
Qed.

End Reading.

Section Samples.

Context {KernelObj MeanObj Cache : Type}.
Context {kops : KernelOps KernelObj} {mops : MeanOps MeanObj}.

Local Abbreviation State := (NonParametricProcess.State KernelObj MeanObj Cache).
Local Abbreviation Sys := (@NonParametricProcess.Sys KernelObj MeanObj Cache).

Variable cholesky_decompose : matrixd -> matrixd -> Z * matrixd.
Variable cholesky_add_row : matrixd -> vectord -> Z * matrixd.
Variable precomputePrediction_impl : State -> Z * Cache.
Variable updateKernelParameters_impl : State -> Z * KernelModel.t KernelObj.

Lemma nth_error_rows (x : matrixd) (i : nat) :
  (i < size1 x)%nat ->
  nth_error (map (row x) (seq 0 (size1 x))) i = Some (row x i).
Proof.
  intro Hi. rewrite nth_error_map.
  rewrite (nth_error_nth' _ 0%nat) by (now rewrite length_seq).
  now rewrite seq_nth.
Qed.

(** X11. On a surrogate with a mean function, [setSamples(x, y)] with
    no more rows than observations and, when there is a row, bound
    indices that point inside [y], appends the rows of [x] to the sample
    points but replaces the observations by [y], recomputes the means and
    the features at all the points, and logs nothing.  On a surrogate that
    had no sample points, [getSample] then reads back row [i] of [x] with
    [y(i)], for every row [i]. *)
Theorem setSamples_appends_points_replaces_observations
    (x : matrixd) (y : vectord) (w : World) (s : State) (m : MeanObj) :
  mMean s = Some m ->
  (size1 x <= length y)%nat ->
  (size1 x <> 0%nat ->
   (mMinIndex s < length y)%nat /\ (mMaxIndex s < length y)%nat) ->
  exists s',
    setSamples x y (mk_Sys w s) = (Returned tt, mk_Sys w s')
    /\ mGPXX s' = mGPXX s ++ map (row x) (seq 0 (size1 x))
    /\ mGPY s' = y
    /\ mMeanV s' = getAllMeans m (mGPXX s')
    /\ mFeatM s' = getAllFeatures m (mGPXX s')
    /\ (mGPXX s = [] ->
        forall i, (i < size1 x)%nat ->
          getSample i (mk_Sys w s')
          = (Returned (row x i, ublas.at_ y i), mk_Sys w s')).
Proof.
  intros Hm Hsize Hidx.
  destruct (setSamples_loop x (seq 0 (size1 x)) w (set_mGPY y s))
    as (s1 & Hrun & HX & HY & HM).
  { intros i Hi. apply in_seq in Hi. cbn [mGPY set_mGPY]. lia. }
  { intro Hne. apply Hidx. intro H0. rewrite H0 in Hne. now apply Hne. }
  set (s2 := set_mMeanV (getAllMeans m (mGPXX s1)) s1).
  exists (set_mFeatM (getAllFeatures m (mGPXX s2)) s2).
  assert (HX' : mGPXX s1 = mGPXX s ++ map (row x) (seq 0 (size1 x)))
    by exact HX.
  assert (HY' : mGPY s1 = y) by exact HY.
  split; [|split; [exact HX'|split; [exact HY'|split; [reflexivity|split;
           [reflexivity|]]]]].
  - unfold setSamples, the_mean.
    apply wp_equation. wp_step. wp_step.
    apply wp_bind. eapply wp_of_run; [exact Hrun|]. wp_project.
    repeat wp_step.
    replace (mMean s1) with (Some m) by (rewrite HM; symmetry; exact Hm).
    repeat wp_step. reflexivity.
  - intros Hempty i Hi.
    assert (Hiy : (i < length y)%nat) by lia.
    cbv beta iota delta [getSample bind self ret abort this]. wp_project.
    fold s2. change (mGPXX s2) with (mGPXX s1). change (mGPY s2) with (mGPY s1).
    rewrite HX', HY', Hempty. cbn [app].
    rewrite nth_error_rows by exact Hi.
    rewrite (nth_error_nth' y 0 Hiy). reflexivity.
Qed.

(** X12. [updateSurrogateModel] and [fitSurrogateModel(Xnew, Ynew)] read
    the dimension off the second stored sample: on a surrogate with
    fewer than two sample points, or whose second point is not of the
    size of [Xnew], they stop at their assertion before anything is
    changed or logged. *)
Theorem update_needs_two_samples_of_the_dimension
    (Xnew : vectord) (Ynew : R) (w : World) (s : State) :
  (length (mGPXX s) < 2)%nat
  \/ (exists x1, nth_error (mGPXX s) 1 = Some x1 /\ length x1 <> length Xnew) ->
  updateSurrogateModel cholesky_add_row precomputePrediction_impl Xnew Ynew
    (mk_Sys w s) = (Aborted, mk_Sys w s)
  /\ fitSurrogateModel_sample cholesky_decompose precomputePrediction_impl
       updateKernelParameters_impl Xnew Ynew (mk_Sys w s)
     = (Aborted, mk_Sys w s).
Proof.
  intro H.
  assert (Ha : assert_dimension Xnew (mk_Sys w s) = (Aborted, mk_Sys w s)).
  { unfold assert_dimension. cbv beta iota delta [bind self this].
    destruct H as [Hlt|(x1 & Hx1 & Hne)].
    - assert (Hn : nth_error (mGPXX s) 1 = None)
        by (apply nth_error_None; lia).
      now rewrite Hn.
    - rewrite Hx1. unfold assert_.
      now destruct (Nat.eqb_spec (length x1) (length Xnew)). }
  unfold updateSurrogateModel, fitSurrogateModel_sample.
  split; unfold bind at 1; now rewrite Ha.
Qed.

End Samples.

Section Codes.

Context {KernelObj MeanObj Cache : Type}.
Context {kops : KernelOps KernelObj} {mops : MeanOps MeanObj}.

Local Abbreviation State := (NonParametricProcess.State KernelObj MeanObj Cache).
Local Abbreviation Sys := (@NonParametricProcess.Sys KernelObj MeanObj Cache).

Variable cholesky_decompose : matrixd -> matrixd -> Z * matrixd.
Variable cholesky_add_row : matrixd -> vectord -> Z * matrixd.
Variable precomputePrediction_impl : State -> Z * Cache.
Variable updateKernelParameters_impl : State -> Z * KernelModel.t KernelObj.

Ltac unfold_fit :=
  unfold fitSurrogateModel, precomputeSurrogate, updateSurrogateModel,
    computeCholeskyCorrelation, computeCorrMatrix, precomputePrediction,
    updateKernelParameters, assert_dimension, addNewPointToCholesky,
    addSample, checkBoundsY,
    NonParametricProcess.computeCrossCorrelation,
    NonParametricProcess.computeSelfCorrelation,
    KernelModel.computeCorrMatrix, the_mean, the_kernel.

(** X13. The error codes of the fitting functions carry no information
    of their own: whenever [precomputeSurrogate] or
    [updateSurrogateModel] returns, it returns 0, and whenever
    [fitSurrogateModel] returns, it returns the code
    [updateKernelParameters] gave it; none of them throws. *)
Theorem fitting_functions_return_zero
    (sy : Sys) (Xnew : vectord) (Ynew : R) :
  wp (precomputeSurrogate cholesky_decompose precomputePrediction_impl)
     (fun o _ => match o with
                 | Returned e => e = 0%Z
                 | Thrown _ => False
                 | _ => True
                 end) sy
  /\ wp (updateSurrogateModel cholesky_add_row precomputePrediction_impl
           Xnew Ynew)
        (fun o _ => match o with
                    | Returned e => e = 0%Z
                    | Thrown _ => False
                    | _ => True
                    end) sy
  /\ wp (fitSurrogateModel cholesky_decompose precomputePrediction_impl
           updateKernelParameters_impl)
        (fun o _ => match o with
                    | Returned e =>
                        e = fst (updateKernelParameters_impl (this sy))
                    | Thrown _ => False
                    | _ => True
                    end) sy.
Proof.
  repeat apply conj; unfold_fit; wp_cases;
    repeat match goal with
           | H : (_ =? 0)%Z = true |- _ => apply Z.eqb_eq in H
           end;
    subst; try exact I; try reflexivity.
  cbn [fst]. lia.
Qed.

End Codes.

Section Prediction.

Context {KernelObj MeanObj Cache : Type}.
Context {kops : KernelOps KernelObj} {mops : MeanOps MeanObj}.

Local Abbreviation State := (NonParametricProcess.State KernelObj MeanObj Cache).
Local Abbreviation Sys := (@NonParametricProcess.Sys KernelObj MeanObj Cache).

Variable cholesky_decompose : matrixd -> matrixd -> Z * matrixd.
Variable precomputePrediction_impl : State -> Z * Cache.
Variable updateKernelParameters_impl : State -> Z * KernelModel.t KernelObj.

Local Abbreviation status := (decomposition_status cholesky_decompose).
Local Abbreviation after_update :=
  (after_kernel_update updateKernelParameters_impl).

(** Once the decomposition has succeeded, [precomputeSurrogate] runs the
    prediction step on the surrogate with the new factor. *)
Lemma precomputeSurrogate_run (w : World) (s : State) :
  status s = Some 0%Z ->
  exists L,
    let s1 := set_mL L s in
    let s2 := set_mCache (snd (precomputePrediction_impl s1)) s1 in
    precomputeSurrogate cholesky_decompose precomputePrediction_impl
      (mk_Sys w s)
    = if (fst (precomputePrediction_impl s1) =? 0)%Z
      then (Returned 0%Z, mk_Sys w s2)
      else (Exited,
            mk_Sys (mk_World
                      (log_lines w ++
                       ["Error pre-computing the prediction distribution"%string])
                      (live_objects w)) s2).
Proof.
  intro Hs.
  destruct (computeCholeskyCorrelation_run cholesky_decompose w s 0%Z Hs)
    as [L HL].
  exists L. cbv zeta. apply wp_equation.
  unfold precomputeSurrogate, precomputePrediction.
  apply wp_bind. eapply wp_of_run; [exact HL|]. wp_project.
  repeat wp_step. cbn [Z.eqb]. repeat wp_step.
  destruct (precomputePrediction_impl (set_mL L s)) as [e c].
  repeat wp_step. cbn [fst snd].
  destruct (Z.eqb_spec e 0) as [->|Hne]; repeat wp_step; reflexivity.
Qed.

(** X14. When the decomposition succeeds under the kernel that
    [updateKernelParameters] leaves, [fitSurrogateModel] runs the
    prediction step on the surrogate with the new kernel and the new
    factor.  If that step reports 0 the fit returns the code of
    [updateKernelParameters] with nothing logged; if it reports any other
    code, positive or negative, the fit logs "Error pre-computing the
    prediction distribution" and ends the process. *)
Theorem fit_ends_the_process_on_prediction_error (w : World) (s : State) :
  status (after_update s) = Some 0%Z ->
  exists L,
    let s1 := set_mL L (after_update s) in
    let s2 := set_mCache (snd (precomputePrediction_impl s1)) s1 in
    fitSurrogateModel cholesky_decompose precomputePrediction_impl
      updateKernelParameters_impl (mk_Sys w s)
    = if (fst (precomputePrediction_impl s1) =? 0)%Z
      then (Returned (fst (updateKernelParameters_impl s)), mk_Sys w s2)
      else (Exited,
            mk_Sys (mk_World
                      (log_lines w ++
                       ["Error pre-computing the prediction distribution"%string])
                      (live_objects w)) s2).
Proof.
  intro Hs.
  destruct (precomputeSurrogate_run w (after_update s) Hs) as [L HL].
  exists L. cbv zeta in *. apply wp_equation.
  unfold fitSurrogateModel, updateKernelParameters.
  repeat wp_step.
  destruct (updateKernelParameters_impl s) as [eu km] eqn:Hu.
  repeat wp_step.
  unfold after_kernel_update in HL. rewrite Hu in HL. cbn [snd] in HL.
  unfold after_kernel_update. rewrite Hu. cbn [fst snd].
  destruct (fst (precomputePrediction_impl _) =? 0)%Z;
    (eapply wp_of_run; [exact HL|]);
    wp_project; repeat wp_step; [|reflexivity].
  now rewrite Z.add_0_r.
Qed.

End Prediction.

Section Configuration.

Context {KernelObj MeanObj Cache : Type}.
Context {kops : KernelOps KernelObj} {mops : MeanOps MeanObj}.

Local Abbreviation State := (NonParametricProcess.State KernelObj MeanObj Cache).
Local Abbreviation Sys := (@NonParametricProcess.Sys KernelObj MeanObj Cache).

Variable cholesky_decompose : matrixd -> matrixd -> Z * matrixd.
Variable cholesky_add_row : matrixd -> vectord -> Z * matrixd.
Variable precomputePrediction_impl : State -> Z * Cache.
Variable updateKernelParameters_impl : State -> Z * KernelModel.t KernelObj.

Lemma configuration_kept_refl {op : Op} (s : State) : configuration_kept op s s.
Proof. unfold configuration_kept. tauto. Qed.

Lemma configuration_kept_trans {op : Op} (s1 s2 s3 : State) :
  configuration_kept op s1 s2 -> configuration_kept op s2 s3 ->
  configuration_kept op s1 s3.
Proof.
  unfold configuration_kept.
  intros (H1 & H2 & H3 & H4 & H5) (G1 & G2 & G3 & G4 & G5).
  repeat split; try congruence.
  - intro Hf. rewrite (G4 Hf). exact (H4 Hf).
  - destruct (G5 H) as (-> & _). exact (proj1 (H5 H)).
  - destruct (G5 H) as (_ & -> & _). exact (proj1 (proj2 (H5 H))).
  - destruct (G5 H) as (_ & _ & ->). exact (proj2 (proj2 (H5 H))).
Qed.

Lemma configuration_check_bounds (op : Op) (i : nat) (s : State) :
  configuration_kept op s (check_bounds i s).
Proof.
  unfold configuration_kept, check_bounds.
  destruct (Rlt_dec _ _); [repeat split; reflexivity|].
  destruct (Rlt_dec _ _); repeat split; reflexivity.
Qed.

Ltac configuration_step :=
  first [ apply configuration_check_bounds
        | unfold configuration_kept; wp_project; repeat split;
          first [ reflexivity | discriminate ] ].

Ltac keeps_configuration :=
  repeat
    lazymatch goal with
    | |- keeps _ (bind _ _) =>
        apply keeps_bind; [exact configuration_kept_trans | | intros ?]
    | |- keeps _ (mutate _) => apply keeps_mutate; intros ?; configuration_step
    | |- keeps _ (ret _) => apply keeps_ret; exact configuration_kept_refl
    | |- keeps _ self => apply keeps_self; exact configuration_kept_refl
    | |- keeps _ abort => apply keeps_abort; exact configuration_kept_refl
    | |- keeps _ exit_ => apply keeps_exit; exact configuration_kept_refl
    | |- keeps _ (assert_ _) =>
        apply keeps_assert; exact configuration_kept_refl
    | |- keeps _ (in_world _) =>
        apply keeps_in_world; exact configuration_kept_refl
    | |- keeps _ (for_each _ _) =>
        apply keeps_for_each;
        [exact configuration_kept_refl | exact configuration_kept_trans
        | intros ?]
    | |- keeps _ (match ?x with _ => _ end) => destruct x
    end.

Ltac unfold_exec :=
  unfold NonParametricProcess.exec, fitSurrogateModel_sample,
    fitSurrogateModel, precomputeSurrogate, updateSurrogateModel,
    computeCholeskyCorrelation, computeCorrMatrix_new, computeCorrMatrix,
    computeDerivativeCorrMatrix, precomputePrediction,
    updateKernelParameters, assert_dimension, addNewPointToCholesky,
    setSamples, addSample, getSample, getLastSample, setMean_params, setMean,
    checkBoundsY,
    NonParametricProcess.computeCrossCorrelation,
    NonParametricProcess.computeSelfCorrelation,
    KernelModel.computeCorrMatrix, KernelModel.computeDerivativeCorrMatrix,
    the_mean, the_kernel.

(** X15. No member function of the surrogate, whatever its arguments and
    however it ends, changes the dimension, the nugget or the learning
    type; only the two [fitSurrogateModel] change the kernel model, and
    only the two [setMean] change the mean function and its
    coefficients. *)
Theorem member_functions_keep_the_configuration (op : Op) (sy : Sys) :
  configuration_kept op (this sy)
    (this (snd (NonParametricProcess.exec cholesky_decompose cholesky_add_row
                  precomputePrediction_impl updateKernelParameters_impl
                  op sy))).
Proof.
  revert sy.
  change (keeps (configuration_kept op)
            (NonParametricProcess.exec cholesky_decompose cholesky_add_row
               precomputePrediction_impl updateKernelParameters_impl op)).
  destruct op; unfold_exec;
    keeps_configuration.
Qed.

End Configuration.

Section Construction.

Context {KernelObj MeanObj Cache : Type}.
Context {kops : KernelOps KernelObj} {mops : MeanOps MeanObj}.

Local Abbreviation State := (NonParametricProcess.State KernelObj MeanObj Cache).
Local Abbreviation Sys := (@NonParametricProcess.Sys KernelObj MeanObj Cache).

Variable parseExpresion : string -> string * string * string.
Variable fuel : nat.
Variable derived_init : string -> nat -> bopt_params -> Cache.
Variable cache0 : Cache.

(** A kernel model that [setKernel] returns holds a kernel and the prior
    of the given means and deviations. *)
Lemma setKernel_returned (thetav stheta : vectord) (k_name : string)
    (dim : nat) (km km' : KernelModel.t KernelObj) (w w' : World) :
  KernelModel.setKernel parseExpresion fuel thetav stheta k_name dim km w
  = (Returned km', w') ->
  (exists k, KernelModel.mKernel km' = Some k)
  /\ KernelModel.priorKernel km' = combine thetav stheta.
Proof.
  unfold KernelModel.setKernel, bind.
  destruct (KernelFactory.create parseExpresion fuel k_name dim w)
    as [[k|what| |] w1]; try discriminate.
  cbn. intros [= <- _]. split; [eexists|]; reflexivity.
Qed.

(** The body of the constructor: what it has set when it returns. *)
Lemma constructor_body (s0 : State) (lt : nat) (mean : mean_parameters.t)
    (dim : nat) (w : World) :
  wp (setLearnType lt ;;
      errorM <- setMean_params mean dim ;;
      if (errorM =? 0)%Z then ret tt
      else
        in_world (FILE_LOG "Error initializing nonparametric process.") ;;
        exit_)%proc
     (fun o sy' =>
        forall u, o = Returned u ->
          dim_ (this sy') = dim_ s0
          /\ mRegularizer (this sy') = mRegularizer s0
          /\ mLearnType (this sy') = lt
          /\ mGPXX (this sy') = mGPXX s0
          /\ mGPY (this sy') = mGPY s0
          /\ mKernel (this sy') = mKernel s0
          /\ mCache (this sy') = mCache s0
          /\ exists m, mMean (this sy') = Some m)
     (mk_Sys w s0).
Proof.
  unfold setLearnType, setMean_params, setMean.
  repeat wp_step.
  unfold wp at 1.
  destruct (mean_create (mean_parameters.name mean) dim w)
    as [[m|what| |] w1]; cbn [fst snd]; wp_project; try discriminate.
  wp_cases; try discriminate;
    intros _ _; repeat split; eexists; reflexivity.
Qed.

(** X16. A surrogate that the constructor returns has the dimension,
    the nugget ([noise]) and the learning type of the configuration, no
    samples, a kernel, a mean function, and the members of the derived
    class untouched; in particular the constructor does not return when
    the mean factory answers with a null pointer. *)
Theorem constructed_surrogate_is_empty
    (dim : nat) (p : bopt_params) (w w' : World) (s : State) :
  NonParametricProcess.construct parseExpresion fuel cache0 dim p w
  = (Returned s, w') ->
  dim_ s = dim
  /\ mRegularizer s = noise p
  /\ mLearnType s = l_type p
  /\ mGPXX s = [] /\ mGPY s = []
  /\ (exists k, KernelModel.mKernel (mKernel s) = Some k)
  /\ (exists m, mMean s = Some m)
  /\ mCache s = cache0.
Proof.
  unfold NonParametricProcess.construct. unfold bind at 1.
  destruct (KernelModel.construct parseExpresion fuel dim p w)
    as [[km|what| |] w1] eqn:Hkm; try discriminate.
  apply setKernel_returned in Hkm. destruct Hkm as [Hk _].
  unfold bind at 1. unfold on_object.
  match goal with
  | |- context [?body (mk_Sys w1 ?s0)] =>
      destruct (wp_outcome _ _ _
                  (constructor_body s0 (l_type p) (mean p) dim w1))
        as (o & sy1 & Hrun & Hpost)
  end.
  rewrite Hrun. destruct o as [u|what| |]; try discriminate.
  intros [= <- _].
  destruct (Hpost u eq_refl) as (H1 & H2 & H3 & H4 & H5 & H6 & H7 & H8).
  cbn [snd]. rewrite H1, H2, H3, H4, H5, H6, H7. cbn. tauto.
Qed.

End Construction.

Section CreateSurrogate.

Context {KernelObj MeanObj Cache : Type}.
Context {kops : KernelOps KernelObj} {mops : MeanOps MeanObj}.

Variable parseExpresion : string -> string * string * string.
Variable fuel : nat.
Variable derived_init : string -> nat -> bopt_params -> Cache.
Variable cache0 : Cache.

Lemma new_surrogate_returned (C : string) (dim : nat) (p : bopt_params)
    (w w' : World) (r : option (Surrogate KernelObj MeanObj Cache)) :
  NonParametricProcess.new_surrogate parseExpresion fuel derived_init cache0
    C dim p w = (Returned r, w') ->
  exists sg, r = Some sg /\ cls sg = C
             /\ In C (live_objects w')
             /\ mCache (members sg) = derived_init C dim p.
Proof.
  unfold NonParametricProcess.new_surrogate. unfold bind at 1.
  destruct (NonParametricProcess.construct parseExpresion fuel cache0 dim p w)
    as [[s|what| |] w1]; try discriminate.
  cbn. intros [= <- <-]. eexists. repeat split. now left.
Qed.

(** X17. [NonParametricProcess::create] returns the null pointer
    exactly for the surrogate names it does not know, having logged
    "Error: surrogate function not supported." and allocated nothing.
    For a name it knows, a call that returns yields an object of one of
    the four derived classes, which is among the live objects and has
    the members its constructor set. *)
Theorem create_returns_null_only_for_unknown_names
    (dim : nat) (p : bopt_params) (w w' : World)
    (r : option (Surrogate KernelObj MeanObj Cache)) :
  NonParametricProcess.create parseExpresion fuel derived_init cache0 dim p w
  = (Returned r, w') ->
  match r with
  | None =>
      known_surrogate (surr_name p) = false
      /\ w' = mk_World
                (log_lines w ++ ["Error: surrogate function not supported."%string])
                (live_objects w)
  | Some sg =>
      known_surrogate (surr_name p) = true
      /\ In (cls sg) ["GaussianProcess"; "GaussianProcessML";
                      "GaussianProcessNormal"; "StudentTProcessNIG"]%string
      /\ In (cls sg) (live_objects w')
      /\ mCache (members sg) = derived_init (cls sg) dim p
  end.
Proof.
  unfold NonParametricProcess.create, known_surrogate, surrogate_names.
  cbn [existsb].
  destruct (String.eqb (surr_name p) "sGaussianProcess") eqn:E1;
    [|destruct (String.eqb (surr_name p) "sGaussianProcessML") eqn:E2;
      [|destruct (String.eqb (surr_name p) "sGaussianProcessNormal") eqn:E3;
        [|destruct (String.eqb (surr_name p) "sStudentTProcessJef") eqn:E4;
          [|destruct (String.eqb (surr_name p) "sStudentTProcessNIG") eqn:E5]]]];
    intro Hrun;
    try (apply new_surrogate_returned in Hrun;
         destruct Hrun as (sg & -> & Hc & Hl & Hm);
         rewrite Hc; cbn [orb In];
         repeat split; auto 6; fail).
  cbv in Hrun. injection Hrun as <- <-. split; reflexivity.
Qed.

End CreateSurrogate.

(* ------------------------------------------------------------------ *)
(** ** The further properties on the two-sample surrogate *)


Lemma setSamples_witness :
  exists s',
    setSamples (mops := Concrete.mean_ops)
      (mk_matrixd 1 1 (fun _ _ => 5)) [7; 8]
      (mk_Sys Concrete.empty_world Concrete.two_samples)
    = (Returned tt, mk_Sys Concrete.empty_world s')
    /\ mGPXX s' = [[0]; [1]; [5]]
    /\ mGPY s' = [7; 8].
Proof.
  destruct (setSamples_appends_points_replaces_observations
              (mops := Concrete.mean_ops)
              (mk_matrixd 1 1 (fun _ _ => 5)) [7; 8]
              Concrete.empty_world Concrete.two_samples 0 eq_refl)
    as (s' & Hrun & HX & HY & _).
  - simpl. lia.
  - intros _. simpl. lia.
  - exists s'. split; [exact Hrun|]. split; [exact HX | exact HY].
Defined.

Lemma update_needs_two_samples_witness :
  updateSurrogateModel (kops := Concrete.kernel_ops)
    (mops := Concrete.mean_ops) cholesky.cholesky_add_row
    Concrete.precompute_ok [0; 0] 3
    (mk_Sys Concrete.empty_world Concrete.two_samples)
  = (Aborted, mk_Sys Concrete.empty_world Concrete.two_samples).
Proof.
  apply (update_needs_two_samples_of_the_dimension
           (kops := Concrete.kernel_ops) (mops := Concrete.mean_ops)
           cholesky.cholesky_decompose cholesky.cholesky_add_row
           Concrete.precompute_ok Concrete.keep_kernel
           [0; 0] 3 Concrete.empty_world Concrete.two_samples).
  right. exists [1]. split; [reflexivity|]. simpl. lia.
Defined.

Lemma fit_prediction_error_witness :
  exists L,
    fitSurrogateModel (kops := Concrete.kernel_ops)
      (fun K L => (0%Z, L)) (fun s => (3%Z, tt)) Concrete.keep_kernel
      (mk_Sys Concrete.empty_world Concrete.two_samples)
    = (Exited,
       mk_Sys (mk_World
                 ["Error pre-computing the prediction distribution"%string] [])
         (set_mCache tt
            (set_mL L (set_mKernel (mKernel Concrete.two_samples)
                         Concrete.two_samples)))).
Proof.
  destruct (fit_ends_the_process_on_prediction_error
              (kops := Concrete.kernel_ops)
              (fun K L => (0%Z, L)) (fun s => (3%Z, tt)) Concrete.keep_kernel
              Concrete.empty_world Concrete.two_samples eq_refl)
    as [L HL].
  exists L. exact HL.
Defined.

Lemma constructed_surrogate_witness :
  exists s w',
    NonParametricProcess.construct (kops := Concrete.kernel_ops)
      (mops := Concrete.mean_ops) Concrete.parse_atomic 1 tt 1
      Concrete.example_params Concrete.empty_world
    = (Returned s, w')
    /\ mGPXX s = [] /\ mRegularizer s = 1e-10.
Proof.
  eexists. eexists.
  assert (Hrun :
    NonParametricProcess.construct (kops := Concrete.kernel_ops)
      (mops := Concrete.mean_ops) Concrete.parse_atomic 1 tt 1
      Concrete.example_params Concrete.empty_world
    = (Returned _, _)) by (lazy; reflexivity).
  split; [exact Hrun|].
  destruct (constructed_surrogate_is_empty (kops := Concrete.kernel_ops)
              (mops := Concrete.mean_ops) Concrete.parse_atomic 1 tt 1
              Concrete.example_params Concrete.empty_world _ _ Hrun)
    as (_ & Hn & _ & HX & _).
  split; [exact HX | exact Hn].
Defined.

Lemma create_known_name_witness :
  exists sg w',
    NonParametricProcess.create (kops := Concrete.kernel_ops)
      (mops := Concrete.mean_ops) Concrete.parse_atomic 1
      Concrete.prior_of (0, 0, 0) 1 Concrete.example_params
      Concrete.empty_world
    = (Returned (Some sg), w')
    /\ cls sg = "GaussianProcess"%string
    /\ In (cls sg) (live_objects w').
Proof.
  eexists. eexists.
  assert (Hrun :
    NonParametricProcess.create (kops := Concrete.kernel_ops)
      (mops := Concrete.mean_ops) Concrete.parse_atomic 1
      Concrete.prior_of (0, 0, 0) 1 Concrete.example_params
      Concrete.empty_world
    = (Returned (Some _), _)) by (lazy; reflexivity).
  split; [exact Hrun|]. split; [reflexivity|].
  exact (proj1 (proj2 (proj2
    (create_returns_null_only_for_unknown_names (kops := Concrete.kernel_ops)
       (mops := Concrete.mean_ops) Concrete.parse_atomic 1
       Concrete.prior_of (0, 0, 0) 1 Concrete.example_params
       Concrete.empty_world _ _ Hrun)))).
Defined.

(* ------------------------------------------------------------------ *)
(** ** The matrix that is decomposed *)

Section DecomposedMatrix.

Context {MeanObj Cache : Type}.

Local Abbreviation State := (NonParametricProcess.State Kernel MeanObj Cache).

Variable cholesky_decompose : matrixd -> matrixd -> Z * matrixd.

Lemma positive_scales_fit (k : Kernel) (dim : nat) :
  positive_scales k dim -> scales_fit k dim.
Proof. intros [_ H]. destruct k; exact H. Qed.

(** X19. On a surrogate whose [n] sample points have one dimension and
    whose kernel, one of the header, has strictly positive length-scales
    for that dimension, [computeCholeskyCorrelation] makes only kernel
    calls that pass their assertions and hands to [cholesky_decompose] an
    [n] by [n] symmetric matrix with [1 + nugget] on its diagonal; it
    returns the status of the decomposition and stores the factor it
    leaves, changing nothing else. *)
Theorem decomposed_matrix_has_unit_diagonal
    (w : World) (s : State) (k : Kernel) (dim : nat) :
  KernelModel.mKernel (mKernel s) = Some k ->
  positive_scales k dim ->
  Forall (fun x => length x = dim) (mGPXX s) ->
  (forall i j, (i < length (mGPXX s))%nat -> (j < length (mGPXX s))%nat ->
     asserted k (KernelModel.sample (mGPXX s) i)
       (KernelModel.sample (mGPXX s) j) = true)
  /\ exists K,
       size1 K = length (mGPXX s) /\ size2 K = length (mGPXX s)
       /\ (forall i j, (i < length (mGPXX s))%nat ->
             (j < length (mGPXX s))%nat -> coef K i j = coef K j i)
       /\ (forall i, (i < length (mGPXX s))%nat ->
             coef K i i = 1 + mRegularizer s)
       /\ computeCholeskyCorrelation (kops := Concrete.kernel_ops)
            cholesky_decompose (mk_Sys w s)
          = (Returned
               (fst (cholesky_decompose K
                       (ublas.mresize (length (mGPXX s)) (length (mGPXX s))
                          (mL s)))),
             mk_Sys w
               (set_mL
                  (snd (cholesky_decompose K
                          (ublas.mresize (length (mGPXX s))
                             (length (mGPXX s)) (mL s))))
                  s)).
Proof.
  intros Hk Hpos Hdim. split.
  { intros i j Hi Hj.
    apply asserted_of_dimension with dim;
      [now apply positive_scales_fit | now apply sample_dimension ..]. }
  exists (regularised_corr_matrix (operator_call k) s).
  unfold regularised_corr_matrix. cbv zeta.
  destruct (rows_loop_sizes (operator_call k) (mGPXX s) (mRegularizer s)
              (length (mGPXX s))
              (ublas.fresh (length (mGPXX s)) (length (mGPXX s))))
    as [S1 S2].
  split; [exact S1|]. split; [exact S2|]. split; [|split].
  - intros i j Hi Hj. rewrite !rows_loop_entries by assumption.
    rewrite (Nat.eqb_sym j i).
    destruct (Nat.eqb_spec i j) as [E|E]; [now subst|].
    destruct (Nat.ltb_spec j i); destruct (Nat.ltb_spec i j);
      try reflexivity; lia.
  - intros i Hi. rewrite rows_loop_entries by assumption.
    now rewrite Nat.eqb_refl, operator_call_self.
  - unfold computeCholeskyCorrelation, computeCorrMatrix, the_kernel.
    cbv beta iota delta [bind mutate self ret world this]. wp_project.
    rewrite Hk. cbv beta iota.
    rewrite computeCorrMatrix_returns by reflexivity.
    cbv beta iota. wp_project.
    change (@evaluate _ Concrete.kernel_ops k) with (operator_call k).
    destruct (cholesky_decompose _ _) as [e0 L]. reflexivity.
Qed.

End DecomposedMatrix.

Lemma decomposed_matrix_witness :
  exists K,
    coef K 1 1 = 1 + 0
    /\ fst (computeCholeskyCorrelation (kops := Concrete.kernel_ops)
              cholesky.cholesky_decompose
              (mk_Sys Concrete.empty_world Concrete.two_samples))
       = Returned
           (fst (cholesky.cholesky_decompose K
                   (ublas.mresize 2 2 (mL Concrete.two_samples)))).
Proof.
  destruct (decomposed_matrix_has_unit_diagonal cholesky.cholesky_decompose
              Concrete.empty_world Concrete.two_samples (KSEIso 1) 1 eq_refl)
    as (_ & K & _ & _ & _ & Hd & Hrun).
  - split; [|exact I]. simpl. repeat constructor. lra.
  - repeat constructor.
  - exists K. split; [apply (Hd 1%nat); simpl; lia|].
    now rewrite Hrun.
Defined.
